(** * Country indicator ETL (etl.py): a shallow embedding and its properties

    The script fetches a World Bank indicator page by page, flattens the
    records into a table, cleans that table and a reference table of
    countries read from a CSV file, and left-joins the two.

    Conventions of the embedding.
    - Python values (JSON payloads and table cells alike) are [pyval];
      integers stand for all numbers.
    - Text is [string]; the case mapping and the character classes are
      those of Python on ASCII.  A byte above 127 is kept as a word
      character and has no case.
    - A pandas DataFrame is a list of column labels and a list of rows, a
      row being the list of its cells in column order.  The row index and
      the column dtypes are not represented, nor are the checks pandas
      makes on them (the dtypes of the two keys of a merge).
    - [astype(str)] follows pandas 1.x/2.x: every cell becomes text, a
      missing one too.
    - Exceptions are values of [exn]; a function that can raise returns an
      [outcome].
    - What a run of the script does to the outside (the requests, the
      directories and files written, the printing) is a list of [effect]s,
      in the order of the run. *)

From Stdlib Require Import List String Ascii ZArith Bool Lia Arith.
From Stdlib Require Import Sorted Permutation DecimalString OrderedTypeEx.
Import ListNotations.

Local Open Scope string_scope.
Local Open Scope list_scope.

(** ** Text *)

Module Text.

Definition code (c : ascii) : nat := nat_of_ascii c.

Definition between (lo hi : nat) (c : ascii) : bool :=
  (lo <=? code c)%nat && (code c <=? hi)%nat.

(** [str.isspace], also the class [\s] of [re]: tab, line feed, vertical
    tab, form feed, carriage return, the four separators 28..31, space. *)
Definition is_space (c : ascii) : bool :=
  between 9 13 c || between 28 32 c.

Definition is_upper (c : ascii) : bool := between 65 90 c.
Definition is_lower (c : ascii) : bool := between 97 122 c.
Definition is_digit (c : ascii) : bool := between 48 57 c.

(** The class [\w] of [re]: letters, digits, underscore. *)
Definition is_word (c : ascii) : bool :=
  is_upper c || is_lower c || is_digit c || (code c =? 95)%nat
  || (128 <=? code c)%nat.

Definition lower_char (c : ascii) : ascii :=
  if is_upper c then ascii_of_nat (code c + 32) else c.

Definition upper_char (c : ascii) : ascii :=
  if is_lower c then ascii_of_nat (code c - 32) else c.

Fixpoint smap (f : ascii -> ascii) (s : string) : string :=
  match s with
  | EmptyString => EmptyString
  | String c s' => String (f c) (smap f s')
  end.

Fixpoint sfilter (p : ascii -> bool) (s : string) : string :=
  match s with
  | EmptyString => EmptyString
  | String c s' => if p c then String c (sfilter p s') else sfilter p s'
  end.

(** [str.lower] and [str.upper]. *)
Definition lower : string -> string := smap lower_char.
Definition upper : string -> string := smap upper_char.

Fixpoint lstrip (s : string) : string :=
  match s with
  | EmptyString => EmptyString
  | String c s' => if is_space c then lstrip s' else s
  end.

Fixpoint rstrip (s : string) : string :=
  match s with
  | EmptyString => EmptyString
  | String c s' =>
      match rstrip s' with
      | EmptyString => if is_space c then EmptyString else String c EmptyString
      | t => String c t
      end
  end.

(** [str.strip] with no argument. *)
Definition strip (s : string) : string := rstrip (lstrip s).

(** [re.sub(r"[^\w\s]", "", s)]: every character that is neither a word
    character nor whitespace is deleted. *)
Definition drop_punct : string -> string :=
  sfilter (fun c => is_word c || is_space c).

(** [re.sub(r"\s+", " ", s)]: every maximal run of whitespace becomes one
    space.  [in_run] tells that the previous character was whitespace. *)
Fixpoint collapse_from (in_run : bool) (s : string) : string :=
  match s with
  | EmptyString => EmptyString
  | String c s' =>
      if is_space c
      then if in_run then collapse_from true s'
           else String " "%char (collapse_from true s')
      else String c (collapse_from false s')
  end.

Definition collapse_ws : string -> string := collapse_from false.

End Text.

(** ** Python values *)

#[warning="-register-all"]
Inductive pyval : Type :=
| PNone                                  (* None, JSON null *)
| PNaN                                   (* float('nan') *)
| PBool (b : bool)
| PNum (z : Z)
| PStr (s : string)
| PList (items : list pyval)
| PDict (entries : list (string * pyval)).

Inductive exn : Type :=
| KeyError (label : string)
| AttributeError
| TypeError
| ValueError
| HTTPError
| JSONDecodeError.

Inductive outcome (A : Type) : Type :=
| Ok (a : A)
| Raise (e : exn).
Arguments Ok {A} a.
Arguments Raise {A} e.

Definition obind {A B} (m : outcome A) (k : A -> outcome B) : outcome B :=
  match m with
  | Ok a => k a
  | Raise e => Raise e
  end.

Declare Scope outcome_scope.
Delimit Scope outcome_scope with outcome.
Notation "x <- m ;; k" := (obind m (fun x => k))
  (at level 61, m at next level, right associativity) : outcome_scope.
Notation "m ;;; k" := (obind m (fun _ => k))
  (at level 61, right associativity) : outcome_scope.

(** [pd.isna] on a scalar. *)
Definition isna (v : pyval) : bool :=
  match v with
  | PNone | PNaN => true
  | _ => false
  end.

Definition notna (v : pyval) : bool := negb (isna v).

(** Truth value of a Python object, as [or] and [if] test it. *)
Definition truthy (v : pyval) : bool :=
  match v with
  | PNone => false
  | PNaN => true
  | PBool b => b
  | PNum z => negb (z =? 0)%Z
  | PStr s => negb (s =? "")
  | PList l => match l with [] => false | _ => true end
  | PDict d => match d with [] => false | _ => true end
  end.

(** [dict.get(key)]; the keys of a parsed JSON object are distinct. *)
Fixpoint dict_get (d : list (string * pyval)) (key : string) : option pyval :=
  match d with
  | [] => None
  | (k, v) :: d' => if k =? key then Some v else dict_get d' key
  end.

(** [x.get(key)]: only a dict has the method. *)
Definition py_get (x : pyval) (key : string) : outcome pyval :=
  match x with
  | PDict d => Ok (match dict_get d key with Some v => v | None => PNone end)
  | _ => Raise AttributeError
  end.

(** ** [str(x)] *)

Module PyStr.

Local Open Scope string_scope.

Definition hex_digit (n : nat) : ascii :=
  if (n <? 10)%nat then ascii_of_nat (48 + n) else ascii_of_nat (87 + n).

Fixpoint contains (q : ascii) (s : string) : bool :=
  match s with
  | EmptyString => false
  | String c s' => (c =? q)%char || contains q s'
  end.

Definition dquote : ascii := ascii_of_nat 34.

(** The quote [repr] picks: double quotes only when the text has a single
    quote and no double quote. *)
Definition quote_of (s : string) : ascii :=
  if contains "'"%char s && negb (contains dquote s)
  then dquote else "'"%char.

Definition escape_char (q c : ascii) : string :=
  let n := nat_of_ascii c in
  if (c =? "\")%char then "\\"
  else if (c =? q)%char then String "\"%char (String q EmptyString)
  else if (n =? 10)%nat then "\n"
  else if (n =? 13)%nat then "\r"
  else if (n =? 9)%nat then "\t"
  else if (n <? 32)%nat || (n =? 127)%nat
       then String "\"%char (String "x"%char
              (String (hex_digit (n / 16)) (String (hex_digit (n mod 16)) EmptyString)))
  else String c EmptyString.

Fixpoint escape (q : ascii) (s : string) : string :=
  match s with
  | EmptyString => EmptyString
  | String c s' => escape_char q c ++ escape q s'
  end.

Definition repr_str (s : string) : string :=
  let q := quote_of s in
  String q (escape q s ++ String q EmptyString).

Fixpoint join (sep : string) (l : list string) : string :=
  match l with
  | [] => EmptyString
  | [x] => x
  | x :: l' => x ++ sep ++ join sep l'
  end.

Definition str_of_Z (z : Z) : string :=
  DecimalString.NilZero.string_of_int (Z.to_int z).

(** [repr(x)]. *)
Fixpoint repr (v : pyval) : string :=
  match v with
  | PNone => "None"
  | PNaN => "nan"
  | PBool true => "True"
  | PBool false => "False"
  | PNum z => str_of_Z z
  | PStr s => repr_str s
  | PList l => "[" ++ join ", " (map repr l) ++ "]"
  | PDict d =>
      "{" ++ join ", " (map (fun kv => repr_str (fst kv) ++ ": " ++ repr (snd kv)) d) ++ "}"
  end.

(** [str(x)]: text is itself, anything else prints as [repr]. *)
Definition str (v : pyval) : string :=
  match v with
  | PStr s => s
  | _ => repr v
  end.

End PyStr.

(** ** Normalizer *)

(** The mapping built by [standardize_colnames] is a dict from the original
    header to its canonical name, in insertion order. *)
Definition mapping := list (string * string).

Definition mem (x : string) (l : list string) : bool :=
  existsb (String.eqb x) l.

Definition values (m : mapping) : list string := map snd m.

(** [mapping[c] = v]: the value of an existing key is replaced where it
    stands, a new key goes to the end. *)
Fixpoint dict_set (m : mapping) (c v : string) : mapping :=
  match m with
  | [] => [(c, v)]
  | (k, w) :: m' => if k =? c then (k, v) :: m' else (k, w) :: dict_set m' c v
  end.

Definition country_synonyms : list string :=
  ["country"; "country_name"; "name"; "countryname"].
Definition region_synonyms : list string := ["region"; "world_region"].
Definition iso3_synonyms : list string :=
  ["iso3"; "iso_3"; "iso code 3"; "alpha-3"; "iso3code"; "countryiso3code"].
Definition subregion_synonyms : list string := ["subregion"; "sub_region"].

(** One turn of the loop of [standardize_colnames]. *)
Definition standardize_step (m : mapping) (c : string) : mapping :=
  let cl := Text.lower (Text.strip c) in
  if mem cl country_synonyms && negb (mem "country_name" (values m))
  then dict_set m c "country_name"
  else if mem cl region_synonyms && negb (mem "region" (values m))
  then dict_set m c "region"
  else if mem cl iso3_synonyms && negb (mem "iso3" (values m))
  then dict_set m c "iso3"
  else if mem cl subregion_synonyms && negb (mem "subregion" (values m))
  then dict_set m c "subregion"
  else m.

Definition standardize_colnames (cols : list string) : mapping :=
  fold_left standardize_step cols [].

Definition aliases : list (string * string) :=
  [ ("czech republic", "czechia");
    ("laos", "lao pdr");
    ("bahamas", "bahamas the");
    ("cape verde", "cabo verde");
    ("congo brazzaville", "congo rep");
    ("congo drc", "congo dem rep");
    ("eswatini", "swaziland");
    ("gambia", "gambia the");
    ("ivory coast", "cote divoire");
    ("north korea", "korea dem peoples rep");
    ("south korea", "korea rep");
    ("vietnam", "viet nam");
    ("russia", "russian federation");
    ("usa", "united states of america");
    ("united states", "united states of america") ].

Fixpoint assoc (m : list (string * string)) (k : string) : option string :=
  match m with
  | [] => None
  | (k', v) :: m' => if k' =? k then Some v else assoc m' k
  end.

(** [aliases.get(s, s)]. *)
Definition alias_of (s : string) : string :=
  match assoc aliases s with
  | Some v => v
  | None => s
  end.

(** Lines 92 to 112 of [normalize_country_name], on the text [str(x)]. *)
Definition normalize_text (t : string) : string :=
  let s := Text.lower (Text.strip t) in
  let s := Text.drop_punct s in
  let s := Text.collapse_ws s in
  alias_of s.

Definition normalize_country_name (x : pyval) : pyval :=
  if isna x then x else PStr (normalize_text (PyStr.str x)).

(** ** Ordering of cells *)

(** pandas orders a column through Python's comparisons: numbers among
    themselves ([True] is 1), text among itself by code points; a missing
    cell sorts last whatever the direction.  A column mixing the two kinds
    raises [TypeError] ([sortable] below), so the order given here between
    kinds is never observed. *)
Definition klass (v : pyval) : nat :=
  match v with
  | PNum _ | PBool _ => 0
  | PStr _ => 1
  | PList _ | PDict _ => 2
  | PNone | PNaN => 3
  end.

Definition num_of (v : pyval) : Z :=
  match v with
  | PNum z => z
  | PBool true => 1
  | _ => 0
  end.

Definition text_of (v : pyval) : string :=
  match v with
  | PStr s => s
  | _ => ""
  end.

Definition cmp_within (a b : pyval) : comparison :=
  match klass a with
  | 0 => Z.compare (num_of a) (num_of b)
  | 1 => String.compare (text_of a) (text_of b)
  | _ => Eq
  end.

Definition lex (c1 c2 : comparison) : comparison :=
  match c1 with
  | Eq => c2
  | _ => c1
  end.

(** Ascending, missing last. *)
Definition cmp_asc (a b : pyval) : comparison :=
  lex (Nat.compare (klass a) (klass b)) (cmp_within a b).

(** Descending, missing last. *)
Definition cmp_desc (a b : pyval) : comparison :=
  lex (Nat.compare (klass a) (klass b)) (cmp_within b a).

Definition le_of {A} (cmp : A -> A -> comparison) (a b : A) : bool :=
  match cmp a b with
  | Gt => false
  | _ => true
  end.

(** Two cells are the same key for [merge] and [groupby]. *)
Definition key_eqb (a b : pyval) : bool :=
  match cmp_asc a b with
  | Eq => true
  | _ => false
  end.

Definition hashable (v : pyval) : bool :=
  match v with
  | PList _ | PDict _ => false
  | _ => true
  end.

(** The non-missing cells are all numbers or all text. *)
Definition sortable (col : list pyval) : bool :=
  forallb (fun v => (klass v =? 0)%nat || (klass v =? 3)%nat) col
  || forallb (fun v => (klass v =? 1)%nat || (klass v =? 3)%nat) col.

(** A stable sort: equal elements keep their order. *)
Fixpoint insert_sorted {A} (le : A -> A -> bool) (x : A) (l : list A) : list A :=
  match l with
  | [] => [x]
  | y :: l' => if le x y then x :: l else y :: insert_sorted le x l'
  end.

Definition stable_sort {A} (le : A -> A -> bool) (l : list A) : list A :=
  fold_right (insert_sorted le) [] l.

(** ** Tables *)

Record DataFrame : Type := mkDF {
  columns : list string;
  rows : list (list pyval)
}.

Definition row := list pyval.

Definition nrows (df : DataFrame) : nat := List.length (rows df).
Definition ncols (df : DataFrame) : nat := List.length (columns df).

(** [df.empty]: one of the two axes has length 0. *)
Definition empty (df : DataFrame) : bool :=
  (nrows df =? 0)%nat || (ncols df =? 0)%nat.

(** [label in df.columns]. *)
Definition has_column (label : string) (df : DataFrame) : bool :=
  mem label (columns df).

(** The positions of the columns that carry a label. *)
Fixpoint positions_from (n : nat) (label : string) (cols : list string) : list nat :=
  match cols with
  | [] => []
  | c :: cols' =>
      if c =? label then n :: positions_from (S n) label cols'
      else positions_from (S n) label cols'
  end.

Definition positions : string -> list string -> list nat := positions_from 0.

Definition at_pos (i : nat) (r : row) : pyval := nth i r PNaN.

(** The cell of a row under a label (the first column so labelled). *)
Definition cell (cols : list string) (r : row) (label : string) : pyval :=
  match positions label cols with
  | i :: _ => at_pos i r
  | [] => PNaN
  end.

(** [df[label]] where a Series method ([.str], [.apply]) is called on the
    result: a label that is absent raises [KeyError]; a label carried by
    several columns gives a DataFrame, which has neither. *)
Definition series_position (label : string) (df : DataFrame) : outcome nat :=
  match positions label (columns df) with
  | [] => Raise (KeyError label)
  | [i] => Ok i
  | _ => Raise AttributeError
  end.

Fixpoint replace_label (cols : list string) (label : string) (v : pyval) (r : row) : row :=
  match cols, r with
  | c :: cols', x :: r' =>
      (if c =? label then v else x) :: replace_label cols' label v r'
  | _, _ => r
  end.

(** [df[label] = values], the new cell of each row being given as a
    function of the row: every column carrying the label is overwritten; a
    new label is appended as the last column. *)
Definition setitem (label : string) (f : row -> pyval) (df : DataFrame) : DataFrame :=
  if has_column label df
  then mkDF (columns df) (map (fun r => replace_label (columns df) label (f r) r) (rows df))
  else mkDF (columns df ++ [label]) (map (fun r => r ++ [f r]) (rows df)).

(** [df[dst] = df[src].<method chain>], the chain being [f] cell by cell. *)
Definition assign_from (src dst : string) (f : pyval -> pyval) (df : DataFrame)
  : outcome DataFrame :=
  (i <- series_position src df ;;
   Ok (setitem dst (fun r => f (at_pos i r)) df))%outcome.

(** [df.rename(columns=mapping)]. *)
Definition rename_columns (m : mapping) (df : DataFrame) : DataFrame :=
  mkDF (map (fun c => match assoc m c with Some v => v | None => c end) (columns df))
       (rows df).

(** [.astype(str).str.upper().str.strip()] and [.astype(str).str.strip()],
    cell by cell. *)
Definition upper_strip (v : pyval) : pyval :=
  PStr (Text.strip (Text.upper (PyStr.str v))).
Definition strip_text (v : pyval) : pyval :=
  PStr (Text.strip (PyStr.str v)).

Definition row_has_na (cols : list string) (subset : list string) (r : row) : bool :=
  existsb (fun cv => mem (fst cv) subset && isna (snd cv)) (combine cols r).

(** [df.dropna(subset=labels)]: a row goes when one of the named cells is
    missing. *)
Definition dropna (subset : list string) (df : DataFrame) : outcome DataFrame :=
  match find (fun l => negb (has_column l df)) subset with
  | Some l => Raise (KeyError l)
  | None =>
      Ok (mkDF (columns df)
               (filter (fun r => negb (row_has_na (columns df) subset r)) (rows df)))
  end.

(** The position of the one column labelled [label], for [sort_values],
    [groupby] and [merge], which refuse a label that is not unique. *)
Definition key_position (label : string) (df : DataFrame) : outcome nat :=
  match positions label (columns df) with
  | [] => Raise (KeyError label)
  | [i] => Ok i
  | _ => Raise ValueError
  end.

Definition column_at (i : nat) (df : DataFrame) : list pyval :=
  map (at_pos i) (rows df).

Definition row_cmp (i j : nat) (r1 r2 : row) : comparison :=
  lex (cmp_asc (at_pos i r1) (at_pos i r2)) (cmp_desc (at_pos j r1) (at_pos j r2)).

(** [df.sort_values([k1, k2], ascending=[True, False])]: stable, missing
    cells last in both keys. *)
Definition sort_values (k1 k2 : string) (df : DataFrame) : outcome DataFrame :=
  (i <- key_position k1 df ;;
   j <- key_position k2 df ;;
   if forallb hashable (column_at i df ++ column_at j df)
      && sortable (column_at i df) && sortable (column_at j df)
   then Ok (mkDF (columns df) (stable_sort (le_of (row_cmp i j)) (rows df)))
   else Raise TypeError)%outcome.

(** [GroupBy.first]: the first cell of a column that is not missing; a
    column of missing cells stays missing. *)
Definition first_valid (col : list pyval) : pyval :=
  match find notna col with
  | Some v => v
  | None => hd PNaN col
  end.

(** The distinct keys of a column, each at its first occurrence. *)
Fixpoint distinct_keys (l : list pyval) : list pyval :=
  match l with
  | [] => []
  | k :: l' => k :: filter (fun k' => negb (key_eqb k k')) (distinct_keys l')
  end.

Definition other_positions (i n : nat) : list nat :=
  filter (fun j => negb (j =? i)%nat) (seq 0 n).

Definition label_at (cols : list string) (j : nat) : string := nth j cols "".

Definition group_of (i : nat) (k : pyval) (rs : list row) : list row :=
  filter (fun r => key_eqb (at_pos i r) k) rs.

(** [df.groupby(key, as_index=False).first()]: one row per key that is not
    missing, the keys in ascending order; the key comes first, then every
    other column with the first cell of the group that is not missing. *)
Definition groupby_first (key : string) (df : DataFrame) : outcome DataFrame :=
  (i <- key_position key df ;;
   let keys := column_at i df in
   if forallb hashable keys && sortable keys
   then
     let ks := stable_sort (le_of cmp_asc) (distinct_keys (filter notna keys)) in
     let others := other_positions i (ncols df) in
     Ok (mkDF (key :: map (label_at (columns df)) others)
              (map (fun k =>
                      k :: map (fun j => first_valid (map (at_pos j) (group_of i k (rows df))))
                               others)
                   ks))
   else Raise TypeError)%outcome.

(** [df[[l1, l2, ...]]]: every column carrying one of the labels, in the
    order of the labels. *)
Definition select (labels : list string) (df : DataFrame) : outcome DataFrame :=
  match find (fun l => negb (has_column l df)) labels with
  | Some l => Raise (KeyError l)
  | None =>
      let js := flat_map (fun l => positions l (columns df)) labels in
      Ok (mkDF (map (label_at (columns df)) js)
               (map (fun r => map (fun j => at_pos j r) js) (rows df)))
  end.

(** The rows a left row gives in a left join: one per matching right row,
    in the order of the right table; its own cells and missing ones when
    nothing matches. *)
Definition joined_rows (i j : nat) (others : list nat) (right : list row) (l : row)
  : list row :=
  match filter (fun r => key_eqb (at_pos i l) (at_pos j r)) right with
  | [] => [l ++ map (fun _ => PNaN) others]
  | ms => map (fun r => l ++ map (fun j' => at_pos j' r) others) ms
  end.

(** The labels of a merged table: a label other than the key that both
    sides carry takes the suffix [_x] on the left and [_y] on the right. *)
Definition merged_columns (key : string) (lcols rcols : list string) : list string :=
  map (fun c => if negb (c =? key) && mem c rcols then (c ++ "_x")%string else c) lcols
  ++ map (fun c => if mem c lcols then (c ++ "_y")%string else c) rcols.

(** [left.merge(right, on=key, how="left")]. *)
Definition merge_left (key : string) (left right : DataFrame) : outcome DataFrame :=
  (i <- key_position key left ;;
   j <- key_position key right ;;
   if forallb hashable (column_at i left ++ column_at j right)
   then
     let others := other_positions j (ncols right) in
     Ok (mkDF (merged_columns key (columns left) (map (label_at (columns right)) others))
              (flat_map (joined_rows i j others (rows right)) (rows left)))
   else Raise TypeError)%outcome.

(** ** Cleaners and merger *)

Definition clean_countries_csv (df : DataFrame) : outcome DataFrame :=
  if empty df then Ok df
  else
    (let df2 := rename_columns (standardize_colnames (columns df)) df in
     df2 <- (if has_column "iso3" df2
             then assign_from "iso3" "iso3" upper_strip df2
             else Ok df2) ;;
     if has_column "country_name" df2
     then
       df2 <- assign_from "country_name" "country_name" strip_text df2 ;;
       assign_from "country_name" "_country_norm" normalize_country_name df2
     else Ok (setitem "_country_norm" (fun _ => PNone) df2))%outcome.

Definition clean_worldbank_df (df : DataFrame) : outcome DataFrame :=
  if empty df then Ok df
  else
    (out <- assign_from "iso3" "iso3" upper_strip df ;;
     out <- assign_from "country_name" "country_name" strip_text out ;;
     out <- assign_from "country_name" "_country_norm" normalize_country_name out ;;
     out <- sort_values "iso3" "year" out ;;
     out <- dropna ["value"] out ;;
     groupby_first "iso3" out)%outcome.

Definition merge_datasets (countries wb : DataFrame) : outcome DataFrame :=
  if has_column "iso3" countries && has_column "iso3" wb
  then (r <- select ["iso3"; "indicator"; "value"] wb ;;
        merge_left "iso3" countries r)%outcome
  else (r <- select ["_country_norm"; "indicator"; "value"] wb ;;
        merge_left "_country_norm" countries r)%outcome.

(** ** Fetcher *)

(** What the loop asks the remote API: the URL of line 41 is made of these
    five values. *)
Record request : Type := mkRequest {
  req_indicator : string;
  req_start : Z;
  req_end : Z;
  req_per_page : Z;
  req_page : Z
}.

(** What comes back: a status that [raise_for_status] refuses, a body that
    [resp.json()] cannot parse, or the parsed body. *)
Inductive response : Type :=
| BadStatus
| BadBody
| Body (data : pyval).

Definition server := request -> response.

(** [x or {}]. *)
Definition or_empty (x : pyval) : pyval :=
  if truthy x then x else PDict [].

(** The dict appended to [flat_records] at lines 54 to 60, as the row of
    its five values. *)
Definition flatten_record (r : pyval) : outcome row :=
  (country <- py_get r "country" ;;
   name <- py_get (or_empty country) "value" ;;
   iso3 <- py_get r "countryiso3code" ;;
   year <- py_get r "date" ;;
   ind <- py_get r "indicator" ;;
   ind_id <- py_get (or_empty ind) "id" ;;
   value <- py_get r "value" ;;
   Ok [name; iso3; year; ind_id; value])%outcome.

Fixpoint chars (s : string) : list pyval :=
  match s with
  | EmptyString => []
  | String c s' => PStr (String c EmptyString) :: chars s'
  end.

(** The items [list.extend] and [for] take out of a value: the items of a
    list, the keys of a dict, the characters of a text. *)
Definition iterate (v : pyval) : outcome (list pyval) :=
  match v with
  | PList l => Ok l
  | PDict d => Ok (map (fun kv => PStr (fst kv)) d)
  | PStr s => Ok (chars s)
  | _ => Raise TypeError
  end.

Fixpoint flatten_all (rs : list pyval) : outcome (list row) :=
  match rs with
  | [] => Ok []
  | r :: rs' =>
      (x <- flatten_record r ;;
       xs <- flatten_all rs' ;;
       Ok (x :: xs))%outcome
  end.

(** [page >= meta.get("pages", 1)]. *)
Definition is_last_page (page : Z) (meta : pyval) : outcome bool :=
  match meta with
  | PDict d =>
      match dict_get d "pages" with
      | None => Ok (1 <=? page)%Z
      | Some (PNum n) => Ok (n <=? page)%Z
      | Some (PBool b) => Ok ((if b then 1 else 0) <=? page)%Z
      | Some PNaN => Ok false
      | Some _ => Raise TypeError
      end
  | _ => Raise AttributeError
  end.

(** How a run of the loop ends. *)
Inductive ending (A : Type) : Type :=
| Returned (a : A)
| Raised (e : exn)
| Running.            (* the fuel is spent and the loop has not left *)
Arguments Returned {A} a.
Arguments Raised {A} e.
Arguments Running {A}.

Definition flat_columns : list string :=
  ["country_name"; "iso3"; "year"; "indicator"; "value"].

(** [pd.DataFrame(flat_records)]: no record, no column. *)
Definition DataFrame_of (flat : list row) : DataFrame :=
  match flat with
  | [] => mkDF [] []
  | _ => mkDF flat_columns flat
  end.

Section Fetcher.

(** The numerals [pd.to_numeric] reads in a text. *)
Variable parse_number : string -> option Z.

(** [pd.to_numeric(..., errors="coerce")] on one cell. *)
Definition to_numeric (v : pyval) : pyval :=
  match v with
  | PNum z => PNum z
  | PBool b => PNum (if b then 1 else 0)
  | PStr s =>
      match parse_number s with
      | Some z => PNum z
      | None => PNaN
      end
  | _ => PNaN
  end.

Variable indicator : string.
Variables start_year end_year per_page : Z.
Variable srv : server.

(** The [while True] loop of lines 40 to 64, from the state it has when
    it asks for [page].  Beside the ending, the requests issued. *)
Fixpoint fetch_pages (fuel : nat) (page : Z) (full : list pyval) (flat : list row)
  : ending (list pyval * list row) * list request :=
  match fuel with
  | O => (Running, [])
  | S fuel' =>
      let rq := mkRequest indicator start_year end_year per_page page in
      match srv rq with
      | BadStatus => (Raised HTTPError, [rq])
      | BadBody => (Raised JSONDecodeError, [rq])
      | Body (PList (meta :: records :: _)) =>
          match (items <- iterate records ;;
                 rs <- flatten_all items ;;
                 last <- is_last_page page meta ;;
                 Ok (items, rs, last))%outcome with
          | Raise e => (Raised e, [rq])
          | Ok (items, rs, true) => (Returned (full ++ items, flat ++ rs), [rq])
          | Ok (items, rs, false) =>
              let (e, log) := fetch_pages fuel' (page + 1) (full ++ items) (flat ++ rs) in
              (e, rq :: log)
          end
      | Body _ => (Returned (full, flat), [rq])
      end
  end.

(** Lines 66 to 70. *)
Definition flat_table (flat : list row) : outcome DataFrame :=
  let df := DataFrame_of flat in
  if negb (empty df)
  then (df <- assign_from "year" "year" to_numeric df ;;
        df <- assign_from "value" "value" to_numeric df ;;
        dropna ["iso3"; "country_name"] df)%outcome
  else Ok df.

Definition extract_worldbank_indicator (fuel : nat)
  : ending (list pyval * DataFrame) * list request :=
  match fetch_pages fuel 1 [] [] with
  | (Returned (full_records, flat_records), log) =>
      match flat_table flat_records with
      | Ok df => (Returned (full_records, df), log)
      | Raise e => (Raised e, log)
      end
  | (Raised e, log) => (Raised e, log)
  | (Running, log) => (Running, log)
  end.

End Fetcher.

(** ** The cleaners on shared tables

    A Python variable holds a reference to a table.  [df.copy()],
    [df.rename], [df.sort_values], [df.dropna] and [GroupBy.first] build a
    new table; [df[label] = ...] writes into the table the variable refers
    to.  The store keeps every table ever built; a reference is its rank. *)

Module Store.

Definition ref := nat.
Definition store := list DataFrame.

(** A statement: from a store, an outcome and the store it leaves (an
    exception leaves the writes done before it). *)
Definition M (A : Type) : Type := store -> outcome A * store.

Definition ret {A} (a : A) : M A := fun s => (Ok a, s).

Definition bind {A B} (m : M A) (k : A -> M B) : M B :=
  fun s =>
    match m s with
    | (Ok a, s') => k a s'
    | (Raise e, s') => (Raise e, s')
    end.

Definition lift {A} (o : outcome A) : M A := fun s => (o, s).

(** The table behind a reference. *)
Definition deref (p : ref) (s : store) : DataFrame := nth p s (mkDF [] []).

Definition read (p : ref) : M DataFrame := fun s => (Ok (deref p s), s).

Definition new (d : DataFrame) : M ref := fun s => (Ok (List.length s), s ++ [d]).

Fixpoint update (p : ref) (d : DataFrame) (s : store) : store :=
  match s, p with
  | [], _ => []
  | _ :: s', O => d :: s'
  | x :: s', S p' => x :: update p' d s'
  end.

Definition write (p : ref) (d : DataFrame) : M unit := fun s => (Ok tt, update p d s).

Declare Scope store_scope.
Delimit Scope store_scope with store.
Notation "x <- m ;; k" := (bind m (fun x => k))
  (at level 61, m at next level, right associativity) : store_scope.
Notation "m ;;; k" := (bind m (fun _ => k))
  (at level 61, right associativity) : store_scope.
Local Open Scope store_scope.

(** A method that returns a new table. *)
Definition method (f : DataFrame -> outcome DataFrame) (p : ref) : M ref :=
  d <- read p ;;
  d' <- lift (f d) ;;
  new d'.

(** [p[dst] = p[src].<chain>]: the right-hand side is computed, then the
    table behind [p] is overwritten. *)
Definition assign (p : ref) (src dst : string) (f : pyval -> pyval) : M unit :=
  d <- read p ;;
  d' <- lift (assign_from src dst f d) ;;
  write p d'.

(** [p[dst] = v] for a scalar [v]. *)
Definition assign_scalar (p : ref) (dst : string) (v : pyval) : M unit :=
  d <- read p ;;
  write p (setitem dst (fun _ => v) d).

Definition copy : ref -> M ref := method Ok.

Definition clean_countries_csv (df : ref) : M ref :=
  d <- read df ;;
  if empty d then ret df
  else
    let mapping := standardize_colnames (columns d) in
    renamed <- method (fun x => Ok (rename_columns mapping x)) df ;;
    df2 <- copy renamed ;;
    d2 <- read df2 ;;
    (if has_column "iso3" d2
     then assign df2 "iso3" "iso3" upper_strip
     else ret tt) ;;;
    d2 <- read df2 ;;
    (if has_column "country_name" d2
     then assign df2 "country_name" "country_name" strip_text ;;;
          assign df2 "country_name" "_country_norm" normalize_country_name
     else assign_scalar df2 "_country_norm" PNone) ;;;
    ret df2.

Definition clean_worldbank_df (df : ref) : M ref :=
  d <- read df ;;
  if empty d then ret df
  else
    out <- copy df ;;
    assign out "iso3" "iso3" upper_strip ;;;
    assign out "country_name" "country_name" strip_text ;;;
    assign out "country_name" "_country_norm" normalize_country_name ;;;
    out <- method (sort_values "iso3" "year") out ;;
    out <- method (dropna ["value"]) out ;;
    out_latest <- method (groupby_first "iso3") out ;;
    ret out_latest.

End Store.

(** ** Analysis *)

(** [df.head(n)]: the first [n] rows; with a negative [n], all rows but
    the last [-n]. *)
Definition head (n : Z) (df : DataFrame) : DataFrame :=
  mkDF (columns df)
       (if (0 <=? n)%Z then firstn (Z.to_nat n) (rows df)
        else firstn (nrows df - Z.to_nat (- n)) (rows df)).

Section Analysis.

(** With one key, [sort_values] sorts with numpy's [quicksort], which
    promises an ordered result and nothing on the order of equal values:
    the sort is left open here, and the statements ask of it what numpy
    promises. *)
Variable quicksort : (row -> row -> bool) -> list row -> list row.

(** [df.sort_values(key, ascending=False)]: missing cells last.  The cells
    of the key are scalars; a column of lists, which Python would compare
    item by item, is refused as a column of dicts is. *)
Definition sort_values_desc (key : string) (df : DataFrame) : outcome DataFrame :=
  (i <- key_position key df ;;
   if sortable (column_at i df)
   then Ok (mkDF (columns df)
                 (quicksort (le_of (fun a b => cmp_desc (at_pos i a) (at_pos i b)))
                            (rows df)))
   else Raise TypeError)%outcome.

(** The defaults are [value_col="value"] and [top_n=10]. *)
Definition simple_analysis (df : DataFrame) (value_col : string) (top_n : Z)
  : outcome DataFrame :=
  let cols := filter (fun c => has_column c df) ["country_name"; "iso3"; value_col] in
  (sel <- select cols df ;;
   kept <- dropna [value_col] sel ;;
   sorted <- sort_values_desc value_col kept ;;
   Ok (head top_n sorted))%outcome.

End Analysis.

(** ** The script *)

(** [os.path.dirname] on POSIX. *)
Module Path.

(** [p[:p.rfind("/") + 1]]: the path up to its last slash, the slash
    included; nothing when there is no slash. *)
Fixpoint upto_last_slash (p : string) : string :=
  match p with
  | EmptyString => EmptyString
  | String c p' =>
      match upto_last_slash p' with
      | EmptyString => if (c =? "/")%char then String c EmptyString else EmptyString
      | t => String c t
      end
  end.

Fixpoint all_slashes (s : string) : bool :=
  match s with
  | EmptyString => true
  | String c s' => (c =? "/")%char && all_slashes s'
  end.

(** [s.rstrip("/")]. *)
Fixpoint rstrip_slashes (s : string) : string :=
  match s with
  | EmptyString => EmptyString
  | String c s' =>
      match rstrip_slashes s' with
      | EmptyString => if (c =? "/")%char then EmptyString else String c EmptyString
      | t => String c t
      end
  end.

Definition dirname (p : string) : string :=
  let head := upto_last_slash p in
  if negb (head =? "") && negb (all_slashes head)
  then rstrip_slashes head
  else head.

End Path.

(** What a run does to the outside, in the order it does it.  The file
    system takes every write; a written file is kept as the object given
    to [json.dump] or [to_csv]. *)
Inductive effect : Type :=
| Get (rq : request)
| MakeDirs (d : string)                         (* os.makedirs(d, exist_ok=True) *)
| WriteJson (path : string) (obj : list pyval)
| WriteCsv (path : string) (df : DataFrame)
| Print (d : pyval).

Definition ensure_dir (path : string) : list effect :=
  let d := Path.dirname path in
  if d =? "" then [] else [MakeDirs d].

Definition store_json (obj : list pyval) (path : string) : list effect :=
  ensure_dir path ++ [WriteJson path obj].

Definition store_csv (df : DataFrame) (path : string) : list effect :=
  ensure_dir path ++ [WriteCsv path df].

(** Lines 156 to 179, from the table [extract_csv(csv_path)] has read. *)
Module Script.

Definition csv_path : string := "all_countries.csv".
Definition indicator : string := "SP.POP.TOTL".
Definition start_year : Z := 2015.
Definition end_year : Z := 2024.
Definition per_page : Z := 20000.

Definition raw_json_path : string :=
  "data/raw/worldbank_" ++ indicator ++ "_" ++ PyStr.str_of_Z start_year
  ++ "_" ++ PyStr.str_of_Z end_year ++ ".json".

Definition out_csv : string :=
  "data/processed/merged_countries_" ++ indicator ++ ".csv".

(** The dict printed at the end. *)
Definition summary (merged : DataFrame) : pyval :=
  PDict [ ("raw_json", PStr raw_json_path);
          ("merged_csv", PStr out_csv);
          ("rows_merged", PNum (Z.of_nat (nrows merged)));
          ("cols_merged", PNum (Z.of_nat (ncols merged))) ].

(** Lines 168 to 170. *)
Definition transform (countries_df wb_df : DataFrame) : outcome DataFrame :=
  (countries_clean <- clean_countries_csv countries_df ;;
   wb_clean <- clean_worldbank_df wb_df ;;
   merge_datasets countries_clean wb_clean)%outcome.

Section Run.

Variable parse_number : string -> option Z.
Variable srv : server.

Definition main (fuel : nat) (countries_df : DataFrame) : ending unit * list effect :=
  match extract_worldbank_indicator parse_number indicator start_year end_year per_page
          srv fuel with
  | (Returned (raw_json, wb_df), log) =>
      let done := map Get log ++ store_json raw_json raw_json_path in
      match transform countries_df wb_df with
      | Ok merged =>
          (Returned tt, done ++ store_csv merged out_csv ++ [Print (summary merged)])
      | Raise e => (Raised e, done)
      end
  | (Raised e, log) => (Raised e, map Get log)
  | (Running, log) => (Running, map Get log)
  end.

End Run.

End Script.

(** ** Vocabulary of the statements *)

(** The synonyms [standardize_colnames] accepts for a canonical name. *)
Definition synonyms_of (canonical : string) : list string :=
  if canonical =? "country_name" then country_synonyms
  else if canonical =? "region" then region_synonyms
  else if canonical =? "iso3" then iso3_synonyms
  else if canonical =? "subregion" then subregion_synonyms
  else [].

(** Every character of a text is whitespace. *)
Fixpoint blank (s : string) : bool :=
  match s with
  | EmptyString => true
  | String c s' => Text.is_space c && blank s'
  end.

(** A response body with the two top-level elements the loop reads. *)
Definition two_elements (data : pyval) : bool :=
  match data with
  | PList (_ :: _ :: _) => true
  | _ => false
  end.

(** A flattened record that [dropna(subset=["iso3", "country_name"])]
    keeps. *)
Definition present (r : row) : bool :=
  notna (cell flat_columns r "iso3") && notna (cell flat_columns r "country_name").

(** A flattened record after the two calls of [pd.to_numeric]. *)
Definition coerce_row (parse_number : string -> option Z) (r : row) : row :=
  match r with
  | [name; iso3; year; ind; value] =>
      [name; iso3; to_numeric parse_number year; ind; to_numeric parse_number value]
  | _ => r
  end.

Definition numeric_or_missing (v : pyval) : bool :=
  match v with
  | PNum _ | PNaN => true
  | _ => false
  end.

(** A parser for the examples: the value of a non-empty run of digits. *)
Fixpoint digits_value (acc : Z) (s : string) : option Z :=
  match s with
  | EmptyString => Some acc
  | String c s' =>
      if Text.is_digit c
      then digits_value (10 * acc + Z.of_nat (Text.code c - 48)) s'
      else None
  end.

Definition parse_digits (s : string) : option Z :=
  match s with
  | EmptyString => None
  | _ => digits_value 0 s
  end.

(** Example payloads. *)
Definition record_of (name iso3 date : string) (value : pyval) : pyval :=
  PDict [ ("indicator", PDict [("id", PStr "SP.POP.TOTL"); ("value", PStr "Population, total")]);
          ("country", PDict [("id", PStr (Text.lower iso3)); ("value", PStr name)]);
          ("countryiso3code", PStr iso3);
          ("date", PStr date);
          ("value", value) ].

Definition page_of (pages : Z) (records : list pyval) : response :=
  Body (PList [PDict [("pages", PNum pages)]; PList records]).

(** Two regular pages, then a body with one element only. *)
Definition truncated_server (rq : request) : response :=
  if (req_page rq =? 1)%Z
  then page_of 3 [record_of "Laos" "LAO" "2020" (PNum 7); record_of "Chad" "TCD" "n/a" PNone]
  else if (req_page rq =? 2)%Z
  then page_of 3 [record_of "Peru" "PER" "2019" (PStr "unknown"); PDict [("date", PStr "2019")]]
  else Body (PList [PDict [("message", PStr "no data")]]).

Definition empty_metadata_server (rq : request) : response :=
  Body (PList [PDict []; PList []]).

Definition population_request (page : Z) : request :=
  mkRequest "SP.POP.TOTL" 2015 2024 20000 page.

(** One record without code and name: the fetched table keeps its five
    columns and loses its only row. *)
Definition nameless_server (rq : request) : response :=
  Body (PList [PDict [("pages", PNum 1)]; PList [PDict [("date", PStr "2020")]]]).

Definition laos_reference : DataFrame :=
  mkDF ["country_name"; "iso3"; "_country_norm"]
       [[PStr "Laos"; PStr "LAO"; PStr "lao pdr"]].

(** Two observations of one country; the more recent one has no
    indicator code. *)
Definition two_years_table : DataFrame :=
  mkDF flat_columns
       [ [PStr "Lao PDR"; PStr "LAO"; PNum 2020; PNone; PNum 7];
         [PStr "Lao PDR"; PStr "LAO"; PNum 2019; PStr "SP.POP.TOTL"; PNum 6] ].

(** Two codes whose names normalize to one key. *)
Definition two_codes_table : DataFrame :=
  mkDF flat_columns
       [ [PStr "United States"; PStr "USA"; PNum 2020; PStr "SP.POP.TOTL"; PNum 331];
         [PStr "USA"; PStr "XUS"; PNum 2020; PStr "SP.POP.TOTL"; PNum 1] ].

(** A reference file with names only. *)
Definition names_only_reference : DataFrame :=
  mkDF ["Name"; "Region"] [ [PStr "USA"; PStr "Americas"]; [PStr "Laos"; PStr "Asia"] ].

Definition example_store : Store.store := [names_only_reference; two_years_table].

(** A comparison that is a total preorder. *)
Record total_preorder {A : Type} (cmp : A -> A -> comparison) : Prop := {
  tp_antisym : forall a b, cmp b a = CompOpp (cmp a b);
  tp_trans : forall a b c, cmp a b <> Gt -> cmp b c <> Gt -> cmp a c <> Gt
}.

Definition lex_cmp {A} (c1 c2 : A -> A -> comparison) : A -> A -> comparison :=
  fun x y => lex (c1 x y) (c2 x y).

Definition on {A B} (f : A -> B) (c : B -> B -> comparison) : A -> A -> comparison :=
  fun x y => c (f x) (f y).

Definition flip_cmp {A} (c : A -> A -> comparison) : A -> A -> comparison :=
  fun x y => c y x.

(** No two keys of a list are the same key. *)
Definition unique_keys (ks : list pyval) : Prop :=
  forall x, List.length (filter (key_eqb x) ks) <= 1.

(** Every row has one cell per column. *)
Definition rectangular (df : DataFrame) : Prop :=
  Forall (fun r => List.length r = ncols df) (rows df).

(** What [df[label] = ...] does to one row. *)
Definition setitem_row (cols : list string) (label : string) (f : row -> pyval) (r : row)
  : row :=
  if mem label cols then replace_label cols label (f r) r else r ++ [f r].

(** The cleaned tables of the examples. *)
Definition cleaned_names_only : DataFrame :=
  mkDF ["country_name"; "region"; "_country_norm"]
       [ [PStr "USA"; PStr "Americas"; PStr "united states of america"];
         [PStr "Laos"; PStr "Asia"; PStr "lao pdr"] ].

Definition cleaned_two_years : DataFrame :=
  mkDF ["iso3"; "country_name"; "year"; "indicator"; "value"; "_country_norm"]
       [ [PStr "LAO"; PStr "Lao PDR"; PNum 2020; PStr "SP.POP.TOTL"; PNum 7; PStr "lao pdr"] ].

Definition cleaned_two_codes : DataFrame :=
  mkDF ["iso3"; "country_name"; "year"; "indicator"; "value"; "_country_norm"]
       [ [PStr "USA"; PStr "United States"; PNum 2020; PStr "SP.POP.TOTL"; PNum 331;
          PStr "united states of america"];
         [PStr "XUS"; PStr "USA"; PNum 2020; PStr "SP.POP.TOTL"; PNum 1;
          PStr "united states of america"] ].

(** Lines 134 to 136 of [clean_worldbank_df]: the table as it is before
    it is sorted, one row per input row, in the order of the input. *)
Definition cleaned_cells (df : DataFrame) : outcome DataFrame :=
  (out <- assign_from "iso3" "iso3" upper_strip df ;;
   out <- assign_from "country_name" "country_name" strip_text out ;;
   assign_from "country_name" "_country_norm" normalize_country_name out)%outcome.

Definition cells_of_two_years : DataFrame :=
  mkDF ["country_name"; "iso3"; "year"; "indicator"; "value"; "_country_norm"]
       [ [PStr "Lao PDR"; PStr "LAO"; PNum 2020; PNone; PNum 7; PStr "lao pdr"];
         [PStr "Lao PDR"; PStr "LAO"; PNum 2019; PStr "SP.POP.TOTL"; PNum 6; PStr "lao pdr"] ].

(** Every character of a text passes a test. *)
Fixpoint sforall (p : ascii -> bool) (s : string) : bool :=
  match s with
  | EmptyString => true
  | String c s' => p c && sforall p s'
  end.

(** The only whitespace of a text is the space character, never twice in
    a row; [in_run] tells that the text follows a whitespace character. *)
Fixpoint single_spaced (in_run : bool) (s : string) : bool :=
  match s with
  | EmptyString => true
  | String c s' =>
      if Text.is_space c
      then negb in_run && (c =? " ")%char && single_spaced true s'
      else single_spaced false s'
  end.

(** The canonical names, in the order the loop of [standardize_colnames]
    tries them. *)
Definition canonical_names : list string :=
  ["country_name"; "region"; "iso3"; "subregion"].

(** The canonical name a header stands for: the one whose synonyms hold
    the header once trimmed and lowercased. *)
Definition canonical_of (c : string) : option string :=
  find (fun v => mem (Text.lower (Text.strip c)) (synonyms_of v)) canonical_names.

(** What the loop keeps true of its mapping, the headers seen so far
    being [seen]. *)
Record mapping_of (seen : list string) (m : mapping) : Prop := {
  mo_keys : NoDup (map fst m);
  mo_values : NoDup (values m);
  mo_sound : forall k v, In (k, v) m -> In k seen /\ canonical_of k = Some v;
  mo_complete : forall k v, In k seen -> canonical_of k = Some v -> In v (values m)
}.

(** The page numbers [first], [first + 1], ..., [count] of them. *)
Definition pages_from (first : Z) (count : nat) : list Z :=
  map (fun n => (first + Z.of_nat n)%Z) (seq 0 count).

(** [x or {}] has the method [get]: [x] is a dict, or counts as false. *)
Definition nested_ok (x : pyval) : bool :=
  match x with
  | PDict _ => true
  | _ => negb (truthy x)
  end.

(** A record [flatten_record] takes: a dict whose [country] and
    [indicator], when it has them, are dicts or count as false. *)
Definition record_ok (r : pyval) : bool :=
  match r with
  | PDict d =>
      nested_ok (match dict_get d "country" with Some v => v | None => PNone end)
      && nested_ok (match dict_get d "indicator" with Some v => v | None => PNone end)
  | _ => false
  end.

(** The value under a key of a JSON value, [None] when there is none. *)
Definition field (r : pyval) (key : string) : pyval :=
  match r with
  | PDict d => match dict_get d key with Some v => v | None => PNone end
  | _ => PNone
  end.

(** A server with the given pages, each announcing their number. *)
Definition paged_server (pages : list (list pyval)) (rq : request) : response :=
  page_of (Z.of_nat (List.length pages))
          (nth (Z.to_nat (req_page rq - 1)) pages []).

(** The five values [flatten_record] reads in a record. *)
Definition flat_fields (r : pyval) : row :=
  [ field (field r "country") "value"; field r "countryiso3code"; field r "date";
    field (field r "indicator") "id"; field r "value" ].

(** Three records on two pages. *)
Definition two_pages : list (list pyval) :=
  [ [record_of "Laos" "LAO" "2020" (PNum 7); record_of "Chad" "TCD" "2020" PNone];
    [record_of "Peru" "PER" "2019" (PNum 33)] ].

(** A merged table for the examples: three countries, one without value. *)
Definition merged_example : DataFrame :=
  mkDF ["country_name"; "region"; "iso3"; "_country_norm"; "indicator"; "value"]
       [ [PStr "Chad"; PStr "Africa"; PStr "TCD"; PStr "chad"; PStr "SP.POP.TOTL"; PNum 16];
         [PStr "Laos"; PStr "Asia"; PStr "LAO"; PStr "lao pdr"; PNaN; PNaN];
         [PStr "Peru"; PStr "Americas"; PStr "PER"; PStr "peru"; PStr "SP.POP.TOTL"; PNum 33] ].

(** A row of the fetched table after lines 134 to 136 of
    [clean_worldbank_df]. *)
Definition clean_flat_row (r : row) : row :=
  match r with
  | [name; iso3; year; ind; value] =>
      [ strip_text name; upper_strip iso3; year; ind; value;
        normalize_country_name (strip_text name) ]
  | _ => r
  end.

(** The columns of a cleaned indicator table. *)
Definition cleaned_columns : list string :=
  ["iso3"; "country_name"; "year"; "indicator"; "value"; "_country_norm"].

(** * Properties *)

(** ** Text *)

Lemma is_space_lower_char (c : ascii) :
  Text.is_space (Text.lower_char c) = Text.is_space c.
Proof.
  destruct c as [[] [] [] [] [] [] [] []]; reflexivity.
Qed.

Lemma lower_char_idem (c : ascii) :
  Text.lower_char (Text.lower_char c) = Text.lower_char c.
Proof.
  destruct c as [[] [] [] [] [] [] [] []]; reflexivity.
Qed.

Lemma lower_idem (s : string) : Text.lower (Text.lower s) = Text.lower s.
Proof.
  unfold Text.lower.
  induction s as [|c s IH]; cbn [Text.smap]; [reflexivity|].
  now rewrite lower_char_idem, IH.
Qed.

Lemma lower_lstrip (s : string) :
  Text.lower (Text.lstrip s) = Text.lstrip (Text.lower s).
Proof.
  unfold Text.lower.
  induction s as [|c s IH]; cbn [Text.smap Text.lstrip]; [reflexivity|].
  rewrite is_space_lower_char. destruct (Text.is_space c); [exact IH|reflexivity].
Qed.

Lemma lower_rstrip (s : string) :
  Text.lower (Text.rstrip s) = Text.rstrip (Text.lower s).
Proof.
  unfold Text.lower.
  induction s as [|c s IH]; cbn [Text.smap Text.rstrip]; [reflexivity|].
  rewrite <- IH, is_space_lower_char.
  destruct (Text.rstrip s); cbn [Text.smap];
    [destruct (Text.is_space c)|]; reflexivity.
Qed.

(** [lower] and [strip] commute. *)
Lemma lower_strip (s : string) :
  Text.lower (Text.strip s) = Text.strip (Text.lower s).
Proof.
  unfold Text.strip. now rewrite lower_rstrip, lower_lstrip.
Qed.

Lemma lstrip_blank (p : string) : blank p = true -> Text.lstrip p = EmptyString.
Proof.
  induction p as [|c p IH]; simpl; [reflexivity|].
  destruct (Text.is_space c); simpl; [exact IH|discriminate].
Qed.

Lemma rstrip_blank (p : string) : blank p = true -> Text.rstrip p = EmptyString.
Proof.
  induction p as [|c p IH]; simpl; [reflexivity|].
  destruct (Text.is_space c); simpl; [|discriminate].
  intros H. now rewrite (IH H).
Qed.

Lemma lstrip_app_blank (p s : string) :
  blank p = true -> Text.lstrip (p ++ s) = Text.lstrip s.
Proof.
  induction p as [|c p IH]; simpl; [reflexivity|].
  destruct (Text.is_space c); simpl; [exact IH|discriminate].
Qed.

Lemma rstrip_app_blank (s p : string) :
  blank p = true -> Text.rstrip (s ++ p) = Text.rstrip s.
Proof.
  intros Hp. induction s as [|c s IH]; simpl.
  - now apply rstrip_blank.
  - now rewrite IH.
Qed.

Lemma strip_app_blank (s p : string) :
  blank p = true -> Text.strip (s ++ p) = Text.strip s.
Proof.
  intros Hp. unfold Text.strip. induction s as [|c s IH]; simpl.
  - now rewrite (lstrip_blank p Hp).
  - destruct (Text.is_space c); [exact IH|].
    change (String c (s ++ p)) with (String c s ++ p)%string.
    now apply rstrip_app_blank.
Qed.

(** Whitespace around a text does not survive [strip]. *)
Lemma strip_padding (pre s post : string) :
  blank pre = true -> blank post = true ->
  Text.strip (pre ++ s ++ post) = Text.strip s.
Proof.
  intros Hpre Hpost. unfold Text.strip.
  rewrite (lstrip_app_blank pre _ Hpre).
  exact (strip_app_blank s post Hpost).
Qed.

(** ** Orders *)

Section Orders.

Context {A : Type}.

Lemma tp_refl (cmp : A -> A -> comparison) (a : A) :
  total_preorder cmp -> cmp a a = Eq.
Proof.
  intros H. pose proof (tp_antisym cmp H a a) as E.
  destruct (cmp a a); [reflexivity|discriminate E|discriminate E].
Qed.

Lemma tp_eq_l (cmp : A -> A -> comparison) (a b c : A) :
  total_preorder cmp -> cmp a b = Eq -> cmp a c = cmp b c.
Proof.
  intros H Hab.
  assert (Hba : cmp b a = Eq) by (rewrite (tp_antisym cmp H a b), Hab; reflexivity).
  pose proof (tp_antisym cmp H a c) as Hca.
  pose proof (tp_antisym cmp H b c) as Hcb.
  pose proof (tp_trans cmp H a b c) as T1.
  pose proof (tp_trans cmp H b a c) as T2.
  pose proof (tp_trans cmp H c a b) as T3.
  pose proof (tp_trans cmp H c b a) as T4.
  rewrite Hab in T1, T3. rewrite Hba in T2, T4. rewrite Hca in T3. rewrite Hcb in T4.
  destruct (cmp a c), (cmp b c); cbn in *; try reflexivity; exfalso;
    first [ apply T1; congruence | apply T2; congruence
          | apply T3; congruence | apply T4; congruence ].
Qed.

Lemma tp_eq_r (cmp : A -> A -> comparison) (a b c : A) :
  total_preorder cmp -> cmp b c = Eq -> cmp a b = cmp a c.
Proof.
  intros H Hbc.
  apply CompOpp_inj. rewrite <- !(tp_antisym cmp H).
  now apply tp_eq_l.
Qed.

Lemma tp_lt_trans (cmp : A -> A -> comparison) (a b c : A) :
  total_preorder cmp -> cmp a b = Lt -> cmp b c = Lt -> cmp a c = Lt.
Proof.
  intros H Hab Hbc.
  destruct (cmp a c) eqn:Hac; [|reflexivity|].
  - rewrite (tp_eq_l cmp a c b H Hac) in Hab.
    rewrite (tp_antisym cmp H c b), Hab in Hbc. discriminate Hbc.
  - exfalso. apply (tp_trans cmp H a b c); congruence.
Qed.

Lemma tp_lex (c1 c2 : A -> A -> comparison) :
  total_preorder c1 -> total_preorder c2 -> total_preorder (lex_cmp c1 c2).
Proof.
  intros H1 H2. split; unfold lex_cmp, lex.
  - intros a b. rewrite (tp_antisym c1 H1 a b), (tp_antisym c2 H2 a b).
    destruct (c1 a b); reflexivity.
  - intros a b c.
    destruct (c1 a b) eqn:Hab, (c1 b c) eqn:Hbc; try congruence.
    + rewrite (tp_eq_l c1 a b c H1 Hab), Hbc. apply (tp_trans c2 H2).
    + rewrite (tp_eq_l c1 a b c H1 Hab), Hbc. congruence.
    + rewrite <- (tp_eq_r c1 a b c H1 Hbc), Hab. congruence.
    + rewrite (tp_lt_trans c1 a b c H1 Hab Hbc). congruence.
Qed.

Lemma tp_flip (c : A -> A -> comparison) :
  total_preorder c -> total_preorder (flip_cmp c).
Proof.
  intros H. split; unfold flip_cmp.
  - intros a b. apply (tp_antisym c H).
  - intros a b d Hab Hbd. apply (tp_trans c H d b a); assumption.
Qed.

Lemma tp_ext (c c' : A -> A -> comparison) :
  (forall a b, c a b = c' a b) -> total_preorder c' -> total_preorder c.
Proof.
  intros E H. split.
  - intros a b. rewrite !E. apply (tp_antisym c' H).
  - intros a b d. rewrite !E. apply (tp_trans c' H).
Qed.

Lemma tp_on {B : Type} (f : A -> B) (c : B -> B -> comparison) :
  total_preorder c -> total_preorder (on f c).
Proof.
  intros H. split; unfold on.
  - intros a b. apply (tp_antisym c H).
  - intros a b d. apply (tp_trans c H).
Qed.

End Orders.

Lemma tp_nat : total_preorder Nat.compare.
Proof.
  split.
  - intros a b. apply Nat.compare_antisym.
  - intros a b c. rewrite !Nat.compare_le_iff. lia.
Qed.

Lemma tp_Z : total_preorder Z.compare.
Proof.
  split.
  - intros a b. apply Z.compare_antisym.
  - intros a b c. rewrite !Z.compare_le_iff. lia.
Qed.

Lemma tp_string : total_preorder String.compare.
Proof.
  split.
  - intros a b. apply String.compare_antisym.
  - intros a b c Hab Hbc.
    destruct (String.compare a b) eqn:E1; [| |congruence].
    + apply String_as_OT.cmp_eq in E1. now subst.
    + destruct (String.compare b c) eqn:E2; [| |congruence].
      * apply String_as_OT.cmp_eq in E2. subst. congruence.
      * apply String_as_OT.cmp_lt in E1, E2.
        pose proof (String_as_OT.lt_trans _ _ _ E1 E2) as E3.
        apply String_as_OT.cmp_lt in E3. unfold String_as_OT.cmp in E3. congruence.
Qed.

Lemma cmp_asc_lex (a b : pyval) :
  cmp_asc a b
  = lex_cmp (on klass Nat.compare)
      (lex_cmp (on num_of Z.compare) (on text_of String.compare)) a b.
Proof.
  unfold cmp_asc, cmp_within, lex_cmp, on.
  destruct a as [| |[]| | | |], b as [| |[]| | | |];
    cbn [klass num_of text_of Nat.compare lex String.compare]; try reflexivity;
    repeat match goal with
    | |- context [Z.compare ?x ?y] => destruct (Z.compare x y)
    | |- context [String.compare ?x ?y] => destruct (String.compare x y)
    end; reflexivity.
Qed.

Lemma cmp_desc_lex (a b : pyval) :
  cmp_desc a b
  = lex_cmp (on klass Nat.compare)
      (lex_cmp (flip_cmp (on num_of Z.compare))
               (flip_cmp (on text_of String.compare))) a b.
Proof.
  unfold cmp_desc, cmp_within, lex_cmp, flip_cmp, on.
  destruct a as [| |[]| | | |], b as [| |[]| | | |];
    cbn [klass num_of text_of Nat.compare lex String.compare]; try reflexivity;
    repeat match goal with
    | |- context [Z.compare ?x ?y] => destruct (Z.compare x y)
    | |- context [String.compare ?x ?y] => destruct (String.compare x y)
    end; reflexivity.
Qed.

Lemma tp_cmp_asc : total_preorder cmp_asc.
Proof.
  apply (tp_ext _ _ cmp_asc_lex).
  apply tp_lex; [apply tp_on, tp_nat|].
  apply tp_lex; apply tp_on; [apply tp_Z|apply tp_string].
Qed.

Lemma tp_cmp_desc : total_preorder cmp_desc.
Proof.
  apply (tp_ext _ _ cmp_desc_lex).
  apply tp_lex; [apply tp_on, tp_nat|].
  apply tp_lex; apply tp_flip, tp_on; [apply tp_Z|apply tp_string].
Qed.

Lemma tp_row_cmp (i j : nat) : total_preorder (row_cmp i j).
Proof.
  change (row_cmp i j) with (lex_cmp (on (at_pos i) cmp_asc) (on (at_pos j) cmp_desc)).
  apply tp_lex; apply tp_on; [apply tp_cmp_asc|apply tp_cmp_desc].
Qed.

(** Being the same key is an equivalence. *)
Lemma key_eqb_refl (a : pyval) : key_eqb a a = true.
Proof.
  unfold key_eqb. now rewrite (tp_refl cmp_asc a tp_cmp_asc).
Qed.

Lemma key_eqb_eq (a b : pyval) : key_eqb a b = true <-> cmp_asc a b = Eq.
Proof.
  unfold key_eqb. destruct (cmp_asc a b); split; congruence.
Qed.

Lemma key_eqb_sym (a b : pyval) : key_eqb a b = key_eqb b a.
Proof.
  unfold key_eqb. rewrite (tp_antisym cmp_asc tp_cmp_asc a b).
  destruct (cmp_asc a b); reflexivity.
Qed.

Lemma key_eqb_trans (a b c : pyval) :
  key_eqb a b = true -> key_eqb b c = true -> key_eqb a c = true.
Proof.
  rewrite !key_eqb_eq. intros Hab Hbc.
  now rewrite (tp_eq_l cmp_asc a b c tp_cmp_asc Hab).
Qed.

(** Text keys are the same key when they are the same text. *)
Lemma key_eqb_text (s t : string) : key_eqb (PStr s) (PStr t) = (s =? t).
Proof.
  unfold key_eqb, cmp_asc, cmp_within. cbn.
  destruct (String.eqb_spec s t) as [->|Hne].
  - now rewrite (tp_refl String.compare t tp_string).
  - destruct (String.compare s t) eqn:E; try reflexivity.
    apply String_as_OT.cmp_eq in E. contradiction.
Qed.

(** ** Sorting *)

Section Sorting.

Context {A : Type}.
Variable cmp : A -> A -> comparison.
Hypothesis cmp_tp : total_preorder cmp.

Lemma insert_sorted_perm (le : A -> A -> bool) (x : A) (l : list A) :
  Permutation (insert_sorted le x l) (x :: l).
Proof.
  induction l as [|y l IH]; cbn; [reflexivity|].
  destruct (le x y); [reflexivity|].
  rewrite IH. apply perm_swap.
Qed.

Lemma stable_sort_perm (le : A -> A -> bool) (l : list A) :
  Permutation (stable_sort le l) l.
Proof.
  induction l as [|x l IH]; cbn; [reflexivity|].
  rewrite insert_sorted_perm. now constructor.
Qed.

Lemma insert_sorted_sorted (x : A) (l : list A) :
  StronglySorted (fun a b => le_of cmp a b = true) l ->
  StronglySorted (fun a b => le_of cmp a b = true) (insert_sorted (le_of cmp) x l).
Proof using cmp_tp.
  induction 1 as [|y l Hl IH Hy]; cbn.
  - constructor; constructor.
  - destruct (le_of cmp x y) eqn:Hxy.
    + constructor; [now constructor|]. constructor; [exact Hxy|].
      rewrite Forall_forall in *. intros z Hz. specialize (Hy z Hz).
      unfold le_of in *.
      pose proof (tp_trans cmp cmp_tp x y z) as T.
      destruct (cmp x y), (cmp y z), (cmp x z); try reflexivity; try discriminate;
        exfalso; apply T; congruence.
    + constructor; [exact IH|].
      rewrite Forall_forall in *. intros z Hz.
      apply (Permutation_in _ (insert_sorted_perm (le_of cmp) x l)) in Hz.
      destruct Hz as [<-|Hz]; [|now apply Hy].
      unfold le_of in *. rewrite (tp_antisym cmp cmp_tp x y).
      destruct (cmp x y); try discriminate; reflexivity.
Qed.

Lemma stable_sort_sorted (l : list A) :
  StronglySorted (fun a b => le_of cmp a b = true) (stable_sort (le_of cmp) l).
Proof using cmp_tp.
  induction l as [|x l IH]; cbn; [constructor|].
  now apply insert_sorted_sorted.
Qed.

(** In a sorted list, the first element that passes a test comes before
    every other one that passes it. *)
Lemma sorted_filter_head (p : A -> bool) (l : list A) (h : A) (t : list A) :
  StronglySorted (fun a b => le_of cmp a b = true) l ->
  filter p l = h :: t ->
  forall x, In x (h :: t) -> le_of cmp h x = true.
Proof using cmp_tp.
  induction 1 as [|y l Hl IH Hy]; cbn; [discriminate|].
  destruct (p y) eqn:Hp.
  - intros E; injection E as Ey Et; subst. intros x [<-|Hx].
    + unfold le_of. now rewrite (tp_refl cmp h cmp_tp).
    + rewrite Forall_forall in Hy. apply Hy.
      now apply filter_In in Hx.
  - exact IH.
Qed.

End Sorting.

Lemma filter_perm {A} (p : A -> bool) (l l' : list A) :
  Permutation l l' -> Permutation (filter p l) (filter p l').
Proof.
  induction 1 as [|x l l' _ IH|x y l|l l' l'' _ IH1 _ IH2]; cbn.
  - constructor.
  - destruct (p x); [now constructor|exact IH].
  - destruct (p x), (p y); try reflexivity. apply perm_swap.
  - now transitivity (filter p l').
Qed.

(** ** Keys *)

Lemma filter_length_le {A} (p : A -> bool) (l : list A) :
  List.length (filter p l) <= List.length l.
Proof.
  induction l as [|x l IH]; cbn; [lia|]. destruct (p x); cbn; lia.
Qed.

Lemma distinct_keys_unique (l : list pyval) : unique_keys (distinct_keys l).
Proof.
  unfold unique_keys. induction l as [|k l IH]; intros x; cbn; [lia|].
  destruct (key_eqb x k) eqn:Hxk; cbn.
  - assert (E : filter (key_eqb x)
                  (filter (fun k' => negb (key_eqb k k')) (distinct_keys l)) = []).
    { destruct (filter (key_eqb x) _) as [|y t] eqn:Ef; [reflexivity|exfalso].
      assert (Hy : In y (y :: t)) by now left.
      rewrite <- Ef in Hy. apply filter_In in Hy. destruct Hy as [Hy Hxy].
      apply filter_In in Hy. destruct Hy as [_ Hky].
      rewrite key_eqb_sym in Hxk.
      rewrite (key_eqb_trans k x y Hxk Hxy) in Hky. discriminate Hky. }
    rewrite E. cbn. lia.
  - etransitivity; [|apply (IH x)].
    clear. induction (distinct_keys l) as [|y t IHt]; cbn; [lia|].
    destruct (key_eqb k y); cbn; destruct (key_eqb x y); cbn; lia.
Qed.

Lemma unique_keys_perm (l l' : list pyval) :
  Permutation l l' -> unique_keys l -> unique_keys l'.
Proof.
  intros P H x. rewrite <- (Permutation_length (filter_perm (key_eqb x) l l' P)).
  apply H.
Qed.

(** ** Column names *)

Lemma in_dict_set (m : mapping) (c v k w : string) :
  In (k, w) (dict_set m c v) -> (k = c /\ w = v) \/ In (k, w) m.
Proof.
  induction m as [|[k0 w0] m IH]; simpl.
  - intros [H|[]]. inversion H; auto.
  - destruct (String.eqb_spec k0 c) as [->|Hne]; simpl.
    + intros [H|H]; [inversion H; subst; auto | auto].
    + intros [H|H]; [auto | destruct (IH H); auto].
Qed.

Lemma assoc_in (m : list (string * string)) (k v : string) :
  assoc m k = Some v -> In (k, v) m.
Proof.
  induction m as [|[k0 v0] m IH]; simpl; [discriminate|].
  destruct (String.eqb_spec k0 k) as [->|_].
  - intros H; inversion H; auto.
  - auto.
Qed.

Lemma standardize_step_sound (m : mapping) (c : string) :
  (forall k v, In (k, v) m ->
     mem (Text.lower (Text.strip k)) (synonyms_of v) = true) ->
  forall k v, In (k, v) (standardize_step m c) ->
     mem (Text.lower (Text.strip k)) (synonyms_of v) = true.
Proof.
  intros Hm k v. unfold standardize_step.
  repeat match goal with
  | |- context [if ?b && negb ?t then _ else _] =>
      destruct b eqn:?; simpl andb; [destruct t; simpl negb|]
  end; auto;
  intros H; apply in_dict_set in H; destruct H as [[-> ->]|H]; auto.
Qed.

(** A header is only ever renamed to a canonical name that lists its
    trimmed, lowercased form among its synonyms. *)
Lemma standardize_colnames_sound (cols : list string) (k v : string) :
  In (k, v) (standardize_colnames cols) ->
  mem (Text.lower (Text.strip k)) (synonyms_of v) = true.
Proof.
  unfold standardize_colnames.
  assert (G : forall m, (forall k v, In (k, v) m ->
                 mem (Text.lower (Text.strip k)) (synonyms_of v) = true) ->
              forall k v, In (k, v) (fold_left standardize_step cols m) ->
                 mem (Text.lower (Text.strip k)) (synonyms_of v) = true).
  { induction cols as [|c cols IH]; simpl; intros m Hm; [exact Hm|].
    apply IH. apply standardize_step_sound; exact Hm. }
  apply G. intros ? ? [].
Qed.

Lemma synonyms_of_cases (v : string) :
  synonyms_of v = country_synonyms \/ synonyms_of v = region_synonyms
  \/ synonyms_of v = iso3_synonyms \/ synonyms_of v = subregion_synonyms
  \/ synonyms_of v = [].
Proof.
  unfold synonyms_of.
  repeat match goal with |- context [if ?b then _ else _] => destruct b end; auto.
Qed.

Lemma country_name_with_space_unmapped (cols : list string) :
  assoc (standardize_colnames cols) "Country Name" = None.
Proof.
  destruct (assoc (standardize_colnames cols) "Country Name") as [v|] eqn:E; [|reflexivity].
  apply assoc_in, standardize_colnames_sound in E.
  destruct (synonyms_of_cases v) as [H|[H|[H|[H|H]]]]; rewrite H in E; discriminate E.
Qed.

(** C3, as stated, fails: the header "Country Name" is not renamed, because
    its inner space survives [strip().lower()] and "country name" is no
    synonym. *)
Lemma standardize_colnames_Country_Name :
  ~ In ("Country Name", "country_name") (standardize_colnames ["Country Name"]).
Proof.
  vm_compute. intros [].
Qed.

(** C3, amended: "country_name" and "COUNTRYNAME" are renamed to
    [country_name]; "Country Name" never is, in any header list; and a
    header is given the same canonical name as any other spelling of it
    that differs in letter case and in surrounding whitespace only. *)
Theorem standardize_colnames_case_whitespace (c c' pre post : string) :
  Text.lower c' = Text.lower c ->
  blank pre = true ->
  blank post = true ->
  values (standardize_colnames [(pre ++ c' ++ post)%string])
  = values (standardize_colnames [c])
  /\ standardize_colnames ["country_name"] = [("country_name", "country_name")]
  /\ standardize_colnames ["COUNTRYNAME"] = [("COUNTRYNAME", "country_name")]
  /\ (forall cols, assoc (standardize_colnames cols) "Country Name" = None).
Proof.
  intros Hcase Hpre Hpost. split; [|split; [reflexivity|split; [reflexivity|]]].
  - unfold standardize_colnames. cbn [fold_left].
    unfold standardize_step. cbv zeta.
    rewrite (strip_padding pre c' post Hpre Hpost).
    rewrite (lower_strip c'), Hcase, <- (lower_strip c).
    generalize (Text.lower (Text.strip c)); intros cl.
    destruct (mem cl country_synonyms), (mem cl region_synonyms),
      (mem cl iso3_synonyms), (mem cl subregion_synonyms); reflexivity.
  - exact country_name_with_space_unmapped.
Qed.

Lemma standardize_colnames_case_whitespace_witness :
  values (standardize_colnames ["  Country_NAME "]) = ["country_name"].
Proof.
  destruct (standardize_colnames_case_whitespace
              "country_name" "Country_NAME" "  " " ") as [H _];
    [reflexivity|reflexivity|reflexivity|].
  exact H.
Defined.

(** ** Country names *)

(** C5: "USA" and "United States" are given the same normalized name,
    "united states of america". *)
Theorem normalize_usa_united_states :
  normalize_country_name (PStr "USA") = normalize_country_name (PStr "United States")
  /\ normalize_country_name (PStr "USA") = PStr "united states of america".
Proof.
  split; reflexivity.
Qed.

(** No value of the alias table is one of its keys. *)
Lemma alias_values_are_not_keys (k v : string) :
  In (k, v) aliases -> assoc aliases v = None.
Proof.
  unfold aliases. simpl In.
  intros H.
  repeat (destruct H as [H|H]; [inversion H; subst; reflexivity|]).
  destruct H.
Qed.

(** ** Where the normalizer is idempotent *)

Lemma is_word_lower_char (c : ascii) :
  Text.is_word (Text.lower_char c) = Text.is_word c.
Proof.
  destruct c as [[] [] [] [] [] [] [] []]; reflexivity.
Qed.

Lemma lower_drop_punct (s : string) :
  Text.lower (Text.drop_punct s) = Text.drop_punct (Text.lower s).
Proof.
  unfold Text.lower, Text.drop_punct.
  induction s as [|c s IH]; cbn [Text.smap Text.sfilter]; [reflexivity|].
  rewrite is_word_lower_char, is_space_lower_char.
  destruct (Text.is_word c || Text.is_space c); cbn [Text.smap]; now rewrite IH.
Qed.

Lemma lower_collapse_from (b : bool) (s : string) :
  Text.lower (Text.collapse_from b s) = Text.collapse_from b (Text.lower s).
Proof.
  unfold Text.lower. revert b.
  induction s as [|c s IH]; intros b; cbn [Text.smap Text.collapse_from]; [reflexivity|].
  rewrite is_space_lower_char.
  destruct (Text.is_space c); [destruct b|]; cbn [Text.smap]; now rewrite IH.
Qed.

Lemma drop_punct_idem (s : string) :
  Text.drop_punct (Text.drop_punct s) = Text.drop_punct s.
Proof.
  unfold Text.drop_punct.
  induction s as [|c s IH]; cbn [Text.sfilter]; [reflexivity|].
  destruct (Text.is_word c || Text.is_space c) eqn:E; cbn [Text.sfilter]; [|exact IH].
  now rewrite E, IH.
Qed.

(** Collapsing keeps a text without punctuation free of it. *)
Lemma sfilter_length (p : ascii -> bool) (t : string) :
  String.length (Text.sfilter p t) <= String.length t.
Proof.
  induction t as [|x t IH]; cbn; [lia|]. destruct (p x); cbn; lia.
Qed.

Lemma drop_punct_collapse_from (b : bool) (s : string) :
  Text.drop_punct s = s ->
  Text.drop_punct (Text.collapse_from b s) = Text.collapse_from b s.
Proof.
  unfold Text.drop_punct. revert b.
  induction s as [|c s IH]; intros b; cbn [Text.sfilter Text.collapse_from]; [reflexivity|].
  destruct (Text.is_space c) eqn:Es, (Text.is_word c) eqn:Ew; cbn [orb]; intros H.
  - injection H as H. destruct b; cbn [Text.sfilter].
    + now apply IH.
    + change (Text.is_word " " || Text.is_space " ") with true. cbv iota.
      now rewrite IH.
  - injection H as H. destruct b; cbn [Text.sfilter].
    + now apply IH.
    + change (Text.is_word " " || Text.is_space " ") with true. cbv iota.
      now rewrite IH.
  - injection H as H. cbn [Text.sfilter]. rewrite Ew, Es. cbn [orb]. now rewrite IH.
  - exfalso.
    pose proof (sfilter_length (fun c => Text.is_word c || Text.is_space c) s) as Hlen.
    rewrite H in Hlen. cbn in Hlen. lia.
Qed.

Lemma collapse_from_idem (s : string) :
  forall b,
    Text.collapse_from false (Text.collapse_from b s) = Text.collapse_from b s
    /\ Text.collapse_from true (Text.collapse_from true s) = Text.collapse_from true s.
Proof.
  induction s as [|c s IH]; intros b; cbn [Text.collapse_from]; [split; reflexivity|].
  destruct (Text.is_space c) eqn:E.
  - split; [destruct b|].
    + apply (IH true).
    + cbn [Text.collapse_from]. change (Text.is_space " ") with true. cbv iota.
      now rewrite (proj2 (IH true)).
    + apply (IH true).
  - cbn [Text.collapse_from]. rewrite E. split; now rewrite (proj1 (IH false)).
Qed.

Lemma alias_values_are_fixed (k v : string) :
  In (k, v) aliases -> normalize_text v = v.
Proof.
  unfold aliases. simpl In. intros H.
  repeat (destruct H as [H|H]; [inversion H; subst; reflexivity|]).
  destruct H.
Qed.

(** A second call changes nothing when the first result has no whitespace
    at its ends: the result is already lowercase, free of punctuation and
    collapsed, and no alias value is an alias key. *)
Lemma normalize_text_idempotent_when_trimmed (s : string) :
  Text.strip (normalize_text s) = normalize_text s ->
  normalize_text (normalize_text s) = normalize_text s.
Proof.
  pose (u := Text.collapse_ws (Text.drop_punct (Text.lower (Text.strip s)))).
  assert (Ht : normalize_text s = alias_of u) by reflexivity.
  rewrite Ht. unfold alias_of.
  destruct (assoc aliases u) as [v|] eqn:Ea.
  - intros _. exact (alias_values_are_fixed u v (assoc_in _ _ _ Ea)).
  - intros Htrim. unfold normalize_text. cbv zeta. rewrite Htrim.
    assert (Hlow : Text.lower u = u).
    { subst u. unfold Text.collapse_ws.
      now rewrite lower_collapse_from, lower_drop_punct, lower_idem. }
    assert (Hpun : Text.drop_punct u = u).
    { subst u. unfold Text.collapse_ws. apply drop_punct_collapse_from, drop_punct_idem. }
    assert (Hcol : Text.collapse_ws u = u).
    { subst u. unfold Text.collapse_ws. apply (collapse_from_idem _ false). }
    rewrite Hlow, Hpun, Hcol. unfold alias_of. now rewrite Ea.
Qed.

Lemma normalize_country_name_idempotent_when_trimmed (x : pyval) :
  (forall t, normalize_country_name x = PStr t -> Text.strip t = t) ->
  normalize_country_name (normalize_country_name x) = normalize_country_name x.
Proof.
  unfold normalize_country_name at 1 2 3 4.
  destruct (isna x) eqn:E; [now rewrite E|].
  intros H. cbn [isna PyStr.str]. f_equal.
  apply normalize_text_idempotent_when_trimmed. now apply H.
Qed.

(** C4 fails on the code: [strip] runs before the punctuation is deleted,
    so the space in front of a deleted final mark stays; a second call
    strips it, and then finds the alias that the first call missed. *)
Theorem normalize_country_name_not_idempotent :
  normalize_country_name (PStr "Laos *") = PStr "laos "
  /\ normalize_country_name (normalize_country_name (PStr "Laos *")) = PStr "lao pdr"
  /\ normalize_country_name (normalize_country_name (PStr "Laos *"))
     <> normalize_country_name (PStr "Laos *").
Proof.
  split; [reflexivity|split; [reflexivity|discriminate]].
Qed.


(** ** Fetcher *)

Section FetcherFacts.

Variable parse_number : string -> option Z.
Variable indicator : string.
Variables start_year end_year per_page : Z.
Variable srv : server.

Local Abbreviation rq := (mkRequest indicator start_year end_year per_page).
Local Abbreviation pages := (fetch_pages indicator start_year end_year per_page srv).
Local Abbreviation extract :=
  (extract_worldbank_indicator parse_number indicator start_year end_year per_page srv).

(** A body without the two elements ends the loop at once, with what the
    loop had so far. *)
Lemma fetch_pages_short (fuel : nat) (page : Z) (full : list pyval) (flat : list row)
    (data : pyval) :
  srv (rq page) = Body data ->
  two_elements data = false ->
  pages (S fuel) page full flat = (Returned (full, flat), [rq page]).
Proof.
  intros Hsrv Hshort. cbn [fetch_pages]. rewrite Hsrv.
  destruct data as [| |b|z|t|items|d]; try reflexivity.
  destruct items as [|m [|r rest]]; try reflexivity. discriminate Hshort.
Qed.

(** A regular page that is not the last one sends the loop to the next
    page with its records added. *)
Lemma fetch_pages_next (fuel : nat) (page : Z) (full : list pyval) (flat : list row)
    (meta records : pyval) (rest items : list pyval) (rs : list row) :
  srv (rq page) = Body (PList (meta :: records :: rest)) ->
  iterate records = Ok items ->
  flatten_all items = Ok rs ->
  is_last_page page meta = Ok false ->
  pages (S fuel) page full flat
  = (fst (pages fuel (page + 1)%Z (full ++ items) (flat ++ rs)),
     rq page :: snd (pages fuel (page + 1)%Z (full ++ items) (flat ++ rs))).
Proof.
  intros Hsrv Hit Hfl Hlast. cbn [fetch_pages].
  rewrite Hsrv, Hit. cbn [obind]. rewrite Hfl. cbn [obind]. rewrite Hlast. cbn [obind].
  destruct (fetch_pages _ _ _ _ _ fuel _ _ _); reflexivity.
Qed.

(** C6: the first page [[{}, []]] ends the pagination after one request,
    with an empty table, an empty list of raw records and no exception;
    a body with fewer than two top-level elements ends the pagination at
    once, and what was accumulated is returned. *)
Theorem fetch_stops_on_empty_or_short_page (fuel : nat) :
  (srv (rq 1%Z) = Body (PList [PDict []; PList []]) ->
   extract (S fuel) = (Returned ([], mkDF [] []), [rq 1%Z]))
  /\ (forall page full flat data,
        srv (rq page) = Body data ->
        two_elements data = false ->
        pages (S fuel) page full flat = (Returned (full, flat), [rq page]))
  /\ (forall data,
        srv (rq 1%Z) = Body data ->
        two_elements data = false ->
        extract (S fuel) = (Returned ([], mkDF [] []), [rq 1%Z])).
Proof.
  split; [|split].
  - intros Hsrv. unfold extract_worldbank_indicator.
    cbn [fetch_pages]. rewrite Hsrv. reflexivity.
  - intros page full flat data. apply fetch_pages_short.
  - intros data Hsrv Hshort. unfold extract_worldbank_indicator.
    rewrite (fetch_pages_short fuel 1%Z [] [] data Hsrv Hshort).
    reflexivity.
Qed.

(** Every flattened record has the five cells of [flat_columns]. *)
Lemma flatten_record_shape (r : pyval) (x : row) :
  flatten_record r = Ok x -> List.length x = 5.
Proof.
  unfold flatten_record.
  repeat match goal with
  | |- (obind ?m _ = Ok _) -> _ => destruct m; cbn [obind]; [|discriminate]
  end.
  intros H; inversion H; reflexivity.
Qed.

Lemma flatten_all_shape (rs : list pyval) (xs : list row) :
  flatten_all rs = Ok xs -> Forall (fun x => List.length x = 5) xs.
Proof.
  revert xs. induction rs as [|r rs IH]; cbn [flatten_all]; intros xs.
  - intros H; inversion H; constructor.
  - destruct (flatten_record r) as [x|] eqn:Hx; cbn [obind]; [|discriminate].
    destruct (flatten_all rs) as [xs'|]; cbn [obind]; [|discriminate].
    intros H; inversion H; subst. constructor.
    + exact (flatten_record_shape r x Hx).
    + now apply IH.
Qed.

Lemma flatten_all_app (a b : list pyval) (xa xb : list row) :
  flatten_all a = Ok xa -> flatten_all b = Ok xb ->
  flatten_all (a ++ b) = Ok (xa ++ xb).
Proof.
  revert xa. induction a as [|r a IH]; cbn [flatten_all app]; intros xa.
  - intros H; inversion H. now intros ->.
  - destruct (flatten_record r) as [x|]; cbn [obind]; [|discriminate].
    destruct (flatten_all a) as [xs|]; cbn [obind]; [|discriminate].
    intros H Hb; inversion H; subst. now rewrite (IH xs eq_refl Hb).
Qed.

(** The flat records the loop hands over are the raw records it hands
    over, flattened one by one. *)
Lemma fetch_pages_flat (fuel : nat) :
  forall page full flat full' flat' log,
    flatten_all full = Ok flat ->
    pages fuel page full flat = (Returned (full', flat'), log) ->
    flatten_all full' = Ok flat'.
Proof.
  induction fuel as [|fuel IH]; intros page full flat full' flat' log Hinv;
    cbn [fetch_pages]; [discriminate|].
  destruct (srv (rq page)) as [| |data]; try discriminate.
  assert (Hstop : (Returned (full, flat), [rq page])
                  = (Returned (full', flat'), log) -> flatten_all full' = Ok flat').
  { intros H; inversion H; subst; exact Hinv. }
  destruct data as [| |b|z|t|items|d]; try exact Hstop.
  destruct items as [|meta [|records rest]]; try exact Hstop.
  destruct (iterate records) as [its|]; cbn [obind]; [|discriminate].
  destruct (flatten_all its) as [rs|] eqn:Hrs; cbn [obind]; [|discriminate].
  destruct (is_last_page page meta) as [[|]|]; cbn [obind]; [| |discriminate].
  - intros H; inversion H; subst. now apply flatten_all_app.
  - destruct (pages fuel (page + 1)%Z (full ++ its) (flat ++ rs)) as [e log'] eqn:Hrec.
    intros H; inversion H; subst.
    eapply IH; [|exact Hrec]. now apply flatten_all_app.
Qed.

Lemma present_coerce_row (r : row) :
  List.length r = 5 ->
  row_has_na flat_columns ["iso3"; "country_name"] (coerce_row parse_number r)
  = negb (present r).
Proof.
  destruct r as [|a [|b [|c [|d [|e [|f r]]]]]]; try discriminate. intros _.
  unfold present, notna, cell, at_pos. cbn.
  destruct (isna a), (isna b); reflexivity.
Qed.

Lemma coerce_row_setitem (r : row) :
  List.length r = 5 ->
  replace_label flat_columns "value"
    (to_numeric parse_number
       (at_pos 4 (replace_label flat_columns "year" (to_numeric parse_number (at_pos 2 r)) r)))
    (replace_label flat_columns "year" (to_numeric parse_number (at_pos 2 r)) r)
  = coerce_row parse_number r.
Proof.
  destruct r as [|a [|b [|c [|d [|e [|f r]]]]]]; try discriminate. reflexivity.
Qed.

(** Lines 66 to 70 never raise: the years and values are coerced, then the
    records without code or name go. *)
Lemma flat_table_rows (flat : list row) :
  Forall (fun x => List.length x = 5) flat ->
  exists df,
    flat_table parse_number flat = Ok df
    /\ rows df = map (coerce_row parse_number) (filter present flat)
    /\ columns df = match flat with [] => [] | _ => flat_columns end.
Proof.
  intros Hshape. unfold flat_table.
  destruct flat as [|r0 flat0] eqn:Eflat.
  - cbn. eexists; repeat split.
  - rewrite <- Eflat in *. replace (DataFrame_of flat) with (mkDF flat_columns flat)
      by (rewrite Eflat; reflexivity).
    replace (empty (mkDF flat_columns flat)) with false by (rewrite Eflat; reflexivity).
    cbn [negb]. unfold assign_from.
    change (series_position "year" (mkDF flat_columns flat)) with (@Ok nat 2).
    cbn [obind].
    change (setitem "year" (fun r => to_numeric parse_number (at_pos 2 r))
              (mkDF flat_columns flat))
      with (mkDF flat_columns
              (map (fun r => replace_label flat_columns "year"
                               (to_numeric parse_number (at_pos 2 r)) r) flat)).
    match goal with |- context [series_position "value" ?d] =>
      change (series_position "value" d) with (@Ok nat 4) end.
    cbn [obind].
    match goal with |- context [setitem "value" ?f (mkDF flat_columns ?rs)] =>
      change (setitem "value" f (mkDF flat_columns rs))
        with (mkDF flat_columns (map (fun r => replace_label flat_columns "value" (f r) r) rs))
    end.
    unfold dropna.
    match goal with |- context [find ?f ?l] =>
      change (find f l) with (@None string) end.
    cbv iota. cbn [columns rows].
    eexists; split; [reflexivity|]. cbn [columns rows]. split; [|reflexivity].
    rewrite map_map. clear Eflat.
    induction Hshape as [|x l Hx Hl IH]; [reflexivity|].
    cbn [map filter]. rewrite (coerce_row_setitem x Hx), (present_coerce_row x Hx).
    rewrite negb_involutive. destruct (present x); cbn [map]; now rewrite IH.
Qed.

Lemma coerce_row_cells (r : row) :
  List.length r = 5 ->
  present r = true ->
  let r' := coerce_row parse_number r in
  isna (cell flat_columns r' "iso3") = false
  /\ isna (cell flat_columns r' "country_name") = false
  /\ numeric_or_missing (cell flat_columns r' "year") = true
  /\ numeric_or_missing (cell flat_columns r' "value") = true
  /\ cell flat_columns r' "year" = to_numeric parse_number (cell flat_columns r "year")
  /\ cell flat_columns r' "value" = to_numeric parse_number (cell flat_columns r "value").
Proof.
  destruct r as [|a [|b [|c [|d [|e [|f r]]]]]]; try discriminate. intros _.
  unfold present, notna, cell, at_pos. cbn.
  intros H. apply andb_prop in H. destruct H as [Hb Ha].
  apply negb_true_iff in Ha, Hb.
  repeat split; auto.
  - destruct c; cbn; try reflexivity. destruct (parse_number s); reflexivity.
  - destruct e; cbn; try reflexivity. destruct (parse_number s); reflexivity.
Qed.

(** C7: when the loop hands over its records, the function returns (no
    coercion raises): the raw records as they are, and a table whose rows
    are the flattened records that have a code and a name, the year and the
    value of each being a number or, where the parse fails, missing. *)
Theorem flat_table_coerces_and_drops (fuel : nat) (full : list pyval)
    (flat : list row) (log : list request) :
  pages fuel 1%Z [] [] = (Returned (full, flat), log) ->
  exists df,
    extract fuel = (Returned (full, df), log)
    /\ flatten_all full = Ok flat
    /\ rows df = map (coerce_row parse_number) (filter present flat)
    /\ Forall (fun r =>
                 isna (cell flat_columns r "iso3") = false
                 /\ isna (cell flat_columns r "country_name") = false
                 /\ numeric_or_missing (cell flat_columns r "year") = true
                 /\ numeric_or_missing (cell flat_columns r "value") = true)
              (rows df)
    /\ (forall t, parse_number t = None -> to_numeric parse_number (PStr t) = PNaN).
Proof.
  intros Hloop.
  assert (Hflat : flatten_all full = Ok flat)
    by (eapply fetch_pages_flat; [|exact Hloop]; reflexivity).
  pose proof (flatten_all_shape full flat Hflat) as Hshape.
  destruct (flat_table_rows flat Hshape) as [df [Hdf [Hrows _]]].
  exists df. unfold extract_worldbank_indicator. rewrite Hloop, Hdf.
  split; [reflexivity|]. split; [exact Hflat|]. split; [exact Hrows|]. split.
  - rewrite Hrows. apply Forall_forall. intros r' Hin.
    apply in_map_iff in Hin. destruct Hin as [r [<- Hin]].
    apply filter_In in Hin. destruct Hin as [Hin Hpres].
    rewrite Forall_forall in Hshape.
    destruct (coerce_row_cells r (Hshape r Hin) Hpres) as (H1 & H2 & H3 & H4 & _).
    auto.
  - intros t Ht. cbn. now rewrite Ht.
Qed.

End FetcherFacts.

Lemma fetch_stops_on_empty_or_short_page_witness :
  extract_worldbank_indicator parse_digits "SP.POP.TOTL" 2015 2024 20000
    empty_metadata_server 1
  = (Returned ([], mkDF [] []), [population_request 1])
  /\ fetch_pages "SP.POP.TOTL" 2015 2024 20000 truncated_server 1 3
       [record_of "Laos" "LAO" "2020" (PNum 7)]
       [[PStr "Laos"; PStr "LAO"; PStr "2020"; PStr "SP.POP.TOTL"; PNum 7]]
  = (Returned ([record_of "Laos" "LAO" "2020" (PNum 7)],
               [[PStr "Laos"; PStr "LAO"; PStr "2020"; PStr "SP.POP.TOTL"; PNum 7]]),
     [population_request 3]).
Proof.
  split.
  - apply (proj1 (fetch_stops_on_empty_or_short_page parse_digits "SP.POP.TOTL"
                    2015 2024 20000 empty_metadata_server 0)).
    reflexivity.
  - apply (proj1 (proj2 (fetch_stops_on_empty_or_short_page parse_digits "SP.POP.TOTL"
                    2015 2024 20000 truncated_server 0))
             3%Z _ _ (PList [PDict [("message", PStr "no data")]])).
    + reflexivity.
    + reflexivity.
Defined.


Lemma flat_table_coerces_and_drops_witness :
  exists df,
    extract_worldbank_indicator parse_digits "SP.POP.TOTL" 2015 2024 20000
      truncated_server 5
    = (Returned ([ record_of "Laos" "LAO" "2020" (PNum 7);
                   record_of "Chad" "TCD" "n/a" PNone;
                   record_of "Peru" "PER" "2019" (PStr "unknown");
                   PDict [("date", PStr "2019")] ], df),
       [population_request 1; population_request 2; population_request 3])
    /\ rows df
       = [ [PStr "Laos"; PStr "LAO"; PNum 2020; PStr "SP.POP.TOTL"; PNum 7];
           [PStr "Chad"; PStr "TCD"; PNaN; PStr "SP.POP.TOTL"; PNaN];
           [PStr "Peru"; PStr "PER"; PNum 2019; PStr "SP.POP.TOTL"; PNaN] ].
Proof.
  destruct (flat_table_coerces_and_drops parse_digits "SP.POP.TOTL" 2015 2024 20000
              truncated_server 5 _ _ _ eq_refl) as [df [H1 [_ [H2 _]]]].
  exists df. split; [exact H1|exact H2].
Defined.


(** ** An empty indicator table *)

(** C9, as stated, fails: a fetch whose records all lack a code or a name
    gives an empty table that keeps its five columns; the cleaner returns
    it as it is, and the merge on [iso3] returns the reference rows with
    missing indicator and value instead of raising. *)
Lemma empty_table_with_columns_is_merged :
  extract_worldbank_indicator parse_digits "SP.POP.TOTL" 2015 2024 20000
    nameless_server 1
  = (Returned ([PDict [("date", PStr "2020")]], mkDF flat_columns []),
     [population_request 1])
  /\ empty (mkDF flat_columns []) = true
  /\ clean_worldbank_df (mkDF flat_columns []) = Ok (mkDF flat_columns [])
  /\ columns (mkDF flat_columns []) <> []
  /\ merge_datasets laos_reference (mkDF flat_columns [])
     = Ok (mkDF ["country_name"; "iso3"; "_country_norm"; "indicator"; "value"]
                [[PStr "Laos"; PStr "LAO"; PStr "lao pdr"; PNaN; PNaN]]).
Proof.
  repeat split. discriminate.
Qed.

Lemma select_missing_first (l : string) (labels : list string) (df : DataFrame) :
  has_column l df = false ->
  select (l :: labels) df = Raise (KeyError l).
Proof.
  intros H. unfold select. cbn [find]. now rewrite H.
Qed.

Lemma flat_map_singleton {A B} (f : A -> B) (l : list A) :
  flat_map (fun x => [f x]) l = map f l.
Proof.
  induction l as [|x l IH]; cbn; [reflexivity|now rewrite IH].
Qed.

(** C9, amended: an empty fetched table is returned unchanged by the
    cleaner, no column being added.  When it has no column at all (nothing
    was fetched), or more generally no [_country_norm] while one of the two
    tables has no [iso3], the merge raises [KeyError] for every such
    reference table.  When it has the five fetched columns and no row, the
    merge on [iso3] returns every reference row with a missing indicator
    and value. *)
Theorem clean_worldbank_df_empty (df : DataFrame) :
  empty df = true ->
  clean_worldbank_df df = Ok df
  /\ (columns df = [] ->
      forall countries, merge_datasets countries df = Raise (KeyError "_country_norm"))
  /\ (has_column "_country_norm" df = false ->
      forall countries,
        has_column "iso3" countries && has_column "iso3" df = false ->
        merge_datasets countries df = Raise (KeyError "_country_norm"))
  /\ (columns df = flat_columns ->
      forall countries i,
        positions "iso3" (columns countries) = [i] ->
        forallb hashable (column_at i countries) = true ->
        exists merged,
          merge_datasets countries df = Ok merged
          /\ rows merged = map (fun r => r ++ [PNaN; PNaN]) (rows countries)).
Proof.
  intros Hempty.
  assert (Hfallback : has_column "_country_norm" df = false ->
      forall countries,
        has_column "iso3" countries && has_column "iso3" df = false ->
        merge_datasets countries df = Raise (KeyError "_country_norm")).
  { intros Hnorm countries Hiso. unfold merge_datasets. rewrite Hiso.
    now rewrite (select_missing_first _ _ _ Hnorm). }
  split; [|split; [|split]].
  - unfold clean_worldbank_df. now rewrite Hempty.
  - intros Hcols countries. apply Hfallback.
    + unfold has_column. now rewrite Hcols.
    + unfold has_column at 2. rewrite Hcols. apply andb_false_r.
  - exact Hfallback.
  - intros Hcols countries i Hpos Hhash.
    destruct df as [cols rs]. cbn [columns] in Hcols. subst cols.
    unfold empty, nrows, ncols in Hempty. cbn in Hempty.
    rewrite orb_false_r in Hempty. apply Nat.eqb_eq in Hempty.
    destruct rs; [|discriminate]. clear Hempty.
    unfold merge_datasets.
    assert (Hhas : has_column "iso3" countries = true).
    { unfold has_column, mem. apply existsb_exists.
      assert (G : forall n cols, In i (positions_from n "iso3" cols) ->
                  exists c, In c cols /\ ("iso3" =? c) = true).
      { intros n cols; revert n.
        induction cols as [|c cols IH]; cbn; intros n; [intros []|].
        destruct (String.eqb_spec c "iso3") as [->|_].
        - intros _. exists "iso3". split; [now left|reflexivity].
        - intros H. destruct (IH _ H) as [c' [? ?]]. exists c'. split; [now right|assumption]. }
      apply (G 0%nat). fold (positions "iso3" (columns countries)).
      rewrite Hpos. now left. }
    rewrite Hhas. cbn [andb has_column mem existsb flat_columns columns String.eqb
                        Ascii.eqb Bool.eqb orb].
    cbn [select find has_column flat_columns columns rows mem existsb negb].
    cbn. unfold merge_left, key_position. rewrite Hpos. cbn [obind].
    cbn [positions positions_from columns String.eqb Ascii.eqb Bool.eqb].
    cbn. rewrite app_nil_r. rewrite Hhash.
    eexists; split; [reflexivity|]. cbn [rows].
    unfold joined_rows. cbn [filter]. apply flat_map_singleton.
Qed.

Lemma clean_worldbank_df_empty_witness :
  clean_worldbank_df (mkDF [] []) = Ok (mkDF [] [])
  /\ merge_datasets laos_reference (mkDF [] []) = Raise (KeyError "_country_norm").
Proof.
  destruct (clean_worldbank_df_empty (mkDF [] []) eq_refl) as [H1 [H2 _]].
  split; [exact H1|exact (H2 eq_refl laos_reference)].
Defined.

(** ** The cleaners leave their argument as it is *)

Lemma update_fresh (s : Store.store) (x d : DataFrame) (t : Store.store) :
  Store.update (List.length s) d (s ++ x :: t) = s ++ d :: t.
Proof.
  induction s as [|y s IH]; cbn; [reflexivity|now rewrite IH].
Qed.

Lemma deref_fresh (s : Store.store) (x : DataFrame) (t : Store.store) :
  Store.deref (List.length s) (s ++ x :: t) = x.
Proof.
  unfold Store.deref. induction s as [|y s IH]; cbn; [reflexivity|exact IH].
Qed.

Lemma deref_last (s t : Store.store) (x : DataFrame) :
  Store.deref (List.length s + List.length t) (s ++ t ++ [x]) = x.
Proof.
  rewrite app_assoc, <- length_app. apply deref_fresh.
Qed.

Lemma method_run (f : DataFrame -> outcome DataFrame) (q : Store.ref) (s : Store.store) :
  Store.method f q s
  = match f (Store.deref q s) with
    | Ok d' => (Ok (List.length s), s ++ [d'])
    | Raise e => (Raise e, s)
    end.
Proof.
  unfold Store.method, Store.bind, Store.read, Store.lift, Store.new.
  destruct (f (Store.deref q s)); reflexivity.
Qed.

Lemma assign_run (q : Store.ref) (src dst : string) (f : pyval -> pyval) (s : Store.store) :
  Store.assign q src dst f s
  = match assign_from src dst f (Store.deref q s) with
    | Ok d' => (Ok tt, Store.update q d' s)
    | Raise e => (Raise e, s)
    end.
Proof.
  unfold Store.assign, Store.bind, Store.read, Store.lift, Store.write.
  destruct (assign_from src dst f (Store.deref q s)); reflexivity.
Qed.

Lemma bind_run {A B} (m : Store.M A) (k : A -> Store.M B) (s : Store.store) :
  Store.bind m k s
  = match m s with
    | (Ok a, s') => k a s'
    | (Raise e, s') => (Raise e, s')
    end.
Proof. reflexivity. Qed.

(** What a call of [Store.clean_worldbank_df] does to the store: nothing
    when the table is empty; otherwise it appends the copy, cleaned in
    place as far as the assignments go, and the table of each method call
    that succeeds. *)
Lemma store_clean_worldbank_df_run (s : Store.store) (p : Store.ref) :
  Store.clean_worldbank_df p s
  = let d := Store.deref p s in
    if empty d then (Ok p, s)
    else
      match assign_from "iso3" "iso3" upper_strip d with
      | Raise e => (Raise e, s ++ [d])
      | Ok d1 =>
      match assign_from "country_name" "country_name" strip_text d1 with
      | Raise e => (Raise e, s ++ [d1])
      | Ok d2 =>
      match assign_from "country_name" "_country_norm" normalize_country_name d2 with
      | Raise e => (Raise e, s ++ [d2])
      | Ok d3 =>
      match sort_values "iso3" "year" d3 with
      | Raise e => (Raise e, s ++ [d3])
      | Ok d4 =>
      match dropna ["value"] d4 with
      | Raise e => (Raise e, s ++ [d3; d4])
      | Ok d5 =>
      match groupby_first "iso3" d5 with
      | Raise e => (Raise e, s ++ [d3; d4; d5])
      | Ok d6 => (Ok (List.length s + 3), s ++ [d3; d4; d5; d6])
      end end end end end end.
Proof.
  cbv zeta. unfold Store.clean_worldbank_df.
  rewrite bind_run. unfold Store.read at 1. cbv iota beta.
  destruct (empty (Store.deref p s)); [reflexivity|].
  rewrite bind_run. unfold Store.copy. rewrite method_run.
  rewrite bind_run, assign_run, deref_fresh.
  destruct (assign_from "iso3" "iso3" upper_strip (Store.deref p s)) as [d1|e];
    [|reflexivity].
  rewrite update_fresh, bind_run, assign_run, deref_fresh.
  destruct (assign_from "country_name" "country_name" strip_text d1) as [d2|e];
    [|reflexivity].
  rewrite update_fresh, bind_run, assign_run, deref_fresh.
  destruct (assign_from "country_name" "_country_norm" normalize_country_name d2)
    as [d3|e]; [|reflexivity].
  rewrite update_fresh, bind_run, method_run, deref_fresh.
  destruct (sort_values "iso3" "year" d3) as [d4|e]; [|reflexivity].
  rewrite bind_run, method_run, deref_fresh.
  destruct (dropna ["value"] d4) as [d5|e];
    [|rewrite <- app_assoc; reflexivity].
  rewrite bind_run, method_run, deref_fresh.
  rewrite <- !app_assoc. cbn [app].
  destruct (groupby_first "iso3" d5) as [d6|e]; [|reflexivity].
  unfold Store.ret. rewrite <- !app_assoc. cbn [app].
  rewrite !length_app. cbn [List.length]. repeat f_equal.
Qed.

Lemma store_clean_countries_csv_run (s : Store.store) (p : Store.ref) :
  Store.clean_countries_csv p s
  = let d := Store.deref p s in
    if empty d then (Ok p, s)
    else
      let r := rename_columns (standardize_colnames (columns d)) d in
      match (if has_column "iso3" r
             then assign_from "iso3" "iso3" upper_strip r else Ok r) with
      | Raise e => (Raise e, s ++ [r; r])
      | Ok a =>
          if has_column "country_name" a
          then
            match assign_from "country_name" "country_name" strip_text a with
            | Raise e => (Raise e, s ++ [r; a])
            | Ok b =>
            match assign_from "country_name" "_country_norm" normalize_country_name b with
            | Raise e => (Raise e, s ++ [r; b])
            | Ok c => (Ok (List.length s + 1), s ++ [r; c])
            end end
          else (Ok (List.length s + 1),
                s ++ [r; setitem "_country_norm" (fun _ => PNone) a])
      end.
Proof.
  cbv zeta. unfold Store.clean_countries_csv.
  rewrite bind_run. unfold Store.read at 1. cbv iota beta.
  destruct (empty (Store.deref p s)); [reflexivity|].
  rewrite bind_run, method_run. cbv iota beta.
  rewrite bind_run. unfold Store.copy. rewrite method_run, deref_fresh.
  cbv iota beta. rewrite <- app_assoc. cbn [app].
  set (r := rename_columns _ _).
  assert (Hlen : List.length (s ++ [r]) = (List.length s + 1)%nat)
    by (rewrite length_app; reflexivity).
  assert (Hd : forall x t, Store.deref (List.length s + 1) (s ++ r :: x :: t) = x).
  { intros x t. change (s ++ r :: x :: t) with (s ++ [r] ++ x :: t).
    rewrite app_assoc, <- Hlen. apply deref_fresh. }
  assert (Hu : forall x y t,
             Store.update (List.length s + 1) y (s ++ r :: x :: t) = s ++ r :: y :: t).
  { intros x y t. change (s ++ r :: x :: t) with (s ++ [r] ++ x :: t).
    rewrite app_assoc, <- Hlen, update_fresh, <- app_assoc. reflexivity. }
  rewrite Hlen.
  rewrite bind_run. unfold Store.read at 1. cbv iota beta. rewrite Hd.
  rewrite bind_run.
  assert (Hstep1 :
    (if has_column "iso3" r
     then Store.assign (List.length s + 1) "iso3" "iso3" upper_strip
     else Store.ret tt) (s ++ [r; r])
    = match (if has_column "iso3" r
             then assign_from "iso3" "iso3" upper_strip r else Ok r) with
      | Raise e => (Raise e, s ++ [r; r])
      | Ok a => (Ok tt, s ++ [r; a])
      end).
  { destruct (has_column "iso3" r); [|reflexivity].
    rewrite assign_run, Hd.
    destruct (assign_from "iso3" "iso3" upper_strip r); [|reflexivity].
    now rewrite Hu. }
  rewrite Hstep1.
  destruct (if has_column "iso3" r
            then assign_from "iso3" "iso3" upper_strip r else Ok r) as [a|e];
    [|reflexivity].
  rewrite bind_run. unfold Store.read at 1. cbv iota beta. rewrite Hd.
  rewrite bind_run.
  destruct (has_column "country_name" a).
  - rewrite bind_run, assign_run, Hd.
    destruct (assign_from "country_name" "country_name" strip_text a) as [b|e];
      [|reflexivity].
    rewrite Hu, assign_run, Hd.
    destruct (assign_from "country_name" "_country_norm" normalize_country_name b)
      as [c|e]; [|reflexivity].
    now rewrite Hu.
  - unfold Store.assign_scalar. rewrite bind_run. unfold Store.read at 1.
    cbv iota beta. rewrite Hd. unfold Store.write. now rewrite Hu.
Qed.

Lemma nth_error_grows (s ext : Store.store) (p : Store.ref) (d : DataFrame) :
  nth_error s p = Some d -> nth_error (s ++ ext) p = Some d.
Proof.
  intros H. rewrite nth_error_app1; [exact H|].
  apply nth_error_Some. now rewrite H.
Qed.

(** A call only adds tables to the store. *)
Lemma store_clean_worldbank_df_grows (s : Store.store) (p : Store.ref) :
  exists ext, snd (Store.clean_worldbank_df p s) = s ++ ext.
Proof.
  rewrite store_clean_worldbank_df_run. cbv zeta.
  repeat match goal with
  | |- context [if ?b then _ else _] => destruct b
  | |- context [match ?o with Ok _ => _ | Raise _ => _ end] => destruct o
  end; cbn [snd]; try (eexists; reflexivity).
  exists []. now rewrite app_nil_r.
Qed.

Lemma store_clean_countries_csv_grows (s : Store.store) (p : Store.ref) :
  exists ext, snd (Store.clean_countries_csv p s) = s ++ ext.
Proof.
  rewrite store_clean_countries_csv_run. cbv zeta.
  destruct (empty (Store.deref p s)); [exists []; now rewrite app_nil_r|].
  repeat match goal with
  | |- context [match ?o with Ok _ => _ | Raise _ => _ end] => destruct o
  | |- context [if ?b then _ else _] => destruct b
  end; cbn [snd]; eexists; reflexivity.
Qed.

(** The table a call returns is the one the function computes on the
    value of its argument; it is the argument itself when that is empty,
    and a table built by the call otherwise. *)
Lemma store_clean_worldbank_df_result (s : Store.store) (p : Store.ref) :
  match clean_worldbank_df (Store.deref p s) with
  | Ok d' =>
      exists q, fst (Store.clean_worldbank_df p s) = Ok q
                /\ Store.deref q (snd (Store.clean_worldbank_df p s)) = d'
                /\ (if empty (Store.deref p s) then q = p else List.length s <= q)
  | Raise e => fst (Store.clean_worldbank_df p s) = Raise e
  end.
Proof.
  rewrite store_clean_worldbank_df_run. unfold clean_worldbank_df. cbv zeta.
  destruct (empty (Store.deref p s)); [exists p; repeat split|].
  destruct (assign_from "iso3" "iso3" upper_strip (Store.deref p s)) as [d1|e];
    cbn [obind fst snd]; [|reflexivity].
  destruct (assign_from "country_name" "country_name" strip_text d1) as [d2|e];
    cbn [obind fst snd]; [|reflexivity].
  destruct (assign_from "country_name" "_country_norm" normalize_country_name d2)
    as [d3|e]; cbn [obind fst snd]; [|reflexivity].
  destruct (sort_values "iso3" "year" d3) as [d4|e];
    cbn [obind fst snd]; [|reflexivity].
  destruct (dropna ["value"] d4) as [d5|e]; cbn [obind fst snd]; [|reflexivity].
  destruct (groupby_first "iso3" d5) as [d6|e]; cbn [obind fst snd]; [|reflexivity].
  eexists; split; [reflexivity|]. split; [|lia].
  exact (deref_last s [d3; d4; d5] d6).
Qed.

Lemma store_clean_countries_csv_result (s : Store.store) (p : Store.ref) :
  match clean_countries_csv (Store.deref p s) with
  | Ok d' =>
      exists q, fst (Store.clean_countries_csv p s) = Ok q
                /\ Store.deref q (snd (Store.clean_countries_csv p s)) = d'
                /\ (if empty (Store.deref p s) then q = p else List.length s <= q)
  | Raise e => fst (Store.clean_countries_csv p s) = Raise e
  end.
Proof.
  rewrite store_clean_countries_csv_run. unfold clean_countries_csv. cbv zeta.
  destruct (empty (Store.deref p s)); [exists p; repeat split|].
  set (r := rename_columns _ _).
  assert (Hd : forall x, Store.deref (List.length s + 1) (s ++ [r; x]) = x)
    by (intros x; exact (deref_last s [r] x)).
  destruct (if has_column "iso3" r
            then assign_from "iso3" "iso3" upper_strip r else Ok r) as [a|e];
    cbn [obind fst snd]; [|reflexivity].
  destruct (has_column "country_name" a).
  - destruct (assign_from "country_name" "country_name" strip_text a) as [b|e];
      cbn [obind fst snd]; [|reflexivity].
    destruct (assign_from "country_name" "_country_norm" normalize_country_name b)
      as [c|e]; cbn [obind fst snd]; [|reflexivity].
    eexists; split; [reflexivity|]. split; [apply Hd|lia].
  - eexists; split; [reflexivity|]. split; [apply Hd|lia].
Qed.

(** C10: neither cleaner changes the table it is given, nor any other table
    that exists when it is called: whatever the outcome, the store after
    the call is the store before it, followed by the tables the call
    built. *)
Theorem cleaners_do_not_mutate (s : Store.store) (p : Store.ref) (d : DataFrame) :
  nth_error s p = Some d ->
  nth_error (snd (Store.clean_countries_csv p s)) p = Some d
  /\ nth_error (snd (Store.clean_worldbank_df p s)) p = Some d
  /\ (exists ext, snd (Store.clean_countries_csv p s) = s ++ ext)
  /\ (exists ext, snd (Store.clean_worldbank_df p s) = s ++ ext).
Proof.
  intros H.
  destruct (store_clean_countries_csv_grows s p) as [e1 H1].
  destruct (store_clean_worldbank_df_grows s p) as [e2 H2].
  rewrite H1, H2. repeat split.
  - now apply nth_error_grows.
  - now apply nth_error_grows.
  - now exists e1.
  - now exists e2.
Qed.

Lemma cleaners_do_not_mutate_witness :
  nth_error (snd (Store.clean_countries_csv 0 example_store)) 0
  = Some names_only_reference
  /\ nth_error (snd (Store.clean_worldbank_df 1 example_store)) 1
     = Some two_years_table.
Proof.
  split.
  - exact (proj1 (cleaners_do_not_mutate example_store 0 names_only_reference eq_refl)).
  - exact (proj1 (proj2 (cleaners_do_not_mutate example_store 1 two_years_table eq_refl))).
Defined.

(** ** Positions and labels *)

Lemma positions_from_spec (l : string) (cols : list string) (n j : nat) :
  In j (positions_from n l cols)
  <-> n <= j /\ j < n + List.length cols /\ nth (j - n) cols "" = l.
Proof.
  revert n. induction cols as [|c cols IH]; intros n; cbn [positions_from List.length].
  - split; [intros []|intros (H1 & H2 & _); lia].
  - destruct (String.eqb_spec c l) as [->|Hne]; cbn [In]; rewrite IH; split.
    + intros [<-|(H1 & H2 & H3)].
      * rewrite Nat.sub_diag. repeat split; lia.
      * repeat split; try lia. replace (j - n) with (S (j - S n)) by lia. exact H3.
    + intros (H1 & H2 & H3). destruct (Nat.eq_dec n j) as [E|E]; [now left|right].
      repeat split; try lia. replace (j - n) with (S (j - S n)) in H3 by lia. exact H3.
    + intros (H1 & H2 & H3). repeat split; try lia.
      replace (j - n) with (S (j - S n)) by lia. exact H3.
    + intros (H1 & H2 & H3).
      destruct (Nat.eq_dec n j) as [E|E].
      * subst j. rewrite Nat.sub_diag in H3. cbn in H3. contradiction.
      * repeat split; try lia. replace (j - n) with (S (j - S n)) in H3 by lia. exact H3.
Qed.

Lemma positions_spec (l : string) (cols : list string) (j : nat) :
  In j (positions l cols) <-> j < List.length cols /\ label_at cols j = l.
Proof.
  unfold positions, label_at. rewrite positions_from_spec, Nat.sub_0_r.
  split; [intros (_ & H & E)|intros (H & E)]; repeat split; auto; lia.
Qed.

Lemma positions_from_absent (l : string) (cols : list string) (n : nat) :
  ~ In l cols -> positions_from n l cols = [].
Proof.
  revert n. induction cols as [|c cols IH]; intros n H; cbn; [reflexivity|].
  destruct (String.eqb_spec c l) as [->|_].
  - exfalso. apply H. now left.
  - apply IH. intros Hin. apply H. now right.
Qed.

Lemma mem_In (l : string) (cols : list string) : mem l cols = true <-> In l cols.
Proof.
  unfold mem. rewrite existsb_exists. split.
  - intros [c [Hc E]]. apply String.eqb_eq in E. now subst.
  - intros H. exists l. split; [exact H|apply String.eqb_refl].
Qed.

Lemma positions_nonempty (l : string) (cols : list string) :
  In l cols -> positions l cols <> [].
Proof.
  intros H E. apply In_nth with (d := "") in H. destruct H as [j [Hj Hn]].
  assert (G : In j (positions l cols)) by (apply positions_spec; auto).
  rewrite E in G. destruct G.
Qed.

Lemma positions_has_column (l : string) (df : DataFrame) (i : nat) (t : list nat) :
  positions l (columns df) = i :: t -> has_column l df = true.
Proof.
  intros H. unfold has_column. apply mem_In.
  assert (G : In i (positions l (columns df))) by (rewrite H; now left).
  apply positions_spec in G. destruct G as [Hi <-]. now apply nth_In.
Qed.

Lemma key_position_positions (l : string) (df : DataFrame) (i : nat) :
  key_position l df = Ok i <-> positions l (columns df) = [i].
Proof.
  unfold key_position. destruct (positions l (columns df)) as [|j [|k t]]; split;
    intros H; try discriminate; inversion H; reflexivity.
Qed.

Lemma series_position_positions (l : string) (df : DataFrame) (i : nat) :
  series_position l df = Ok i <-> positions l (columns df) = [i].
Proof.
  unfold series_position. destruct (positions l (columns df)) as [|j [|k t]]; split;
    intros H; try discriminate; inversion H; reflexivity.
Qed.

(** ** Left join *)

Lemma joined_rows_length (i j : nat) (others : list nat) (right : list row) (l : row) :
  List.length (joined_rows i j others right l)
  = Nat.max 1 (List.length (filter (key_eqb (at_pos i l)) (map (at_pos j) right))).
Proof.
  unfold joined_rows. rewrite filter_map_swap, length_map.
  destruct (filter _ right) as [|x [|y t]]; cbn; [reflexivity|reflexivity|].
  rewrite length_map. reflexivity.
Qed.

Lemma flat_map_length_ge {A B} (f : A -> list B) (l : list A) :
  (forall x, 1 <= List.length (f x)) ->
  List.length l <= List.length (flat_map f l).
Proof.
  intros H. induction l as [|x l IH]; cbn [flat_map List.length]; [lia|].
  rewrite length_app. specialize (H x). lia.
Qed.

Lemma flat_map_length_eq {A B} (f : A -> list B) (l : list A) :
  (forall x, List.length (f x) = 1) ->
  List.length (flat_map f l) = List.length l.
Proof.
  intros H. induction l as [|x l IH]; cbn [flat_map List.length]; [lia|].
  rewrite length_app, (H x), IH. reflexivity.
Qed.

Lemma merge_left_rows (key : string) (left right merged : DataFrame) :
  merge_left key left right = Ok merged ->
  exists i j,
    positions key (columns left) = [i]
    /\ positions key (columns right) = [j]
    /\ forallb hashable (column_at i left ++ column_at j right) = true
    /\ rows merged
       = flat_map (joined_rows i j (other_positions j (ncols right)) (rows right))
                  (rows left).
Proof.
  unfold merge_left.
  destruct (key_position key left) as [i|] eqn:Hi; cbn [obind]; [|discriminate].
  destruct (key_position key right) as [j|] eqn:Hj; cbn [obind]; [|discriminate].
  destruct (forallb hashable _) eqn:Hh; [|discriminate].
  intros H; inversion H; subst; cbn [rows].
  exists i, j. rewrite <- !key_position_positions. auto.
Qed.

(** A left join keeps every left row. *)
Lemma merge_left_never_drops (key : string) (left right merged : DataFrame) :
  merge_left key left right = Ok merged -> nrows left <= nrows merged.
Proof.
  intros H. destruct (merge_left_rows _ _ _ _ H) as (i & j & _ & _ & _ & E).
  unfold nrows. rewrite E. apply flat_map_length_ge.
  intros l. rewrite joined_rows_length. lia.
Qed.

(** It gives one row per left row when no two right rows have the same
    key. *)
Lemma merge_left_unique (key : string) (left right merged : DataFrame) (j : nat) :
  merge_left key left right = Ok merged ->
  positions key (columns right) = [j] ->
  unique_keys (column_at j right) ->
  nrows merged = nrows left.
Proof.
  intros H Hj Hu. destruct (merge_left_rows _ _ _ _ H) as (i & j' & _ & Hj' & _ & E).
  rewrite Hj in Hj'. inversion Hj'; subst j'.
  unfold nrows. rewrite E. apply flat_map_length_eq.
  intros l. rewrite joined_rows_length.
  specialize (Hu (at_pos i l)). unfold column_at in Hu. lia.
Qed.

(** Whatever the path, the merge keeps every reference row. *)
Lemma merge_datasets_never_drops (countries wb merged : DataFrame) :
  merge_datasets countries wb = Ok merged -> nrows countries <= nrows merged.
Proof.
  unfold merge_datasets.
  destruct (has_column "iso3" countries && has_column "iso3" wb);
    match goal with |- obind ?m _ = _ -> _ => destruct m; cbn [obind] end;
    try discriminate; apply merge_left_never_drops.
Qed.

(** ** Cells *)

Lemma replace_label_length (cols : list string) (l : string) (v : pyval) (r : row) :
  List.length (replace_label cols l v r) = List.length r.
Proof.
  revert r. induction cols as [|c cols IH]; intros [|x r]; cbn; auto.
Qed.

Lemma at_pos_replace_label (cols : list string) (l : string) (v : pyval) (r : row) (j : nat) :
  j < List.length r -> j < List.length cols ->
  at_pos j (replace_label cols l v r)
  = if label_at cols j =? l then v else at_pos j r.
Proof.
  unfold at_pos, label_at. revert r j.
  induction cols as [|c cols IH]; intros [|x r] [|j]; cbn; try lia; auto.
  intros H1 H2. apply IH; lia.
Qed.

Lemma positions_from_app (l : string) (a b : list string) (n : nat) :
  positions_from n l (a ++ b)
  = positions_from n l a ++ positions_from (n + List.length a) l b.
Proof.
  revert n. induction a as [|c a IH]; intros n; cbn.
  - now rewrite Nat.add_0_r.
  - rewrite IH. replace (S n + List.length a) with (n + S (List.length a)) by lia.
    destruct (c =? l); reflexivity.
Qed.

Lemma setitem_columns (l : string) (f : row -> pyval) (df : DataFrame) :
  columns (setitem l f df)
  = if has_column l df then columns df else columns df ++ [l].
Proof.
  unfold setitem. destruct (has_column l df); reflexivity.
Qed.

Lemma setitem_rows (l : string) (f : row -> pyval) (df : DataFrame) :
  rows (setitem l f df) = map (setitem_row (columns df) l f) (rows df).
Proof.
  unfold setitem, setitem_row, has_column. destruct (mem l (columns df)); reflexivity.
Qed.

Lemma setitem_row_length (cols : list string) (l : string) (f : row -> pyval) (r : row) :
  List.length (setitem_row cols l f r)
  = if mem l cols then List.length r else S (List.length r).
Proof.
  unfold setitem_row. destruct (mem l cols).
  - apply replace_label_length.
  - rewrite length_app. cbn. lia.
Qed.

Lemma setitem_rectangular (l : string) (f : row -> pyval) (df : DataFrame) :
  rectangular df -> rectangular (setitem l f df).
Proof.
  unfold rectangular, ncols. rewrite setitem_rows, setitem_columns, Forall_map.
  apply Forall_impl. intros r Hr. rewrite setitem_row_length. unfold has_column.
  destruct (mem l (columns df)); [exact Hr|].
  rewrite length_app. cbn. lia.
Qed.

(** The positions of a label after [df[l] = ...]. *)
Lemma setitem_positions (l l' : string) (f : row -> pyval) (df : DataFrame) :
  positions l' (columns (setitem l f df))
  = if has_column l df then positions l' (columns df)
    else positions l' (columns df) ++ (if l =? l' then [ncols df] else []).
Proof.
  rewrite setitem_columns. destruct (has_column l df); [reflexivity|].
  unfold positions. rewrite positions_from_app. cbn. destruct (l =? l'); reflexivity.
Qed.

Lemma at_pos_setitem_row (cols : list string) (l : string) (f : row -> pyval) (r : row)
    (j : nat) :
  List.length r = List.length cols ->
  j < List.length cols ->
  at_pos j (setitem_row cols l f r)
  = if label_at cols j =? l then f r else at_pos j r.
Proof.
  intros Hlen Hj. unfold setitem_row. destruct (mem l cols) eqn:Hmem.
  - apply at_pos_replace_label; lia.
  - unfold at_pos. rewrite app_nth1 by lia.
    destruct (String.eqb_spec (label_at cols j) l) as [E|_]; [|reflexivity].
    exfalso. assert (H : mem l cols = true); [|congruence].
    apply mem_In. rewrite <- E. now apply nth_In.
Qed.

Lemma at_pos_setitem_row_new (cols : list string) (l : string) (f : row -> pyval) (r : row) :
  List.length r = List.length cols ->
  mem l cols = false ->
  at_pos (List.length cols) (setitem_row cols l f r) = f r.
Proof.
  intros Hlen Hmem. unfold setitem_row, at_pos. rewrite Hmem.
  rewrite app_nth2 by lia. rewrite Hlen, Nat.sub_diag. reflexivity.
Qed.

(** The cell under the assigned label is the assigned value. *)
Lemma cell_setitem_same (l : string) (f : row -> pyval) (df : DataFrame) (r : row) :
  List.length r = ncols df ->
  cell (columns (setitem l f df)) (setitem_row (columns df) l f r) l = f r.
Proof.
  intros Hlen. unfold cell. rewrite setitem_positions. unfold has_column.
  destruct (mem l (columns df)) eqn:Hmem.
  - destruct (positions l (columns df)) as [|i t] eqn:Hpos.
    + exfalso. apply (positions_nonempty l (columns df)); [now apply mem_In|exact Hpos].
    + assert (Hi : In i (positions l (columns df))) by (rewrite Hpos; now left).
      apply positions_spec in Hi. destruct Hi as [Hi Hl].
      rewrite at_pos_setitem_row by assumption. now rewrite Hl, String.eqb_refl.
  - unfold positions.
    rewrite (positions_from_absent l (columns df) 0)
      by (intros H; apply mem_In in H; congruence).
    rewrite String.eqb_refl. cbn [app].
    now apply at_pos_setitem_row_new.
Qed.

(** The cells under the other labels stay. *)
Lemma cell_setitem_other (l l' : string) (f : row -> pyval) (df : DataFrame) (r : row) :
  l' <> l ->
  List.length r = ncols df ->
  cell (columns (setitem l f df)) (setitem_row (columns df) l f r) l'
  = cell (columns df) r l'.
Proof.
  intros Hne Hlen. unfold cell. rewrite setitem_positions.
  destruct (String.eqb_spec l l') as [E|_]; [congruence|]. rewrite app_nil_r.
  destruct (has_column l df);
    (destruct (positions l' (columns df)) as [|i t] eqn:Hpos; [reflexivity|]);
    assert (Hi : In i (positions l' (columns df))) by (rewrite Hpos; now left);
    apply positions_spec in Hi; destruct Hi as [Hi Hl];
    rewrite at_pos_setitem_row by assumption;
    rewrite Hl; destruct (String.eqb_spec l' l); congruence.
Qed.

Lemma assign_from_inv (src dst : string) (f : pyval -> pyval) (df out : DataFrame) :
  assign_from src dst f df = Ok out ->
  exists i, positions src (columns df) = [i]
            /\ out = setitem dst (fun r => f (at_pos i r)) df.
Proof.
  unfold assign_from.
  destruct (series_position src df) as [i|] eqn:Hi; cbn [obind]; [|discriminate].
  intros H; inversion H. exists i. split; [|reflexivity].
  now apply series_position_positions.
Qed.

Lemma cell_unique (cols : list string) (r : row) (l : string) (i : nat) :
  positions l cols = [i] -> cell cols r l = at_pos i r.
Proof.
  intros H. unfold cell. now rewrite H.
Qed.

(** ** The reference cleaner *)

Lemma rename_columns_rectangular (m : mapping) (df : DataFrame) :
  rectangular df -> rectangular (rename_columns m df).
Proof.
  unfold rectangular, ncols, rename_columns. cbn [rows columns].
  now rewrite length_map.
Qed.

Lemma assign_from_rectangular (src dst : string) (f : pyval -> pyval) (df out : DataFrame) :
  rectangular df -> assign_from src dst f df = Ok out -> rectangular out.
Proof.
  intros Hr H. apply assign_from_inv in H. destruct H as [i [_ ->]].
  now apply setitem_rectangular.
Qed.

Lemma has_column_setitem (l l' : string) (f : row -> pyval) (df : DataFrame) :
  l' <> l -> has_column l' (setitem l f df) = has_column l' df.
Proof.
  intros Hne. unfold has_column at 1. rewrite setitem_columns.
  destruct (has_column l df); [reflexivity|].
  unfold has_column, mem. rewrite existsb_app. cbn.
  destruct (String.eqb_spec l' l); [congruence|]. now rewrite !orb_false_r.
Qed.

Lemma normalize_country_name_text (s : string) :
  normalize_country_name (PStr s) = PStr (normalize_text s).
Proof. reflexivity. Qed.

(** Section 4.3 of the specification: when a country-name column is
    found, the key of each row is its trimmed name, normalized; otherwise
    the key is [None] in every row. *)
Lemma clean_countries_csv_rows (ref c : DataFrame) :
  rectangular ref ->
  empty ref = false ->
  clean_countries_csv ref = Ok c ->
  rectangular c
  /\ forall r, In r (rows c) ->
       if has_column "country_name" c
       then exists s, cell (columns c) r "country_name" = PStr s
                      /\ cell (columns c) r "_country_norm" = PStr (normalize_text s)
       else cell (columns c) r "_country_norm" = PNone.
Proof.
  intros Hrect Hne. unfold clean_countries_csv. rewrite Hne.
  set (d0 := rename_columns _ ref).
  assert (Hd0 : rectangular d0) by now apply rename_columns_rectangular.
  destruct (if has_column "iso3" d0
            then assign_from "iso3" "iso3" upper_strip d0 else Ok d0) as [a|] eqn:Ha;
    cbn [obind]; [|discriminate].
  assert (Hra : rectangular a).
  { destruct (has_column "iso3" d0).
    - eapply assign_from_rectangular; eassumption.
    - inversion Ha; subst; assumption. }
  clear Ha. destruct (has_column "country_name" a) eqn:Hcn.
  - destruct (assign_from "country_name" "country_name" strip_text a) as [b|] eqn:Hb;
      cbn [obind]; [|discriminate].
    intros Hc.
    assert (Hrb : rectangular b) by (eapply assign_from_rectangular; eassumption).
    split; [eapply assign_from_rectangular; eassumption|].
    apply assign_from_inv in Hb. destruct Hb as [j [Hj ->]].
    apply assign_from_inv in Hc. destruct Hc as [j' [Hj' ->]].
    intros r Hr.
    rewrite has_column_setitem by discriminate.
    rewrite (positions_has_column "country_name" _ j' [] Hj').
    rewrite setitem_rows in Hr. apply in_map_iff in Hr. destruct Hr as [r1 [<- Hr1]].
    unfold rectangular in Hrb. rewrite Forall_forall in Hrb. pose proof (Hrb r1 Hr1) as Hlen1.
    rewrite cell_setitem_same by assumption.
    rewrite cell_setitem_other by (try discriminate; assumption).
    rewrite (cell_unique _ r1 _ j' Hj').
    rewrite setitem_rows in Hr1. apply in_map_iff in Hr1. destruct Hr1 as [r0 [<- Hr0]].
    unfold rectangular in Hra. rewrite Forall_forall in Hra. pose proof (Hra r0 Hr0) as Hlen0.
    rewrite <- (cell_unique _ _ _ j' Hj'), cell_setitem_same by assumption.
    unfold strip_text. eexists; split; reflexivity.
  - intros Hc; inversion Hc; subst c. split; [now apply setitem_rectangular|].
    intros r Hr. rewrite has_column_setitem by discriminate. rewrite Hcn.
    rewrite setitem_rows in Hr. apply in_map_iff in Hr. destruct Hr as [r1 [<- Hr1]].
    unfold rectangular in Hra. rewrite Forall_forall in Hra.
    now rewrite cell_setitem_same by auto.
Qed.

(** ** The merge on the normalized name *)

Lemma find_none_forall {A} (p : A -> bool) (l : list A) :
  (forall x, In x l -> p x = false) -> find p l = None.
Proof.
  induction l as [|x l IH]; cbn; [reflexivity|]. intros H.
  rewrite (H x (or_introl eq_refl)). apply IH. intros y Hy. apply H. now right.
Qed.

(** [df[[a, b, c]]] when each label names one column. *)
Lemma select_three (a b c : string) (df : DataFrame) (ja jb jc : nat) :
  positions a (columns df) = [ja] ->
  positions b (columns df) = [jb] ->
  positions c (columns df) = [jc] ->
  select [a; b; c] df
  = Ok (mkDF [a; b; c] (map (fun r => [at_pos ja r; at_pos jb r; at_pos jc r]) (rows df))).
Proof.
  intros Ha Hb Hc. unfold select.
  rewrite find_none_forall.
  - cbn [flat_map]. rewrite Ha, Hb, Hc. cbn [app map].
    assert (L : forall l j, positions l (columns df) = [j] -> label_at (columns df) j = l).
    { intros l j H. assert (G : In j (positions l (columns df))) by (rewrite H; now left).
      now apply positions_spec in G. }
    now rewrite (L a ja Ha), (L b jb Hb), (L c jc Hc).
  - intros l [<-|[<-|[<-|[]]]];
      [rewrite (positions_has_column _ _ _ _ Ha)
      |rewrite (positions_has_column _ _ _ _ Hb)
      |rewrite (positions_has_column _ _ _ _ Hc)]; reflexivity.
Qed.

Lemma has_column_false_positions (l : string) (df : DataFrame) :
  has_column l df = false -> positions l (columns df) = [].
Proof.
  intros H. apply positions_from_absent. intros Hin.
  apply mem_In in Hin. unfold has_column in H. congruence.
Qed.

(** C8: a reference without [iso3] is joined on [_country_norm]; its row
    named "Laos" has the key "lao pdr" after cleaning, and is given the
    indicator and the value of the indicator row whose key is "lao pdr". *)
Theorem laos_matches_lao_pdr (ref c wb : DataFrame) (r w : row) (n jn ji jv : nat) :
  rectangular ref ->
  clean_countries_csv ref = Ok c ->
  has_column "iso3" c = false ->
  positions "_country_norm" (columns c) = [n] ->
  In r (rows c) ->
  cell (columns c) r "country_name" = PStr "Laos" ->
  positions "_country_norm" (columns wb) = [jn] ->
  positions "indicator" (columns wb) = [ji] ->
  positions "value" (columns wb) = [jv] ->
  forallb hashable (column_at jn wb) = true ->
  In w (rows wb) ->
  cell (columns wb) w "_country_norm" = PStr "lao pdr" ->
  cell (columns c) r "_country_norm" = PStr "lao pdr"
  /\ merge_datasets c wb
     = (sel <- select ["_country_norm"; "indicator"; "value"] wb ;;
        merge_left "_country_norm" c sel)%outcome
  /\ exists merged,
       merge_datasets c wb = Ok merged
       /\ In (r ++ [cell (columns wb) w "indicator"; cell (columns wb) w "value"])
             (rows merged).
Proof.
  intros Hrect Hclean Hiso Hn Hr Hname Hjn Hji Hjv Hhash Hw Hkey.
  assert (Hne : empty ref = false).
  { destruct (empty ref) eqn:E; [|reflexivity]. exfalso.
    unfold clean_countries_csv in Hclean. rewrite E in Hclean. inversion Hclean; subst c.
    unfold empty in E. apply orb_prop in E. destruct E as [E|E]; apply Nat.eqb_eq in E.
    - unfold nrows in E. destruct (rows ref); [destruct Hr|discriminate E].
    - unfold ncols in E. destruct (columns ref); [|discriminate E].
      discriminate Hname. }
  destruct (clean_countries_csv_rows ref c Hrect Hne Hclean) as [Hrc Hrows].
  assert (Hnorm : forall r', In r' (rows c) ->
             hashable (at_pos n r') = true
             /\ (cell (columns c) r' "country_name" = PStr "Laos" ->
                 at_pos n r' = PStr "lao pdr")).
  { intros r' Hr'. specialize (Hrows r' Hr').
    rewrite <- (cell_unique _ r' _ n Hn).
    destruct (has_column "country_name" c) eqn:Hhas.
    - destruct Hrows as [s [Hs ->]]. split; [reflexivity|].
      rewrite Hs. intros E; inversion E; reflexivity.
    - rewrite Hrows. split; [reflexivity|].
      intros E. unfold cell in E.
      rewrite (has_column_false_positions _ _ Hhas) in E. discriminate E. }
  destruct (Hnorm r Hr) as [_ Hkr]. specialize (Hkr Hname).
  split; [now rewrite (cell_unique _ r _ n Hn)|].
  split; [unfold merge_datasets; now rewrite Hiso|].
  unfold merge_datasets. rewrite Hiso. cbn [andb].
  rewrite (select_three _ _ _ wb jn ji jv Hjn Hji Hjv). cbn [obind].
  unfold merge_left.
  rewrite (proj2 (key_position_positions _ c n) Hn). cbn [obind].
  change (key_position "_country_norm"
            (mkDF ["_country_norm"; "indicator"; "value"]
                  (map (fun r0 => [at_pos jn r0; at_pos ji r0; at_pos jv r0]) (rows wb))))
    with (@Ok nat 0).
  cbn [obind].
  assert (Hcol : column_at 0
            (mkDF ["_country_norm"; "indicator"; "value"]
                  (map (fun r0 => [at_pos jn r0; at_pos ji r0; at_pos jv r0]) (rows wb)))
          = column_at jn wb).
  { unfold column_at. cbn [rows]. rewrite map_map. reflexivity. }
  rewrite Hcol, forallb_app, Hhash, andb_true_r.
  assert (Hleft : forallb hashable (column_at n c) = true).
  { apply forallb_forall. intros v Hv. unfold column_at in Hv.
    apply in_map_iff in Hv. destruct Hv as [r' [<- Hr']]. now apply Hnorm. }
  rewrite Hleft. eexists; split; [reflexivity|]. cbn [rows].
  apply in_flat_map. exists r. split; [exact Hr|].
  unfold joined_rows, ncols. cbn [columns rows List.length].
  change (other_positions 0 3) with [1; 2].
  set (sel := fun r0 : row => [at_pos jn r0; at_pos ji r0; at_pos jv r0]).
  assert (Hin : In (sel w)
                   (filter (fun r0 => key_eqb (at_pos n r) (at_pos 0 r0))
                           (map sel (rows wb)))).
  { apply filter_In. split; [now apply in_map|].
    subst sel. cbn. rewrite Hkr, <- (cell_unique _ w _ jn Hjn), Hkey. reflexivity. }
  destruct (filter (fun r0 => key_eqb (at_pos n r) (at_pos 0 r0)) (map sel (rows wb)))
    as [|m ms]; [destruct Hin|].
  apply in_map_iff. exists (sel w). split; [|exact Hin].
  subst sel. cbn.
  now rewrite (cell_unique _ w _ ji Hji), (cell_unique _ w _ jv Hjv).
Qed.

Lemma laos_matches_lao_pdr_witness :
  clean_countries_csv names_only_reference = Ok cleaned_names_only
  /\ clean_worldbank_df two_years_table = Ok cleaned_two_years
  /\ exists merged,
       merge_datasets cleaned_names_only cleaned_two_years = Ok merged
       /\ In [PStr "Laos"; PStr "Asia"; PStr "lao pdr"; PStr "SP.POP.TOTL"; PNum 7]
             (rows merged).
Proof.
  split; [reflexivity|]. split; [reflexivity|].
  refine (proj2 (proj2 (laos_matches_lao_pdr names_only_reference cleaned_names_only
                   cleaned_two_years
                   [PStr "Laos"; PStr "Asia"; PStr "lao pdr"]
                   [PStr "LAO"; PStr "Lao PDR"; PNum 2020; PStr "SP.POP.TOTL"; PNum 7;
                    PStr "lao pdr"]
                   2 5 3 4 _ eq_refl eq_refl eq_refl _ eq_refl eq_refl eq_refl eq_refl
                   eq_refl _ eq_refl))).
  - repeat constructor.
  - right. now left.
  - now left.
Defined.

(** ** Sorting, dropping and grouping a table *)

Lemma positions_from_succ (l : string) (cols : list string) (n : nat) :
  positions_from (S n) l cols = map S (positions_from n l cols).
Proof.
  revert n. induction cols as [|c cols IH]; intros n; cbn; [reflexivity|].
  rewrite IH. destruct (c =? l); reflexivity.
Qed.

Lemma cell_cons (c : string) (cols : list string) (x : pyval) (r : row) (l : string) :
  cell (c :: cols) (x :: r) l = if c =? l then x else cell cols r l.
Proof.
  unfold cell, positions. cbn [positions_from].
  destruct (c =? l); [reflexivity|].
  rewrite positions_from_succ.
  destruct (positions_from 0 l cols); reflexivity.
Qed.

(** The cell under a label in a row built column by column. *)
Lemma cell_mapped (lab : nat -> string) (F : nat -> pyval) (js : list nat)
    (l : string) (j : nat) :
  In j js -> lab j = l ->
  (forall j', In j' js -> lab j' = l -> j' = j) ->
  cell (map lab js) (map F js) l = F j.
Proof.
  induction js as [|j0 js IH]; cbn [map In]; [intros []|].
  intros Hin Hl Huniq. rewrite cell_cons.
  destruct (String.eqb_spec (lab j0) l) as [E|Hne].
  - now rewrite (Huniq j0 (or_introl eq_refl) E).
  - destruct Hin as [->|Hin]; [congruence|].
    apply IH; auto.
Qed.

Lemma positions_NoDup (l : string) (cols : list string) :
  NoDup cols -> In l cols -> exists i, positions l cols = [i].
Proof.
  unfold positions. generalize 0.
  induction cols as [|c cols IH]; intros n Hnd Hin; [destruct Hin|].
  inversion Hnd as [|? ? Hc Hnd']; subst. cbn.
  destruct (String.eqb_spec c l) as [->|Hne].
  - exists n. now rewrite positions_from_absent.
  - destruct Hin as [E|Hin]; [congruence|]. now apply IH.
Qed.

Lemma sort_values_inv (k1 k2 : string) (df out : DataFrame) :
  sort_values k1 k2 df = Ok out ->
  exists i j,
    positions k1 (columns df) = [i]
    /\ positions k2 (columns df) = [j]
    /\ columns out = columns df
    /\ rows out = stable_sort (le_of (row_cmp i j)) (rows df).
Proof.
  unfold sort_values.
  destruct (key_position k1 df) as [i|] eqn:Hi; cbn [obind]; [|discriminate].
  destruct (key_position k2 df) as [j|] eqn:Hj; cbn [obind]; [|discriminate].
  destruct (_ && _); [|discriminate].
  intros H; inversion H; subst. exists i, j.
  rewrite <- !key_position_positions. auto.
Qed.

Lemma row_has_na_single (cols : list string) (l : string) (r : row) (i : nat) :
  positions l cols = [i] ->
  List.length r = List.length cols ->
  row_has_na cols [l] r = isna (at_pos i r).
Proof.
  unfold row_has_na, positions, at_pos.
  assert (G : forall n, positions_from n l cols = [i] ->
              List.length r = List.length cols ->
              existsb (fun cv => mem (fst cv) [l] && isna (snd cv)) (combine cols r)
              = isna (nth (i - n) r PNaN)).
  { revert r. induction cols as [|c cols IH]; intros r n; cbn [positions_from];
      [discriminate|].
    destruct r as [|x r]; [discriminate|]. cbn [combine existsb fst snd List.length].
    intros Hp Hlen. unfold mem at 1. cbn [existsb]. rewrite orb_false_r.
    destruct (String.eqb_spec c l) as [->|Hne].
    - injection Hp as -> Hp. rewrite Nat.sub_diag. cbn [nth andb].
      assert (E : existsb (fun cv => mem (fst cv) [l] && isna (snd cv)) (combine cols r)
                  = false).
      { apply not_true_is_false. intros Hex. apply existsb_exists in Hex.
        destruct Hex as [[c' x'] [Hin Hc']]. cbn in Hc'.
        rewrite orb_false_r in Hc'. apply andb_prop in Hc'. destruct Hc' as [Hc' _].
        apply String.eqb_eq in Hc'. subst c'.
        apply in_combine_l in Hin.
        apply (In_nth _ _ "") in Hin. destruct Hin as [m [Hm Hn]].
        assert (Hpos : In (S i + m) (positions_from (S i) l cols)).
        { apply positions_from_spec. repeat split; try lia.
          replace (S i + m - S i) with m by lia. exact Hn. }
        rewrite Hp in Hpos. destruct Hpos. }
      rewrite E. apply orb_false_r.
    - cbn [andb orb].
      assert (Hin : In i (positions_from (S n) l cols)) by (rewrite Hp; now left).
      apply positions_from_spec in Hin. destruct Hin as [Hge _].
      rewrite (IH r (S n) Hp) by lia.
      replace (i - n) with (S (i - S n)) by lia. reflexivity. }
  intros Hp Hlen. rewrite (G 0 Hp Hlen). now rewrite Nat.sub_0_r.
Qed.

Lemma dropna_inv (l : string) (df out : DataFrame) :
  dropna [l] df = Ok out ->
  has_column l df = true
  /\ columns out = columns df
  /\ rows out = filter (fun r => negb (row_has_na (columns df) [l] r)) (rows df).
Proof.
  unfold dropna. cbn [find].
  destruct (has_column l df); cbn [negb]; [|discriminate].
  intros H; inversion H; subst. auto.
Qed.

Lemma groupby_first_inv (key : string) (df out : DataFrame) :
  groupby_first key df = Ok out ->
  exists i,
    positions key (columns df) = [i]
    /\ columns out = key :: map (label_at (columns df)) (other_positions i (ncols df))
    /\ rows out
       = map (fun k =>
                k :: map (fun j => first_valid (map (at_pos j) (group_of i k (rows df))))
                         (other_positions i (ncols df)))
             (stable_sort (le_of cmp_asc)
                (distinct_keys (filter notna (column_at i df)))).
Proof.
  unfold groupby_first.
  destruct (key_position key df) as [i|] eqn:Hi; cbn [obind]; [|discriminate].
  destruct (_ && _); [|discriminate].
  intros H; inversion H; subst. exists i.
  rewrite <- key_position_positions. auto.
Qed.

Lemma in_other_positions (i n j : nat) :
  In j (other_positions i n) <-> j < n /\ j <> i.
Proof.
  unfold other_positions. rewrite filter_In, in_seq, negb_true_iff, Nat.eqb_neq. lia.
Qed.

Lemma other_labels_exclude_key (key : string) (cols : list string) (i : nat) :
  positions key cols = [i] ->
  ~ In key (map (label_at cols) (other_positions i (List.length cols))).
Proof.
  intros Hp Hin. apply in_map_iff in Hin. destruct Hin as [j [Hl Hj]].
  apply in_other_positions in Hj. destruct Hj as [Hlt Hne].
  assert (G : In j (positions key cols)) by (apply positions_spec; auto).
  rewrite Hp in G. destruct G as [G|[]]. congruence.
Qed.

(** The grouped table has the key as its first column, and no two rows
    with the same key. *)
Lemma groupby_first_keys (key : string) (df out : DataFrame) :
  groupby_first key df = Ok out ->
  positions key (columns out) = [0]
  /\ unique_keys (column_at 0 out).
Proof.
  intros H. destruct (groupby_first_inv _ _ _ H) as (i & Hi & Hc & Hr).
  split.
  - rewrite Hc. unfold positions. cbn [positions_from]. rewrite String.eqb_refl.
    rewrite positions_from_absent; [reflexivity|].
    now apply other_labels_exclude_key.
  - unfold column_at. rewrite Hr, map_map. cbn [at_pos nth]. rewrite map_id.
    eapply unique_keys_perm; [apply Permutation_sym, stable_sort_perm|].
    apply distinct_keys_unique.
Qed.

(** The steps of a successful call of the indicator cleaner. *)
Lemma clean_worldbank_df_inv (df out : DataFrame) :
  empty df = false ->
  clean_worldbank_df df = Ok out ->
  exists d1 d2 d3 d4 d5,
    assign_from "iso3" "iso3" upper_strip df = Ok d1
    /\ assign_from "country_name" "country_name" strip_text d1 = Ok d2
    /\ assign_from "country_name" "_country_norm" normalize_country_name d2 = Ok d3
    /\ sort_values "iso3" "year" d3 = Ok d4
    /\ dropna ["value"] d4 = Ok d5
    /\ groupby_first "iso3" d5 = Ok out.
Proof.
  intros Hne. unfold clean_worldbank_df. rewrite Hne.
  destruct (assign_from "iso3" "iso3" upper_strip df) as [d1|] eqn:H1;
    cbn [obind]; [|discriminate].
  destruct (assign_from "country_name" "country_name" strip_text d1) as [d2|] eqn:H2;
    cbn [obind]; [|discriminate].
  destruct (assign_from "country_name" "_country_norm" normalize_country_name d2)
    as [d3|] eqn:H3; cbn [obind]; [|discriminate].
  destruct (sort_values "iso3" "year" d3) as [d4|] eqn:H4; cbn [obind]; [|discriminate].
  destruct (dropna ["value"] d4) as [d5|] eqn:H5; cbn [obind]; [|discriminate].
  intros H. exists d1, d2, d3, d4, d5. repeat split; auto.
Qed.

Lemma select_inv (labels : list string) (df sel : DataFrame) :
  select labels df = Ok sel ->
  let js := flat_map (fun l => positions l (columns df)) labels in
  columns sel = map (label_at (columns df)) js
  /\ rows sel = map (fun r => map (fun j => at_pos j r) js) (rows df).
Proof.
  unfold select. destruct (find _ labels); [discriminate|].
  intros H; inversion H; subst. cbn. auto.
Qed.

(** The key column of [df[[key, ...]]]. *)
Lemma select_key_column (key : string) (ls : list string) (df sel : DataFrame) (i : nat) :
  positions key (columns df) = [i] ->
  ~ In key ls ->
  select (key :: ls) df = Ok sel ->
  positions key (columns sel) = [0] /\ column_at 0 sel = column_at i df.
Proof.
  intros Hi Hls H. destruct (select_inv _ _ _ H) as [Hc Hr].
  cbn [flat_map] in Hc, Hr. rewrite Hi in Hc, Hr. cbn [app map] in Hc, Hr.
  assert (Hl : label_at (columns df) i = key).
  { assert (G : In i (positions key (columns df))) by (rewrite Hi; now left).
    now apply positions_spec in G. }
  split.
  - rewrite Hc, Hl. unfold positions. cbn [positions_from]. rewrite String.eqb_refl.
    rewrite positions_from_absent; [reflexivity|].
    intros Hin. apply in_map_iff in Hin. destruct Hin as [j [Hj Hin]].
    apply in_flat_map in Hin. destruct Hin as [l [Hlin Hpos]].
    apply positions_spec in Hpos. destruct Hpos as [_ Hpos]. congruence.
  - unfold column_at. rewrite Hr, map_map. reflexivity.
Qed.

(** ** Row counts of the merge *)

(** On the [iso3] path the merged table has the rows of the reference
    table, one for one: the cleaner leaves one row per code. *)
Lemma merge_on_iso3_keeps_row_count (df wb countries merged : DataFrame) :
  clean_worldbank_df df = Ok wb ->
  has_column "iso3" countries = true ->
  has_column "iso3" wb = true ->
  merge_datasets countries wb = Ok merged ->
  nrows merged = nrows countries.
Proof.
  intros Hclean Hc Hw. unfold merge_datasets. rewrite Hc, Hw. cbn [andb].
  destruct (select ["iso3"; "indicator"; "value"] wb) as [sel|] eqn:Hsel;
    cbn [obind]; [|discriminate].
  intros Hm. destruct (merge_left_rows _ _ _ _ Hm) as (i & j & _ & Hj & _ & _).
  apply (merge_left_unique _ _ _ _ j Hm Hj).
  destruct (empty df) eqn:He.
  - unfold clean_worldbank_df in Hclean. rewrite He in Hclean.
    inversion Hclean; subst wb.
    assert (Hrows : rows df = []).
    { unfold empty in He. apply orb_prop in He. destruct He as [He|He];
        apply Nat.eqb_eq in He.
      - unfold nrows in He. now destruct (rows df).
      - unfold ncols in He. unfold has_column in Hw.
        destruct (columns df); [discriminate Hw|discriminate He]. }
    destruct (select_inv _ _ _ Hsel) as [_ Hr].
    unfold column_at. rewrite Hr, Hrows. intros x. cbn. lia.
  - destruct (clean_worldbank_df_inv df wb He Hclean) as (d1 & d2 & d3 & d4 & d5 & H).
    destruct H as (_ & _ & _ & _ & _ & Hg).
    destruct (groupby_first_keys _ _ _ Hg) as [Hk Hu].
    destruct (select_key_column "iso3" ["indicator"; "value"] wb sel 0 Hk) as [Hk' Hcol];
      [|exact Hsel|].
    + intros [E|[E|[]]]; discriminate E.
    + rewrite Hk' in Hj. inversion Hj; subst j. now rewrite Hcol.
Qed.

(** On the fallback path the row count is kept when no two rows of the
    indicator table have the same [_country_norm]. *)
Lemma merge_on_country_norm_keeps_row_count (countries wb merged : DataFrame) (j : nat) :
  has_column "iso3" countries && has_column "iso3" wb = false ->
  positions "_country_norm" (columns wb) = [j] ->
  unique_keys (column_at j wb) ->
  merge_datasets countries wb = Ok merged ->
  nrows merged = nrows countries.
Proof.
  intros Hpath Hj Hu. unfold merge_datasets. rewrite Hpath.
  destruct (select ["_country_norm"; "indicator"; "value"] wb) as [sel|] eqn:Hsel;
    cbn [obind]; [|discriminate].
  intros Hm.
  destruct (select_key_column "_country_norm" ["indicator"; "value"] wb sel j Hj)
    as [Hk Hcol]; [|exact Hsel|].
  - intros [E|[E|[]]]; discriminate E.
  - apply (merge_left_unique _ _ _ _ 0 Hm Hk). now rewrite Hcol.
Qed.

(** C1 fails on the code, on the fallback path: the cleaner keeps one row
    per [iso3], not per [_country_norm]; two codes whose names normalize to
    one key both match the reference row with that key, which comes out
    twice. *)
Theorem merge_fans_out_on_country_norm :
  clean_countries_csv names_only_reference = Ok cleaned_names_only
  /\ clean_worldbank_df two_codes_table = Ok cleaned_two_codes
  /\ has_column "iso3" cleaned_names_only = false
  /\ exists merged,
       merge_datasets cleaned_names_only cleaned_two_codes = Ok merged
       /\ rows merged
          = [ [PStr "USA"; PStr "Americas"; PStr "united states of america";
               PStr "SP.POP.TOTL"; PNum 331];
              [PStr "USA"; PStr "Americas"; PStr "united states of america";
               PStr "SP.POP.TOTL"; PNum 1];
              [PStr "Laos"; PStr "Asia"; PStr "lao pdr"; PNaN; PNaN] ]
       /\ nrows merged = 3
       /\ nrows cleaned_names_only = 2.
Proof.
  repeat split. eexists. repeat split.
Qed.

(** ** The indicator cleaner *)

Lemma first_valid_head (x : pyval) (xs : list pyval) :
  isna x = false -> first_valid (x :: xs) = x.
Proof.
  intros H. unfold first_valid, notna. cbn. now rewrite H.
Qed.

Lemma first_valid_all_missing (x : pyval) (xs : list pyval) :
  (forall y, In y (x :: xs) -> isna y = true) -> first_valid (x :: xs) = x.
Proof.
  intros H. unfold first_valid. rewrite find_none_forall; [reflexivity|].
  intros y Hy. unfold notna. now rewrite (H y Hy).
Qed.

Lemma first_valid_in (x : pyval) (xs : list pyval) :
  In (first_valid (x :: xs)) (x :: xs).
Proof.
  unfold first_valid. destruct (find notna (x :: xs)) as [v|] eqn:E.
  - now apply find_some in E.
  - now left.
Qed.

(** In descending order a missing cell comes first only among missing
    cells. *)
Lemma cmp_desc_missing_first (a b : pyval) :
  isna a = true -> cmp_desc a b <> Gt -> isna b = true.
Proof.
  destruct a; try discriminate; intros _; destruct b; cbn; congruence.
Qed.

Lemma filter_sorted {A} (R : A -> A -> Prop) (p : A -> bool) (l : list A) :
  StronglySorted R l -> StronglySorted R (filter p l).
Proof.
  induction 1 as [|x l Hl IH Hx]; cbn; [constructor|].
  destruct (p x); [|exact IH]. constructor; [exact IH|].
  rewrite Forall_forall in *. intros y Hy. apply Hx. now apply filter_In in Hy.
Qed.

Lemma in_distinct_keys (l : list pyval) (k : pyval) :
  In k (distinct_keys l) -> In k l.
Proof.
  revert k. induction l as [|x l IH]; intros k; cbn; [auto|].
  intros [->|H]; [now left|]. right. apply IH. now apply filter_In in H.
Qed.

Lemma distinct_keys_complete (l : list pyval) (x : pyval) :
  In x l -> exists k, In k (distinct_keys l) /\ key_eqb k x = true.
Proof.
  induction l as [|y l IH]; cbn; [intros []|].
  intros [->|H].
  - exists x. split; [now left|apply key_eqb_refl].
  - destruct (IH H) as [k [Hk Hkx]].
    destruct (key_eqb y k) eqn:Hyk.
    + exists y. split; [now left|]. now apply (key_eqb_trans y k x).
    + exists k. split; [|exact Hkx]. right. apply filter_In. now rewrite Hyk.
Qed.

(** The head of a group of the sorted table has the most recent year of
    the group. *)
Lemma group_head_latest (i y : nat) (k : pyval) (p : row -> bool) (rs : list row)
    (h : row) (t : list row) :
  group_of i k (filter p (stable_sort (le_of (row_cmp i y)) rs)) = h :: t ->
  forall x, In x (h :: t) -> cmp_desc (at_pos y h) (at_pos y x) <> Gt.
Proof.
  intros Hg x Hx.
  assert (Hs : StronglySorted (fun a b => le_of (row_cmp i y) a b = true)
                 (filter p (stable_sort (le_of (row_cmp i y)) rs))).
  { apply filter_sorted, stable_sort_sorted, tp_row_cmp. }
  pose proof (sorted_filter_head (row_cmp i y) (tp_row_cmp i y) _ _ h t Hs Hg x Hx) as Hle.
  assert (Hkey : forall z, In z (h :: t) -> key_eqb (at_pos i z) k = true).
  { intros z Hz. rewrite <- Hg in Hz. unfold group_of in Hz. now apply filter_In in Hz. }
  assert (Heq : cmp_asc (at_pos i h) (at_pos i x) = Eq).
  { apply key_eqb_eq. apply (key_eqb_trans _ k _).
    - apply Hkey. now left.
    - rewrite key_eqb_sym. now apply Hkey. }
  unfold le_of, row_cmp in Hle. rewrite Heq in Hle. cbn [lex] in Hle.
  destruct (cmp_desc (at_pos y h) (at_pos y x)); congruence.
Qed.

Lemma setitem_NoDup (l : string) (f : row -> pyval) (df : DataFrame) :
  NoDup (columns df) -> NoDup (columns (setitem l f df)).
Proof.
  intros H. rewrite setitem_columns. destruct (has_column l df) eqn:Hh; [exact H|].
  apply (Permutation_NoDup (Permutation_cons_append (columns df) l)).
  constructor; [|exact H].
  intros Hin. apply mem_In in Hin. unfold has_column in Hh. congruence.
Qed.

(** After lines 134 to 136 every code is a text. *)
Lemma cleaned_cells_facts (df c : DataFrame) :
  rectangular df ->
  NoDup (columns df) ->
  cleaned_cells df = Ok c ->
  rectangular c
  /\ NoDup (columns c)
  /\ forall r, In r (rows c) -> exists s, cell (columns c) r "iso3" = PStr s.
Proof.
  intros Hrect Hnd. unfold cleaned_cells.
  destruct (assign_from "iso3" "iso3" upper_strip df) as [d1|] eqn:H1;
    cbn [obind]; [|discriminate].
  destruct (assign_from "country_name" "country_name" strip_text d1) as [d2|] eqn:H2;
    cbn [obind]; [|discriminate].
  intros H3.
  pose proof (assign_from_rectangular _ _ _ _ _ Hrect H1) as Hr1.
  pose proof (assign_from_rectangular _ _ _ _ _ Hr1 H2) as Hr2.
  pose proof (assign_from_rectangular _ _ _ _ _ Hr2 H3) as Hr3.
  apply assign_from_inv in H1, H2, H3.
  destruct H1 as [i1 [_ ->]]. destruct H2 as [i2 [_ ->]]. destruct H3 as [i3 [_ ->]].
  split; [exact Hr3|]. split; [now repeat apply setitem_NoDup|].
  intros r Hr.
  rewrite setitem_rows in Hr. apply in_map_iff in Hr. destruct Hr as [r2 [<- Hr]].
  unfold rectangular in Hr2. rewrite Forall_forall in Hr2. pose proof (Hr2 r2 Hr) as Hl2.
  rewrite cell_setitem_other by (try discriminate; assumption).
  rewrite setitem_rows in Hr. apply in_map_iff in Hr. destruct Hr as [r1 [<- Hr]].
  unfold rectangular in Hr1. rewrite Forall_forall in Hr1. pose proof (Hr1 r1 Hr) as Hl1.
  rewrite cell_setitem_other by (try discriminate; assumption).
  rewrite setitem_rows in Hr. apply in_map_iff in Hr. destruct Hr as [r0 [<- Hr]].
  unfold rectangular in Hrect. rewrite Forall_forall in Hrect.
  rewrite cell_setitem_same by auto.
  unfold upper_strip. eexists; reflexivity.
Qed.

Lemma clean_worldbank_df_cells (df out : DataFrame) :
  empty df = false ->
  clean_worldbank_df df = Ok out ->
  exists c d4 d5,
    cleaned_cells df = Ok c
    /\ sort_values "iso3" "year" c = Ok d4
    /\ dropna ["value"] d4 = Ok d5
    /\ groupby_first "iso3" d5 = Ok out.
Proof.
  intros Hne H.
  destruct (clean_worldbank_df_inv df out Hne H) as (d1 & d2 & d3 & d4 & d5 & H1 & H2 & H3 & R).
  exists d3, d4, d5. split; [|exact R].
  unfold cleaned_cells. rewrite H1. cbn [obind]. rewrite H2. cbn [obind]. exact H3.
Qed.

Lemma text_key_eq (a b : pyval) (s t : string) :
  a = PStr s -> b = PStr t -> key_eqb a b = true -> a = b.
Proof.
  intros -> ->. rewrite key_eqb_text. intros H. apply String.eqb_eq in H. now subst.
Qed.

(** C2, as stated, fails: the output row of a code need not be a row of
    the input.  [GroupBy.first] takes, column by column, the first cell
    that is not missing: here the year and the value of the observation of
    2020, and the indicator of the observation of 2019. *)
Lemma latest_row_mixes_two_observations :
  clean_worldbank_df two_years_table = Ok cleaned_two_years
  /\ cleaned_cells two_years_table = Ok cells_of_two_years
  /\ ~ (exists r,
          In r (rows cells_of_two_years)
          /\ forall l, In l (columns cells_of_two_years) ->
               cell (columns cleaned_two_years)
                    [PStr "LAO"; PStr "Lao PDR"; PNum 2020; PStr "SP.POP.TOTL"; PNum 7;
                     PStr "lao pdr"] l
               = cell (columns cells_of_two_years) r l).
Proof.
  split; [reflexivity|]. split; [reflexivity|].
  intros [r [[<-|[<-|[]]] H]].
  - assert (E := H "indicator" ltac:(cbn; auto 10)). discriminate E.
  - assert (E := H "year" ltac:(cbn; auto 10)). discriminate E.
Qed.

(** C2, amended: on a non-empty table (distinct labels, one cell per column
    in each row) the cleaner returns at most one row per code, and a code
    is in the output exactly when one of its input rows has a value.  With
    [c] the input rows after lines 134 to 136, the output row of a code
    has the year and the value, and every cell that is not missing, of a
    row [r] of that code that has a value and the most recent year among
    such rows (a missing year being the oldest); a cell that is missing in
    [r] comes from another row of the code that has a value. *)
Theorem clean_worldbank_df_latest (df out : DataFrame) :
  rectangular df ->
  NoDup (columns df) ->
  empty df = false ->
  clean_worldbank_df df = Ok out ->
  exists c,
    cleaned_cells df = Ok c
    /\ unique_keys (map (fun o => cell (columns out) o "iso3") (rows out))
    /\ (forall o, In o (rows out) ->
        exists r,
          In r (rows c)
          /\ cell (columns out) o "iso3" = cell (columns c) r "iso3"
          /\ isna (cell (columns c) r "value") = false
          /\ (forall r', In r' (rows c) ->
                cell (columns c) r' "iso3" = cell (columns c) r "iso3" ->
                isna (cell (columns c) r' "value") = false ->
                cmp_desc (cell (columns c) r "year") (cell (columns c) r' "year") <> Gt)
          /\ cell (columns out) o "year" = cell (columns c) r "year"
          /\ (forall l, In l (columns c) ->
                isna (cell (columns c) r l) = false ->
                cell (columns out) o l = cell (columns c) r l)
          /\ (forall l, In l (columns c) ->
                exists r', In r' (rows c)
                           /\ cell (columns c) r' "iso3" = cell (columns c) r "iso3"
                           /\ isna (cell (columns c) r' "value") = false
                           /\ cell (columns out) o l = cell (columns c) r' l))
    /\ (forall r, In r (rows c) ->
        isna (cell (columns c) r "value") = false ->
        exists o, In o (rows out)
                  /\ cell (columns out) o "iso3" = cell (columns c) r "iso3").
Proof.
  intros Hrect Hnd Hne Hclean.
  destruct (clean_worldbank_df_cells df out Hne Hclean) as (c & d4 & d5 & Hc & Hs & Hd & Hg).
  destruct (cleaned_cells_facts df c Hrect Hnd Hc) as (Hrc & Hndc & Hiso).
  destruct (sort_values_inv _ _ _ _ Hs) as (i & y & Hi & Hy & Hc4 & Hr4).
  destruct (dropna_inv _ _ _ Hd) as (Hv & Hc5 & Hr5).
  rewrite Hc4 in Hc5. rewrite Hc4, Hr4 in Hr5.
  assert (Hvin : In "value" (columns c)).
  { apply mem_In. unfold has_column in Hv. now rewrite Hc4 in Hv. }
  destruct (positions_NoDup "value" (columns c) Hndc Hvin) as [v Hvpos].
  destruct (groupby_first_inv _ _ _ Hg) as (i' & Hi' & Hco & Hro).
  rewrite Hc5, Hi in Hi'. injection Hi' as <-.
  unfold ncols in Hco, Hro. rewrite Hc5 in Hco, Hro.
  set (cols := columns c) in *.
  set (sorted := stable_sort (le_of (row_cmp i y)) (rows c)) in *.
  set (p := fun r : row => negb (row_has_na cols ["value"] r)) in *.
  set (others := other_positions i (List.length cols)) in *.
  set (F := fun (k : pyval) (j : nat) =>
              first_valid (map (at_pos j) (group_of i k (rows d5)))) in *.
  assert (F1 : forall r, In r sorted <-> In r (rows c)).
  { intros r. split; apply Permutation_in;
      [apply stable_sort_perm|apply Permutation_sym, stable_sort_perm]. }
  assert (F2 : forall r, In r (rows c) -> List.length r = List.length cols).
  { unfold rectangular in Hrc. rewrite Forall_forall in Hrc. exact Hrc. }
  assert (F4 : forall r, In r (rows d5) <-> In r (rows c) /\ isna (at_pos v r) = false).
  { intros r. rewrite Hr5, filter_In, F1. subst p. cbv beta.
    split; intros [Hin H]; split; try exact Hin.
    - rewrite (row_has_na_single cols "value" r v Hvpos (F2 r Hin)) in H.
      now apply negb_true_iff.
    - rewrite (row_has_na_single cols "value" r v Hvpos (F2 r Hin)).
      now apply negb_true_iff. }
  assert (F5 : forall r, In r (rows c) -> exists s, at_pos i r = PStr s).
  { intros r Hr. destruct (Hiso r Hr) as [s Hs']. exists s.
    now rewrite <- (cell_unique cols r "iso3" i Hi). }
  assert (F6 : forall k,
             In k (stable_sort (le_of cmp_asc)
                     (distinct_keys (filter notna (column_at i d5)))) ->
             exists r0, In r0 (rows d5) /\ at_pos i r0 = k).
  { intros k Hk. apply (Permutation_in _ (stable_sort_perm _ _)) in Hk.
    apply in_distinct_keys, filter_In in Hk. destruct Hk as [Hk _].
    unfold column_at in Hk. apply in_map_iff in Hk. destruct Hk as [r0 [E Hr0]].
    now exists r0. }
  assert (Hout0 : forall o, cell (columns out) o "iso3" = at_pos 0 o).
  { intros o. apply cell_unique. now apply (groupby_first_keys _ _ _ Hg). }
  assert (Hposne : forall l j, l <> "iso3" -> positions l cols = [j] ->
             In j others
             /\ label_at cols j = l
             /\ forall j', In j' others -> label_at cols j' = l -> j' = j).
  { intros l j Hl Hj.
    assert (G : In j (positions l cols)) by (rewrite Hj; now left).
    apply positions_spec in G. destruct G as [G1 G2]. split; [|split; [exact G2|]].
    - apply in_other_positions. split; [exact G1|].
      intros ->. assert (G : In i (positions "iso3" cols)) by (rewrite Hi; now left).
      apply positions_spec in G. destruct G as [_ G]. congruence.
    - intros j' Hj' Hl'. apply in_other_positions in Hj'. destruct Hj' as [Hlt _].
      assert (G : In j' (positions l cols)) by (apply positions_spec; auto).
      rewrite Hj in G. destruct G as [G|[]]. congruence. }
  assert (Hcell : forall k l j, l <> "iso3" -> positions l cols = [j] ->
             cell (columns out) (k :: map (F k) others) l = F k j).
  { intros k l j Hl Hj. rewrite Hco, cell_cons.
    destruct (String.eqb_spec "iso3" l) as [E|_]; [congruence|].
    destruct (Hposne l j Hl Hj) as (Hin & Hlab & Hun).
    now apply cell_mapped. }
  exists c. fold cols. split; [exact Hc|]. split; [|split].
  - rewrite (map_ext _ _ Hout0). now apply (groupby_first_keys _ _ _ Hg).
  - intros o Ho. rewrite Hro in Ho. apply in_map_iff in Ho.
    destruct Ho as [k [<- Hk]]. fold others. fold (F k).
    destruct (F6 k Hk) as [r0 [Hr0 Hk0]].
    assert (Hr0g : In r0 (group_of i k (rows d5))).
    { apply filter_In. split; [exact Hr0|]. rewrite Hk0. apply key_eqb_refl. }
    destruct (group_of i k (rows d5)) as [|h t] eqn:Hgrp; [destruct Hr0g|].
    assert (Hh : In h (rows d5) /\ key_eqb (at_pos i h) k = true).
    { apply (proj1 (filter_In (fun r => key_eqb (at_pos i r) k) h (rows d5))).
      fold (group_of i k (rows d5)). rewrite Hgrp. now left. }
    destruct Hh as [Hh5 Hhk]. pose proof (proj1 (F4 h) Hh5) as [Hhc Hhv].
    assert (Hhk' : at_pos i h = k).
    { destruct (F5 h Hhc) as [s Es].
      destruct (F5 r0 (proj1 (proj1 (F4 r0) Hr0))) as [s0 Es0].
      rewrite Hk0 in Es0. exact (text_key_eq _ _ s s0 Es Es0 Hhk). }
    assert (Hlatest : forall x, In x (h :: t) ->
               cmp_desc (at_pos y h) (at_pos y x) <> Gt).
    { apply (group_head_latest i y k p (rows c)). fold sorted.
      rewrite <- Hr5. exact Hgrp. }
    exists h. split; [exact Hhc|].
    rewrite !(cell_unique cols h "iso3" i Hi), (cell_unique cols h "value" v Hvpos),
      (cell_unique cols h "year" y Hy).
    rewrite Hout0. change (at_pos 0 (k :: map (F k) others)) with k.
    split; [now symmetry|]. split; [exact Hhv|]. split; [|split; [|split]].
    + intros r' Hr' Hkr' Hvr'.
      rewrite (cell_unique cols r' "iso3" i Hi) in Hkr'.
      rewrite (cell_unique cols r' "value" v Hvpos) in Hvr'.
      rewrite (cell_unique cols r' "year" y Hy).
      apply Hlatest. rewrite <- Hgrp. apply filter_In. split.
      * apply F4. auto.
      * rewrite Hkr', Hhk'. apply key_eqb_refl.
    + rewrite (Hcell k "year" y) by (try discriminate; assumption).
      unfold F. rewrite Hgrp. cbn [map].
      destruct (isna (at_pos y h)) eqn:Hna.
      * apply first_valid_all_missing. intros z Hz.
        change (at_pos y h :: map (at_pos y) t) with (map (at_pos y) (h :: t)) in Hz.
        apply in_map_iff in Hz. destruct Hz as [x [<- Hx]].
        exact (cmp_desc_missing_first _ _ Hna (Hlatest x Hx)).
      * now apply first_valid_head.
    + intros l Hl Hna.
      destruct (positions_NoDup l cols Hndc Hl) as [j Hj].
      rewrite (cell_unique cols h l j Hj) in *.
      destruct (String.eqb_spec l "iso3") as [->|Hne'].
      * rewrite Hout0. change (at_pos 0 (k :: map (F k) others)) with k.
        rewrite Hi in Hj. now injection Hj as <-.
      * rewrite (Hcell k l j Hne' Hj). unfold F. rewrite Hgrp. cbn [map].
        now apply first_valid_head.
    + intros l Hl.
      destruct (positions_NoDup l cols Hndc Hl) as [j Hj].
      destruct (String.eqb_spec l "iso3") as [->|Hne'].
      * exists h. rewrite Hout0. change (at_pos 0 (k :: map (F k) others)) with k.
        rewrite (cell_unique cols h "value" v Hvpos), (cell_unique cols h "iso3" i Hi).
        repeat split; auto.
      * rewrite (Hcell k l j Hne' Hj). unfold F. rewrite Hgrp. cbn [map].
        pose proof (first_valid_in (at_pos j h) (map (at_pos j) t)) as Hfv.
        change (at_pos j h :: map (at_pos j) t) with (map (at_pos j) (h :: t)) in Hfv.
        apply in_map_iff in Hfv. destruct Hfv as [x [Ex Hx]].
        assert (Hx5 : In x (rows d5) /\ key_eqb (at_pos i x) k = true).
        { apply (proj1 (filter_In (fun r => key_eqb (at_pos i r) k) x (rows d5))).
          fold (group_of i k (rows d5)). now rewrite Hgrp. }
        destruct Hx5 as [Hx5 Hxk]. pose proof (proj1 (F4 x) Hx5) as [Hxc Hxv].
        exists x. rewrite (cell_unique cols x "value" v Hvpos),
          !(cell_unique cols x "iso3" i Hi), (cell_unique cols x l j Hj).
        split; [exact Hxc|]. split; [|split; [exact Hxv|now symmetry]].
        rewrite Hhk'. destruct (F5 x Hxc) as [sx Esx].
        destruct (F5 h Hhc) as [sh Esh]. rewrite Hhk' in Esh.
        exact (text_key_eq _ _ sx sh Esx Esh Hxk).
  - intros r Hr Hvr. rewrite (cell_unique cols r "value" v Hvpos) in Hvr.
    rewrite (cell_unique cols r "iso3" i Hi).
    assert (Hr5' : In r (rows d5)) by (apply F4; auto).
    destruct (F5 r Hr) as [s Es].
    assert (Hin : In (at_pos i r) (filter notna (column_at i d5))).
    { apply filter_In. split; [now apply in_map|]. now rewrite Es. }
    destruct (distinct_keys_complete _ _ Hin) as [k [Hk Hkr]].
    assert (Hk' : In k (stable_sort (le_of cmp_asc)
                          (distinct_keys (filter notna (column_at i d5)))))
      by (apply (Permutation_in _ (Permutation_sym (stable_sort_perm _ _))); exact Hk).
    exists (k :: map (F k) others). split.
    + rewrite Hro. apply in_map_iff. exists k. split; [reflexivity|exact Hk'].
    + rewrite Hout0. change (at_pos 0 (k :: map (F k) others)) with k.
      destruct (F6 k Hk') as [r0 [Hr0 Hk0]].
      destruct (F5 r0 (proj1 (proj1 (F4 r0) Hr0))) as [s0 Es0].
      rewrite Hk0 in Es0. exact (text_key_eq _ _ s0 s Es0 Es Hkr).
Qed.

Lemma clean_worldbank_df_latest_witness :
  exists c,
    cleaned_cells two_years_table = Ok c
    /\ unique_keys (map (fun o => cell (columns cleaned_two_years) o "iso3")
                        (rows cleaned_two_years)).
Proof.
  destruct (clean_worldbank_df_latest two_years_table cleaned_two_years) as [c [H1 [H2 _]]].
  - repeat constructor.
  - repeat constructor; cbn; intuition discriminate.
  - reflexivity.
  - reflexivity.
  - exists c. split; [exact H1|exact H2].
Defined.

(** * Further properties *)

(** ** The form of a normalized name *)

Lemma sfilter_fixed (p : ascii -> bool) (s : string) :
  Text.sfilter p s = s <-> sforall p s = true.
Proof.
  induction s as [|c s IH]; cbn [Text.sfilter sforall]; [tauto|].
  destruct (p c) eqn:E; cbn [andb].
  - rewrite <- IH. split; [now intros H; injection H|now intros ->].
  - split; [|discriminate]. intros H.
    assert (L := sfilter_length p s). rewrite H in L. cbn in L. lia.
Qed.

Lemma sforall_lstrip (p : ascii -> bool) (s : string) :
  sforall p s = true -> sforall p (Text.lstrip s) = true.
Proof.
  induction s as [|c s IH]; cbn [Text.lstrip sforall]; [trivial|].
  intros H. apply andb_prop in H. destruct H as [Hc Hs].
  destruct (Text.is_space c); [auto|]. cbn [sforall]. now rewrite Hc, Hs.
Qed.

Lemma sforall_rstrip (p : ascii -> bool) (s : string) :
  sforall p s = true -> sforall p (Text.rstrip s) = true.
Proof.
  induction s as [|c s IH]; cbn [Text.rstrip sforall]; [trivial|].
  intros H. apply andb_prop in H. destruct H as [Hc Hs]. specialize (IH Hs).
  destruct (Text.rstrip s) as [|a t].
  - destruct (Text.is_space c); cbn [sforall]; [trivial|now rewrite Hc].
  - change (sforall p (String c (String a t))) with (p c && sforall p (String a t)).
    now rewrite Hc, IH.
Qed.

Lemma collapse_from_length (b : bool) (s : string) :
  String.length (Text.collapse_from b s) <= String.length s.
Proof.
  revert b. induction s as [|c s IH]; intros b; cbn [Text.collapse_from String.length]; [lia|].
  destruct (Text.is_space c); [destruct b|]; cbn [String.length];
    first [specialize (IH true); lia | specialize (IH false); lia].
Qed.

Lemma collapse_from_fixed (s : string) :
  forall b, Text.collapse_from b s = s <-> single_spaced b s = true.
Proof.
  induction s as [|c s IH]; intros b; cbn [Text.collapse_from single_spaced]; [tauto|].
  destruct (Text.is_space c) eqn:E.
  - destruct b; cbn [negb andb].
    + split; [|discriminate]. intros H.
      assert (L := collapse_from_length true s). rewrite H in L. cbn in L. lia.
    + split.
      * intros H. injection H as Hc Hs. rewrite <- Hc. cbn [Ascii.eqb].
        apply (IH true) in Hs. rewrite Hs. reflexivity.
      * intros H. apply andb_prop in H. destruct H as [Hc Hs].
        apply Ascii.eqb_eq in Hc. subst c. apply (IH true) in Hs. now rewrite Hs.
  - rewrite <- IH. split; [now intros H; injection H|now intros ->].
Qed.

Lemma single_spaced_lstrip (s : string) :
  forall b, single_spaced b s = true -> single_spaced false (Text.lstrip s) = true.
Proof.
  induction s as [|c s IH]; intros b; cbn [Text.lstrip single_spaced]; [trivial|].
  destruct (Text.is_space c) eqn:E.
  - intros H. apply andb_prop in H. destruct H as [_ Hs]. now apply (IH true).
  - intros H. cbn [single_spaced]. now rewrite E.
Qed.

Lemma single_spaced_rstrip (s : string) :
  forall b, single_spaced b s = true -> single_spaced b (Text.rstrip s) = true.
Proof.
  induction s as [|c s IH]; intros b; cbn [Text.rstrip single_spaced]; [trivial|].
  destruct (Text.is_space c) eqn:E.
  - intros H. apply andb_prop in H. destruct H as [Hc Hs]. specialize (IH true Hs).
    destruct (Text.rstrip s) as [|a t]; [reflexivity|].
    change (single_spaced b (String c (String a t)))
      with (if Text.is_space c
            then negb b && (c =? " ")%char && single_spaced true (String a t)
            else single_spaced false (String a t)).
    now rewrite E, Hc, IH.
  - intros Hs. specialize (IH false Hs).
    destruct (Text.rstrip s) as [|a t].
    + cbn [single_spaced]. now rewrite E.
    + change (single_spaced b (String c (String a t)))
        with (if Text.is_space c
              then negb b && (c =? " ")%char && single_spaced true (String a t)
              else single_spaced false (String a t)).
      now rewrite E, IH.
Qed.

Lemma lstrip_length (s : string) : String.length (Text.lstrip s) <= String.length s.
Proof.
  induction s as [|c s IH]; cbn [Text.lstrip String.length]; [lia|].
  destruct (Text.is_space c); cbn [String.length]; lia.
Qed.

Lemma lstrip_idem (s : string) : Text.lstrip (Text.lstrip s) = Text.lstrip s.
Proof.
  induction s as [|c s IH]; cbn [Text.lstrip]; [reflexivity|].
  destruct (Text.is_space c) eqn:E; [exact IH|]. cbn [Text.lstrip]. now rewrite E.
Qed.

Lemma rstrip_idem (s : string) : Text.rstrip (Text.rstrip s) = Text.rstrip s.
Proof.
  induction s as [|c s IH]; cbn [Text.rstrip]; [reflexivity|].
  destruct (Text.rstrip s) as [|a t] eqn:Et.
  - destruct (Text.is_space c) eqn:E; cbn [Text.rstrip]; [reflexivity|now rewrite E].
  - change (Text.rstrip (String c (String a t)))
      with (match Text.rstrip (String a t) with
            | EmptyString => if Text.is_space c then EmptyString else String c EmptyString
            | String _ _ as u => String c u
            end).
    now rewrite IH.
Qed.

Lemma lstrip_rstrip (s : string) :
  Text.lstrip s = s -> Text.lstrip (Text.rstrip s) = Text.rstrip s.
Proof.
  destruct s as [|c s]; [reflexivity|]. cbn [Text.lstrip].
  destruct (Text.is_space c) eqn:E.
  - intros H. assert (L := lstrip_length s). rewrite H in L. cbn in L. lia.
  - intros _. cbn [Text.rstrip].
    destruct (Text.rstrip s); [rewrite E|]; cbn [Text.lstrip]; now rewrite E.
Qed.

Lemma strip_idem (s : string) : Text.strip (Text.strip s) = Text.strip s.
Proof.
  unfold Text.strip.
  rewrite (lstrip_rstrip (Text.lstrip s) (lstrip_idem s)). apply rstrip_idem.
Qed.

Lemma alias_values_form (k v : string) :
  In (k, v) aliases ->
  Text.lower v = v /\ Text.drop_punct v = v /\ Text.collapse_ws v = v /\ Text.strip v = v.
Proof.
  unfold aliases. simpl In. intros H.
  repeat (destruct H as [H|H]; [inversion H; subst; repeat split; reflexivity|]).
  destruct H.
Qed.

Lemma normalize_text_form (s : string) :
  Text.lower (normalize_text s) = normalize_text s
  /\ Text.drop_punct (normalize_text s) = normalize_text s
  /\ Text.collapse_ws (normalize_text s) = normalize_text s.
Proof.
  pose (u := Text.collapse_ws (Text.drop_punct (Text.lower (Text.strip s)))).
  assert (Ht : normalize_text s = alias_of u) by reflexivity.
  rewrite Ht. unfold alias_of.
  destruct (assoc aliases u) as [v|] eqn:Ea.
  - destruct (alias_values_form u v (assoc_in _ _ _ Ea)) as (H1 & H2 & H3 & _). auto.
  - subst u. unfold Text.collapse_ws. repeat split.
    + now rewrite lower_collapse_from, lower_drop_punct, lower_idem.
    + apply drop_punct_collapse_from, drop_punct_idem.
    + apply (collapse_from_idem _ false).
Qed.

(** A text in normal form, once trimmed, is still in normal form. *)
Lemma strip_keeps_form (t : string) :
  Text.lower t = t -> Text.drop_punct t = t -> Text.collapse_ws t = t ->
  Text.collapse_ws (Text.drop_punct (Text.lower (Text.strip t))) = Text.strip t.
Proof.
  intros Hl Hp Hc. rewrite lower_strip, Hl.
  assert (Hp' : Text.drop_punct (Text.strip t) = Text.strip t).
  { unfold Text.drop_punct in *. apply sfilter_fixed. unfold Text.strip.
    apply sforall_rstrip, sforall_lstrip. now apply sfilter_fixed. }
  rewrite Hp'. unfold Text.collapse_ws in *. apply collapse_from_fixed.
  unfold Text.strip. apply single_spaced_rstrip.
  apply (single_spaced_lstrip t false). now apply collapse_from_fixed.
Qed.

Lemma normalize_text_twice_trimmed (s : string) :
  Text.strip (normalize_text (normalize_text s)) = normalize_text (normalize_text s).
Proof.
  destruct (normalize_text_form s) as (Hl & Hp & Hc).
  set (t := normalize_text s) in *.
  assert (E : normalize_text t = alias_of (Text.strip t)).
  { unfold normalize_text. cbv zeta. now rewrite strip_keeps_form. }
  rewrite E. unfold alias_of.
  destruct (assoc aliases (Text.strip t)) as [v|] eqn:Ea.
  - now destruct (alias_values_form _ v (assoc_in _ _ _ Ea)) as (_ & _ & _ & H).
  - apply strip_idem.
Qed.




(** X2. A third call of [normalize_country_name] changes nothing: the
    result of two calls is a fixed point of the function, whatever the
    input. *)
Theorem normalize_country_name_stable_after_two (x : pyval) :
  normalize_country_name (normalize_country_name (normalize_country_name x))
  = normalize_country_name (normalize_country_name x).
Proof.
  destruct (isna x) eqn:E.
  - assert (H : normalize_country_name x = x).
    { unfold normalize_country_name. now rewrite E. }
    now rewrite !H.
  - assert (H : normalize_country_name x = PStr (normalize_text (PyStr.str x))).
    { unfold normalize_country_name. now rewrite E. }
    rewrite H, !normalize_country_name_text. f_equal.
    apply normalize_text_idempotent_when_trimmed, normalize_text_twice_trimmed.
Qed.

(** X3. Two names that differ only in letter case and in whitespace at
    their ends get the same key. *)
Theorem normalize_country_name_case_and_padding (s s' pre post : string) :
  Text.lower s' = Text.lower s ->
  blank pre = true ->
  blank post = true ->
  normalize_country_name (PStr (pre ++ s' ++ post)) = normalize_country_name (PStr s).
Proof.
  intros Hl Hpre Hpost. rewrite !normalize_country_name_text. f_equal.
  unfold normalize_text. cbv zeta.
  now rewrite strip_padding, !lower_strip, Hl.
Qed.

Lemma normalize_country_name_case_and_padding_witness :
  normalize_country_name (PStr "  VIET nam ") = normalize_country_name (PStr "Viet Nam").
Proof.
  apply (normalize_country_name_case_and_padding "Viet Nam" "VIET nam" "  " " ");
    reflexivity.
Defined.

(** ** The mapping of the headers *)

Lemma standardize_step_cases (cl : string) (m : mapping) (c : string) :
  (if mem cl country_synonyms && negb (mem "country_name" (values m))
   then dict_set m c "country_name"
   else if mem cl region_synonyms && negb (mem "region" (values m))
   then dict_set m c "region"
   else if mem cl iso3_synonyms && negb (mem "iso3" (values m))
   then dict_set m c "iso3"
   else if mem cl subregion_synonyms && negb (mem "subregion" (values m))
   then dict_set m c "subregion"
   else m)
  = match find (fun v => mem cl (synonyms_of v)) canonical_names with
    | Some v => if mem v (values m) then m else dict_set m c v
    | None => m
    end.
Proof.
  remember (mem "country_name" (values m)) as b1.
  remember (mem "region" (values m)) as b2.
  remember (mem "iso3" (values m)) as b3.
  remember (mem "subregion" (values m)) as b4.
  assert (S1 : synonyms_of "country_name" = country_synonyms) by reflexivity.
  assert (S2 : synonyms_of "region" = region_synonyms) by reflexivity.
  assert (S3 : synonyms_of "iso3" = iso3_synonyms) by reflexivity.
  assert (S4 : synonyms_of "subregion" = subregion_synonyms) by reflexivity.
  unfold canonical_names. cbn [find]. rewrite S1, S2, S3, S4.
  destruct (mem cl country_synonyms) eqn:E1.
  { rewrite <- Heqb1. destruct b1; cbn [andb negb]; [|reflexivity].
    apply mem_In in E1. cbn in E1.
    destruct E1 as [<-|[<-|[<-|[<-|[]]]]]; reflexivity. }
  cbn [andb].
  destruct (mem cl region_synonyms) eqn:E2.
  { rewrite <- Heqb2. destruct b2; cbn [andb negb]; [|reflexivity].
    apply mem_In in E2. cbn in E2.
    destruct E2 as [<-|[<-|[]]]; reflexivity. }
  cbn [andb].
  destruct (mem cl iso3_synonyms) eqn:E3.
  { rewrite <- Heqb3. destruct b3; cbn [andb negb]; [|reflexivity].
    apply mem_In in E3. cbn in E3.
    destruct E3 as [<-|[<-|[<-|[<-|[<-|[<-|[]]]]]]]; reflexivity. }
  cbn [andb].
  destruct (mem cl subregion_synonyms) eqn:E4.
  { rewrite <- Heqb4. destruct b4; reflexivity. }
  reflexivity.
Qed.

Lemma standardize_step_spec (m : mapping) (c : string) :
  standardize_step m c
  = match canonical_of c with
    | Some v => if mem v (values m) then m else dict_set m c v
    | None => m
    end.
Proof.
  apply standardize_step_cases.
Qed.

Lemma synonyms_disjoint (cl v v' : string) :
  In v canonical_names -> In v' canonical_names ->
  mem cl (synonyms_of v) = true -> mem cl (synonyms_of v') = true -> v = v'.
Proof.
  unfold canonical_names. cbn [In].
  intros [<-|[<-|[<-|[<-|[]]]]] [<-|[<-|[<-|[<-|[]]]]] H H'; try reflexivity;
    apply mem_In in H; cbn in H;
    repeat (destruct H as [H|H]; [subst cl; discriminate H'|]); destruct H.
Qed.

Lemma canonical_of_iff (c v : string) :
  canonical_of c = Some v
  <-> In v canonical_names /\ mem (Text.lower (Text.strip c)) (synonyms_of v) = true.
Proof.
  unfold canonical_of. split.
  - intros H. apply find_some in H. exact H.
  - intros [Hv Hm].
    destruct (find (fun v0 => mem (Text.lower (Text.strip c)) (synonyms_of v0))
                   canonical_names) as [w|] eqn:E.
    + apply find_some in E. destruct E as [Hw Hm'].
      f_equal. exact (synonyms_disjoint _ _ _ Hw Hv Hm' Hm).
    + apply (find_none _ _ E) in Hv. congruence.
Qed.

Lemma dict_set_new (m : mapping) (c v : string) :
  ~ In c (map fst m) -> dict_set m c v = m ++ [(c, v)].
Proof.
  induction m as [|[k w] m IH]; cbn [dict_set map fst In app]; [reflexivity|].
  intros H. destruct (String.eqb_spec k c) as [->|Hk]; [tauto|].
  f_equal. apply IH. tauto.
Qed.

Lemma mapping_of_step (seen : list string) (m : mapping) (c : string) :
  mapping_of seen m ->
  mapping_of (seen ++ [c]) (standardize_step m c)
  /\ (standardize_step m c = m
      \/ exists v, canonical_of c = Some v /\ ~ In v (values m)
                   /\ standardize_step m c = m ++ [(c, v)]).
Proof.
  intros [Hk Hv Hs Hc]. rewrite standardize_step_spec.
  assert (Hweak : mapping_of (seen ++ [c]) m
                  \/ exists v, canonical_of c = Some v /\ ~ In v (values m)).
  { destruct (canonical_of c) as [v|] eqn:E.
    - destruct (mem v (values m)) eqn:Ev.
      + left. apply mem_In in Ev. split; trivial.
        * intros k w H. destruct (Hs k w H). split; [apply in_or_app|]; auto.
        * intros k w H Hcan. apply in_app_or in H. destruct H as [H|[<-|[]]]; eauto.
          rewrite E in Hcan. now inversion Hcan; subst.
      + right. exists v. split; trivial. intros H. apply mem_In in H. congruence.
    - left. split; trivial.
      + intros k w H. destruct (Hs k w H). split; [apply in_or_app|]; auto.
      + intros k w H Hcan. apply in_app_or in H. destruct H as [H|[<-|[]]]; eauto.
        congruence. }
  destruct (canonical_of c) as [v|] eqn:E; [|destruct Hweak as [H|(v & H & _)];
    [auto|discriminate]].
  destruct (mem v (values m)) eqn:Ev.
  - destruct Hweak as [H|(v' & H & Hn)]; [auto|].
    inversion H; subst v'. apply mem_In in Ev. tauto.
  - assert (Hnv : ~ In v (values m)).
    { intros H. apply mem_In in H. congruence. }
    assert (Hnk : ~ In c (map fst m)).
    { intros H. apply in_map_iff in H. destruct H as ([k w] & Hkc & Hin).
      cbn in Hkc. subst k. destruct (Hs c w Hin) as [_ Hcw].
      rewrite E in Hcw. inversion Hcw; subst w.
      apply Hnv. unfold values. apply in_map_iff. now exists (c, v). }
    rewrite (dict_set_new m c v Hnk). split; [|right; exists v; auto].
    split.
    + rewrite map_app. cbn [map fst]. apply NoDup_app; trivial.
      * repeat constructor. intros [].
      * intros a Ha [<-|[]]. tauto.
    + unfold values. rewrite map_app. cbn [map snd]. apply NoDup_app; trivial.
      * repeat constructor. intros [].
      * intros a Ha [<-|[]]. tauto.
    + intros k w H. apply in_app_or in H. destruct H as [H|[H|[]]].
      * destruct (Hs k w H). split; [apply in_or_app|]; auto.
      * inversion H; subst. split; [apply in_or_app; cbn|]; auto.
    + intros k w H Hcan. unfold values. rewrite map_app. apply in_or_app.
      apply in_app_or in H. destruct H as [H|[<-|[]]].
      * left. exact (Hc k w H Hcan).
      * right. rewrite E in Hcan. inversion Hcan. now left.
Qed.

Lemma mapping_of_fold (cols seen : list string) (m : mapping) :
  mapping_of seen m ->
  mapping_of (seen ++ cols) (fold_left standardize_step cols m)
  /\ incl m (fold_left standardize_step cols m).
Proof.
  revert seen m. induction cols as [|c cols IH]; intros seen m H; cbn [fold_left].
  - rewrite app_nil_r. split; [exact H|apply incl_refl].
  - destruct (mapping_of_step seen m c H) as [H' Hstep].
    destruct (IH (seen ++ [c]) _ H') as [H1 H2].
    rewrite <- app_assoc in H1. cbn [app] in H1. split; [exact H1|].
    intros e He. apply H2.
    destruct Hstep as [->|(v & _ & _ & ->)]; [exact He|apply in_or_app; now left].
Qed.

Lemma mapping_of_nil : mapping_of [] [].
Proof.
  split; cbn; try constructor; intros; tauto.
Qed.

Lemma standardize_colnames_mapping (cols : list string) :
  mapping_of cols (standardize_colnames cols).
Proof.
  exact (proj1 (mapping_of_fold cols [] [] mapping_of_nil)).
Qed.

Lemma assoc_NoDup (m : mapping) (k v : string) :
  NoDup (map fst m) -> In (k, v) m -> assoc m k = Some v.
Proof.
  induction m as [|[k' w] m IH]; cbn [map fst In assoc]; [tauto|].
  intros Hn [H|H].
  - inversion H; subst. now rewrite String.eqb_refl.
  - inversion Hn; subst. destruct (String.eqb_spec k' k) as [->|_].
    + exfalso. apply H2. apply in_map_iff. now exists (k, v).
    + auto.
Qed.

Lemma values_NoDup_key (m : mapping) (k k' v : string) :
  NoDup (values m) -> In (k, v) m -> In (k', v) m -> k = k'.
Proof.
  unfold values. induction m as [|[a w] m IH]; cbn [map snd In]; [tauto|].
  intros Hn H H'. inversion Hn; subst.
  destruct H as [H|H], H' as [H'|H'].
  - congruence.
  - inversion H; subst. exfalso. apply H2. apply in_map_iff. now exists (k', v).
  - inversion H'; subst. exfalso. apply H2. apply in_map_iff. now exists (k, v).
  - auto.
Qed.

(** X4. The mapping [standardize_colnames] returns is one to one: no
    header is in it twice, no canonical name is given to two headers, and
    a header in it is one of the headers given, renamed to the canonical
    name whose synonyms hold it once trimmed and lowercased. *)
Theorem standardize_colnames_one_to_one (cols : list string) :
  NoDup (map fst (standardize_colnames cols))
  /\ NoDup (values (standardize_colnames cols))
  /\ forall k v, In (k, v) (standardize_colnames cols) ->
       In k cols /\ In v canonical_names
       /\ mem (Text.lower (Text.strip k)) (synonyms_of v) = true.
Proof.
  destruct (standardize_colnames_mapping cols) as [Hk Hv Hs _].
  repeat split; trivial; destruct (Hs k v H) as [Hin Hcan]; trivial;
    apply canonical_of_iff in Hcan; tauto.
Qed.

Lemma standardize_colnames_first (pre post : list string) (c v : string) :
  canonical_of c = Some v ->
  (forall k, In k pre -> canonical_of k <> Some v) ->
  In (c, v) (standardize_colnames (pre ++ c :: post)).
Proof.
  intros Hc Hpre. unfold standardize_colnames.
  rewrite fold_left_app. cbn [fold_left].
  destruct (mapping_of_fold pre [] [] mapping_of_nil) as [Hm _]. cbn [app] in Hm.
  set (m := fold_left standardize_step pre []) in *.
  destruct (mapping_of_step pre m c Hm) as [Hm' Hstep].
  destruct (mapping_of_fold post (pre ++ [c]) _ Hm') as [_ Hincl].
  apply Hincl. destruct Hstep as [E|(v' & Hv' & _ & ->)].
  - exfalso. destruct Hm' as [_ _ Hs' Hc'].
    assert (Hin : In v (values (standardize_step m c))).
    { apply (Hc' c v); [apply in_or_app; right; now left|exact Hc]. }
    rewrite E in Hin. unfold values in Hin. apply in_map_iff in Hin.
    destruct Hin as ([k w] & Hw & Hin). cbn in Hw. subst w.
    destruct Hm as [_ _ Hs _]. destruct (Hs k v Hin) as [Hk Hcan].
    exact (Hpre k Hk Hcan).
  - rewrite Hc in Hv'. inversion Hv'; subst v'. apply in_or_app. right. now left.
Qed.

Lemma standardize_colnames_first_facts (pre post : list string) (c v : string) :
  In v canonical_names ->
  mem (Text.lower (Text.strip c)) (synonyms_of v) = true ->
  (forall k, In k pre -> mem (Text.lower (Text.strip k)) (synonyms_of v) = false) ->
  let m := standardize_colnames (pre ++ c :: post) in
  assoc m c = Some v
  /\ (forall k, In (k, v) m -> k = c)
  /\ (forall k, In k post -> k <> c ->
        mem (Text.lower (Text.strip k)) (synonyms_of v) = true -> assoc m k = None).
Proof.
  intros Hv Hc Hpre m.
  assert (Hcan : canonical_of c = Some v) by (apply canonical_of_iff; auto).
  assert (Hin : In (c, v) m).
  { apply standardize_colnames_first; trivial.
    intros k Hk H. apply canonical_of_iff in H. destruct H as [_ H].
    rewrite (Hpre k Hk) in H. discriminate. }
  destruct (standardize_colnames_mapping (pre ++ c :: post)) as [Hk Hvs Hs _].
  fold m in Hk, Hvs, Hs.
  assert (Huniq : forall k, In (k, v) m -> k = c).
  { intros k H. exact (values_NoDup_key m k c v Hvs H Hin). }
  repeat split; trivial.
  - now apply assoc_NoDup.
  - intros k _ Hne Hm. destruct (assoc m k) as [w|] eqn:E; [|reflexivity].
    apply assoc_in in E. destruct (Hs k w E) as [_ Hcw].
    assert (Hkv : canonical_of k = Some v) by (apply canonical_of_iff; auto).
    rewrite Hkv in Hcw. inversion Hcw; subst w. elim Hne. now apply Huniq.
Qed.

(** X5. Of the headers that stand for one canonical name, the first is
    renamed to it and no other is: it is the only header the mapping sends
    to that name, and a later header with the same canonical name is not
    in the mapping. *)
Theorem standardize_colnames_first_match (pre post : list string) (c v : string) :
  In v canonical_names ->
  mem (Text.lower (Text.strip c)) (synonyms_of v) = true ->
  (forall k, In k pre -> mem (Text.lower (Text.strip k)) (synonyms_of v) = false) ->
  let m := standardize_colnames (pre ++ c :: post) in
  assoc m c = Some v
  /\ (forall k, In (k, v) m -> k = c)
  /\ (forall k, In k post -> k <> c ->
        mem (Text.lower (Text.strip k)) (synonyms_of v) = true -> assoc m k = None).
Proof.
  apply standardize_colnames_first_facts.
Qed.

Lemma standardize_colnames_first_match_witness :
  let m := standardize_colnames ["Region"; " Alpha-3 "; "ISO3"; "name"] in
  assoc m " Alpha-3 " = Some "iso3"
  /\ (forall k, In (k, "iso3") m -> k = " Alpha-3 ")
  /\ (forall k, In k ["ISO3"; "name"] -> k <> " Alpha-3 " ->
        mem (Text.lower (Text.strip k)) (synonyms_of "iso3") = true -> assoc m k = None).
Proof.
  apply (standardize_colnames_first_match ["Region"] ["ISO3"; "name"] " Alpha-3 " "iso3").
  - cbn. tauto.
  - reflexivity.
  - intros k [<-|[]]. reflexivity.
Defined.

(** ** The reference cleaner, every outcome *)

Lemma setitem_nrows (l : string) (f : row -> pyval) (df : DataFrame) :
  nrows (setitem l f df) = nrows df.
Proof.
  unfold nrows. rewrite setitem_rows. apply length_map.
Qed.

Lemma series_position_cases (l : string) (df : DataFrame) :
  has_column l df = true ->
  (exists i, positions l (columns df) = [i] /\ series_position l df = Ok i)
  \/ (1 < List.length (positions l (columns df))
      /\ series_position l df = Raise AttributeError).
Proof.
  intros H. unfold series_position.
  destruct (positions l (columns df)) as [|i [|i' t]] eqn:E.
  - exfalso. apply (positions_nonempty l (columns df)); [|exact E].
    now apply mem_In.
  - left. now exists i.
  - right. cbn. split; [lia|reflexivity].
Qed.

Lemma assign_from_cases (src dst : string) (f : pyval -> pyval) (df : DataFrame) :
  has_column src df = true ->
  (exists i, positions src (columns df) = [i]
             /\ assign_from src dst f df = Ok (setitem dst (fun r => f (at_pos i r)) df))
  \/ (1 < List.length (positions src (columns df))
      /\ assign_from src dst f df = Raise AttributeError).
Proof.
  intros H. unfold assign_from.
  destruct (series_position_cases src df H) as [(i & Hi & ->)|(Hn & ->)]; cbn [obind].
  - left. now exists i.
  - now right.
Qed.

Lemma setitem_same_columns (l : string) (f : row -> pyval) (df : DataFrame) :
  has_column l df = true -> columns (setitem l f df) = columns df.
Proof.
  intros H. rewrite setitem_columns. now rewrite H.
Qed.

Lemma assign_from_at (src dst : string) (f : pyval -> pyval) (df : DataFrame) (i : nat) :
  positions src (columns df) = [i] ->
  assign_from src dst f df = Ok (setitem dst (fun r => f (at_pos i r)) df).
Proof.
  intros H. unfold assign_from, series_position. now rewrite H.
Qed.

Lemma assign_from_dup (src dst : string) (f : pyval -> pyval) (df : DataFrame)
    (i i' : nat) (t : list nat) :
  positions src (columns df) = i :: i' :: t ->
  assign_from src dst f df = Raise AttributeError.
Proof.
  intros H. unfold assign_from, series_position. now rewrite H.
Qed.

Lemma has_column_positions_nil (l : string) (df : DataFrame) :
  positions l (columns df) = [] -> has_column l df = false.
Proof.
  intros H. destruct (has_column l df) eqn:E; [|reflexivity].
  apply mem_In in E. apply positions_nonempty in E. now elim E.
Qed.

(** The outcome of [clean_countries_csv], from the positions of the two
    canonical headers it reads. *)
Lemma clean_countries_csv_steps (df : DataFrame) :
  empty df = false ->
  let d0 := rename_columns (standardize_colnames (columns df)) df in
  match positions "iso3" (columns d0), positions "country_name" (columns d0) with
  | _ :: _ :: _, _ => clean_countries_csv df = Raise AttributeError
  | _, _ :: _ :: _ => clean_countries_csv df = Raise AttributeError
  | pi, pn =>
      let a := match pi with
               | [i] => setitem "iso3" (fun r => upper_strip (at_pos i r)) d0
               | _ => d0
               end in
      clean_countries_csv df
      = Ok match pn with
           | [j] =>
               let b := setitem "country_name" (fun r => strip_text (at_pos j r)) a in
               setitem "_country_norm" (fun r => normalize_country_name (at_pos j r)) b
           | _ => setitem "_country_norm" (fun _ => PNone) a
           end
  end.
Proof.
  intros Hne d0. unfold clean_countries_csv. rewrite Hne. fold d0.
  assert (Hgen : forall a, columns a = columns d0 ->
    match positions "country_name" (columns d0) with
    | [] | [_] =>
        (if has_column "country_name" a
         then (df2 <- assign_from "country_name" "country_name" strip_text a ;;
               assign_from "country_name" "_country_norm" normalize_country_name df2)%outcome
         else Ok (setitem "_country_norm" (fun _ => PNone) a))
        = Ok match positions "country_name" (columns d0) with
             | [j] =>
                 let b := setitem "country_name" (fun r => strip_text (at_pos j r)) a in
                 setitem "_country_norm" (fun r => normalize_country_name (at_pos j r)) b
             | _ => setitem "_country_norm" (fun _ => PNone) a
             end
    | _ =>
        (if has_column "country_name" a
         then (df2 <- assign_from "country_name" "country_name" strip_text a ;;
               assign_from "country_name" "_country_norm" normalize_country_name df2)%outcome
         else Ok (setitem "_country_norm" (fun _ => PNone) a))
        = Raise AttributeError
    end).
  { intros a Ha. rewrite <- Ha.
    destruct (positions "country_name" (columns a)) as [|j [|j' t']] eqn:Ej.
    - now rewrite (has_column_positions_nil _ _ Ej).
    - rewrite (positions_has_column _ _ _ _ Ej).
      rewrite (assign_from_at _ _ _ a j Ej). cbn [obind].
      apply assign_from_at.
      rewrite setitem_same_columns by exact (positions_has_column _ _ _ _ Ej).
      exact Ej.
    - rewrite (positions_has_column _ _ _ _ Ej).
      now rewrite (assign_from_dup _ _ _ a j j' t' Ej). }
  destruct (positions "iso3" (columns d0)) as [|i [|i' t]] eqn:Ei.
  - rewrite (has_column_positions_nil _ _ Ei). cbn [obind].
    specialize (Hgen d0 eq_refl).
    destruct (positions "country_name" (columns d0)) as [|j [|j' t']]; exact Hgen.
  - rewrite (positions_has_column _ _ _ _ Ei).
    rewrite (assign_from_at _ _ _ d0 i Ei). cbn [obind].
    specialize (Hgen (setitem "iso3" (fun r => upper_strip (at_pos i r)) d0)
                     (setitem_same_columns _ _ _ (positions_has_column _ _ _ _ Ei))).
    destruct (positions "country_name" (columns d0)) as [|j [|j' t']]; exact Hgen.
  - rewrite (positions_has_column _ _ _ _ Ei).
    now rewrite (assign_from_dup _ _ _ d0 i i' t Ei).
Qed.

Lemma positions_from_twice (l : string) (a b c : list string) (n : nat) :
  exists i i' t, positions_from n l (a ++ l :: b ++ l :: c) = i :: i' :: t.
Proof.
  assert (H : 2 <= List.length (positions_from n l (a ++ l :: b ++ l :: c))).
  { rewrite positions_from_app. cbn [positions_from]. rewrite String.eqb_refl.
    rewrite positions_from_app. cbn [positions_from]. rewrite String.eqb_refl.
    rewrite length_app. cbn [List.length]. rewrite length_app. cbn [List.length]. lia. }
  destruct (positions_from n l (a ++ l :: b ++ l :: c)) as [|i [|i' t]];
    cbn in H; try lia. now exists i, i', t.
Qed.

Lemma clean_countries_csv_result (df : DataFrame) :
  empty df = false ->
  let cols := columns (rename_columns (standardize_colnames (columns df)) df) in
  if (List.length (positions "iso3" cols) <=? 1)%nat
     && (List.length (positions "country_name" cols) <=? 1)%nat
  then exists c,
         clean_countries_csv df = Ok c
         /\ nrows c = nrows df
         /\ columns c = if mem "_country_norm" cols then cols
                        else cols ++ ["_country_norm"]
  else clean_countries_csv df = Raise AttributeError.
Proof.
  intros Hne cols. assert (H := clean_countries_csv_steps df Hne). cbv zeta in H.
  fold cols in H.
  set (d0 := rename_columns (standardize_colnames (columns df)) df) in *.
  assert (Hn0 : nrows d0 = nrows df) by reflexivity.
  destruct (positions "iso3" cols) as [|i [|i' t]] eqn:Ei;
    destruct (positions "country_name" cols) as [|j [|j' t']] eqn:Ej;
    cbn [List.length Nat.leb andb]; trivial.
  all: eexists; split; [exact H|]; split; rewrite ?setitem_nrows; trivial.
  all: rewrite setitem_columns; unfold has_column.
  - reflexivity.
  - rewrite (setitem_same_columns "country_name" _ d0 (positions_has_column _ _ _ _ Ej)).
    reflexivity.
  - rewrite (setitem_same_columns "iso3" _ d0 (positions_has_column _ _ _ _ Ei)).
    reflexivity.
  - assert (Ha : columns (setitem "iso3" (fun r => upper_strip (at_pos i r)) d0) = cols)
      by exact (setitem_same_columns "iso3" _ d0 (positions_has_column _ _ _ _ Ei)).
    rewrite setitem_same_columns; rewrite ?Ha; [reflexivity|].
    unfold has_column. rewrite Ha. exact (positions_has_column _ _ _ _ Ej).
Qed.

(** X6. On a table that is not empty, [clean_countries_csv] succeeds
    exactly when, after the renaming, at most one column is labelled
    [iso3] and at most one [country_name]; it then keeps the number of rows
    and the renamed headers, with [_country_norm] added at the end unless a
    column has that label already.  Otherwise it raises [AttributeError]:
    it raises nothing else. *)
Theorem clean_countries_csv_outcome (df : DataFrame) :
  empty df = false ->
  let cols := columns (rename_columns (standardize_colnames (columns df)) df) in
  if (List.length (positions "iso3" cols) <=? 1)%nat
     && (List.length (positions "country_name" cols) <=? 1)%nat
  then exists c,
         clean_countries_csv df = Ok c
         /\ nrows c = nrows df
         /\ columns c = if mem "_country_norm" cols then cols
                        else cols ++ ["_country_norm"]
  else clean_countries_csv df = Raise AttributeError.
Proof.
  apply clean_countries_csv_result.
Qed.

Lemma clean_countries_csv_outcome_witness :
  exists c,
    clean_countries_csv names_only_reference = Ok c
    /\ nrows c = 2
    /\ columns c = ["country_name"; "region"; "_country_norm"].
Proof.
  exact (clean_countries_csv_outcome names_only_reference eq_refl).
Defined.

(** X7. A table that holds both a column headed [iso3] and, before it, a
    column whose header is another synonym of [iso3] cannot be cleaned:
    the second keeps its header, the two columns share the label after the
    renaming, and [clean_countries_csv] raises [AttributeError]. *)
Theorem clean_countries_csv_two_code_headers (df : DataFrame)
    (pre mid post : list string) (h : string) :
  empty df = false ->
  columns df = pre ++ h :: mid ++ "iso3" :: post ->
  h <> "iso3" ->
  mem (Text.lower (Text.strip h)) iso3_synonyms = true ->
  (forall k, In k pre -> mem (Text.lower (Text.strip k)) iso3_synonyms = false) ->
  clean_countries_csv df = Raise AttributeError.
Proof.
  intros Hne Hcols Hh Hm Hpre.
  assert (Hv : In "iso3" canonical_names) by (cbn; tauto).
  destruct (standardize_colnames_first_facts pre (mid ++ "iso3" :: post) h "iso3"
              Hv Hm Hpre) as (Hah & _ & Hlater).
  assert (Ha3 : assoc (standardize_colnames (columns df)) "iso3" = None).
  { rewrite Hcols. apply Hlater; [apply in_or_app; right; now left|congruence|reflexivity]. }
  rewrite <- Hcols in Hah.
  assert (H := clean_countries_csv_steps df Hne). cbv zeta in H.
  unfold rename_columns in H. cbn [columns] in H.
  set (ren := fun c => match assoc (standardize_colnames (columns df)) c with
                       | Some v => v | None => c end) in *.
  assert (E : map ren (columns df)
              = map ren pre ++ "iso3" :: map ren mid ++ "iso3" :: map ren post).
  { assert (Eh : ren h = "iso3") by (unfold ren; now rewrite Hah).
    assert (E3 : ren "iso3" = "iso3") by (unfold ren; now rewrite Ha3).
    clearbody ren. rewrite Hcols.
    rewrite map_app. cbn [map]. rewrite map_app. cbn [map]. now rewrite Eh, E3. }
  rewrite E in H. unfold positions in H.
  destruct (positions_from_twice "iso3" (map ren pre) (map ren mid) (map ren post) 0)
    as (i & i' & t & Ep).
  rewrite Ep in H. exact H.
Qed.

Lemma clean_countries_csv_two_code_headers_witness :
  clean_countries_csv (mkDF ["name"; "alpha-3"; "iso3"]
                            [[PStr "Chad"; PStr "TCD"; PStr "TCD"]])
  = Raise AttributeError.
Proof.
  apply (clean_countries_csv_two_code_headers _ ["name"] [] [] "alpha-3");
    try reflexivity; try discriminate.
  intros k [<-|[]]. reflexivity.
Defined.

Lemma nth_map_lt {A B} (f : A -> B) (l : list A) (n : nat) (d : A) (d' : B) :
  n < List.length l -> nth n (map f l) d' = f (nth n l d).
Proof.
  intros H. rewrite (nth_indep _ d' (f d)) by (rewrite length_map; lia).
  apply map_nth.
Qed.

Lemma rectangular_nth (d : DataFrame) (n : nat) :
  rectangular d -> n < nrows d -> List.length (nth n (rows d) []) = ncols d.
Proof.
  unfold rectangular. rewrite Forall_forall. intros H Hn. apply H, nth_In, Hn.
Qed.

(** A cell of a table after [df[label] = ...], by row and column ranks. *)
Lemma at_pos_nth_setitem (l : string) (f : row -> pyval) (d : DataFrame) (n j : nat) :
  rectangular d -> n < nrows d -> j < ncols d ->
  at_pos j (nth n (rows (setitem l f d)) [])
  = if label_at (columns d) j =? l then f (nth n (rows d) [])
    else at_pos j (nth n (rows d) []).
Proof.
  intros Hr Hn Hj. rewrite setitem_rows.
  etransitivity;
    [apply (f_equal (at_pos j)), (nth_map_lt _ _ _ []); exact Hn|].
  apply at_pos_setitem_row; [now apply rectangular_nth|exact Hj].
Qed.

Lemma label_at_setitem (l : string) (f : row -> pyval) (d : DataFrame) (j : nat) :
  j < ncols d -> label_at (columns (setitem l f d)) j = label_at (columns d) j.
Proof.
  intros Hj. rewrite setitem_columns. destruct (has_column l d); [reflexivity|].
  unfold label_at. now apply app_nth1.
Qed.

Lemma ncols_setitem (l : string) (f : row -> pyval) (d : DataFrame) :
  ncols d <= ncols (setitem l f d).
Proof.
  unfold ncols. rewrite setitem_columns. destruct (has_column l d); [lia|].
  rewrite length_app. lia.
Qed.

Lemma label_at_unique (l : string) (cols : list string) (i j : nat) :
  positions l cols = [i] -> j < List.length cols -> label_at cols j = l -> j = i.
Proof.
  intros Hp Hj Hl.
  assert (H : In j (positions l cols)) by (apply positions_spec; auto).
  rewrite Hp in H. destruct H as [H|[]]. now subst.
Qed.

Lemma label_at_absent (l : string) (cols : list string) (j : nat) :
  positions l cols = [] -> j < List.length cols -> label_at cols j <> l.
Proof.
  intros Hp Hj Hl.
  assert (H : In j (positions l cols)) by (apply positions_spec; auto).
  now rewrite Hp in H.
Qed.

Lemma clean_countries_csv_cell_at (df c : DataFrame) (n j : nat) :
  rectangular df ->
  empty df = false ->
  clean_countries_csv df = Ok c ->
  n < nrows df ->
  j < ncols df ->
  label_at (columns c) j <> "_country_norm" ->
  at_pos j (nth n (rows c) [])
  = let x := at_pos j (nth n (rows df) []) in
    if label_at (columns c) j =? "iso3" then upper_strip x
    else if label_at (columns c) j =? "country_name" then strip_text x
    else x.
Proof.
  intros Hrect Hne Hc Hn Hj Hlab.
  assert (H := clean_countries_csv_steps df Hne). cbv zeta in H.
  set (d0 := rename_columns (standardize_colnames (columns df)) df) in *.
  assert (Hr0 : rectangular d0) by now apply rename_columns_rectangular.
  assert (Hn0 : n < nrows d0) by exact Hn.
  assert (Hj0 : j < ncols d0).
  { unfold ncols, d0, rename_columns. cbn [columns]. now rewrite length_map. }
  assert (Hrows0 : rows d0 = rows df) by reflexivity.
  (* the table after the code column is rewritten *)
  set (a := match positions "iso3" (columns d0) with
            | [i] => setitem "iso3" (fun r => upper_strip (at_pos i r)) d0
            | _ => d0
            end).
  assert (Ha : rectangular a /\ nrows a = nrows d0 /\ columns a = columns d0
               /\ at_pos j (nth n (rows a) [])
                  = if label_at (columns d0) j =? "iso3"
                    then upper_strip (at_pos j (nth n (rows d0) []))
                    else at_pos j (nth n (rows d0) [])).
  { subst a. destruct (positions "iso3" (columns d0)) as [|i [|i' t]] eqn:Ei.
    - repeat split; trivial.
      destruct (String.eqb_spec (label_at (columns d0) j) "iso3") as [E|_]; [|reflexivity].
      now elim (label_at_absent _ _ j Ei Hj0).
    - repeat split.
      + now apply setitem_rectangular.
      + apply setitem_nrows.
      + apply setitem_same_columns. exact (positions_has_column _ _ _ _ Ei).
      + rewrite at_pos_nth_setitem by assumption.
        destruct (String.eqb_spec (label_at (columns d0) j) "iso3") as [E|_]; [|reflexivity].
        now rewrite (label_at_unique _ _ i j Ei Hj0 E).
    - repeat split; trivial.
      destruct (String.eqb_spec (label_at (columns d0) j) "iso3") as [E|_]; [|reflexivity].
      assert (Hin : In j (positions "iso3" (columns d0))) by (apply positions_spec; auto).
      destruct (positions "country_name" (columns d0)) as [|? [|? ?]];
        rewrite Hc in H; discriminate H. }
  destruct Ha as (Hra & Hna & Hca & Hcell_a).
  assert (Hja : j < ncols a) by (unfold ncols; now rewrite Hca).
  assert (Hn_a : n < nrows a) by now rewrite Hna.
  assert (Hc' : c = match positions "country_name" (columns d0) with
                    | [j'] =>
                        setitem "_country_norm"
                          (fun r => normalize_country_name (at_pos j' r))
                          (setitem "country_name" (fun r => strip_text (at_pos j' r)) a)
                    | _ => setitem "_country_norm" (fun _ => PNone) a
                    end).
  { subst a.
    destruct (positions "iso3" (columns d0)) as [|i [|i' t]];
      destruct (positions "country_name" (columns d0)) as [|j' [|j'' t']];
      rewrite Hc in H; first [now inversion H | discriminate H]. }
  clear H. cbv zeta. rewrite <- Hrows0.
  destruct (positions "country_name" (columns d0)) as [|j' [|j'' t']] eqn:Ej.
  - subst c. rewrite label_at_setitem in * by exact Hja.
    rewrite at_pos_nth_setitem by assumption.
    rewrite Hca in *.
    destruct (String.eqb_spec (label_at (columns d0) j) "_country_norm"); [contradiction|].
    rewrite Hcell_a.
    destruct (String.eqb_spec (label_at (columns d0) j) "iso3"); [reflexivity|].
    destruct (String.eqb_spec (label_at (columns d0) j) "country_name") as [E|_];
      [|reflexivity].
    now elim (label_at_absent _ _ j Ej Hj0).
  - set (b := setitem "country_name" (fun r => strip_text (at_pos j' r)) a) in *.
    assert (Hcb : columns b = columns d0).
    { unfold b. rewrite setitem_same_columns; [exact Hca|].
      unfold has_column. rewrite Hca. exact (positions_has_column _ _ _ _ Ej). }
    assert (Hrb : rectangular b) by now apply setitem_rectangular.
    assert (Hnb : n < nrows b) by (unfold b; now rewrite setitem_nrows).
    assert (Hjb : j < ncols b) by (unfold ncols; now rewrite Hcb).
    subst c. rewrite label_at_setitem in * by exact Hjb.
    rewrite at_pos_nth_setitem by assumption.
    rewrite Hcb in *.
    destruct (String.eqb_spec (label_at (columns d0) j) "_country_norm"); [contradiction|].
    unfold b. rewrite at_pos_nth_setitem by assumption. rewrite Hca, Hcell_a.
    destruct (String.eqb_spec (label_at (columns d0) j) "iso3") as [E3|_].
    + rewrite E3. reflexivity.
    + destruct (String.eqb_spec (label_at (columns d0) j) "country_name") as [E|_];
        [|reflexivity].
      rewrite <- (label_at_unique _ _ j' j Ej Hj0 E). rewrite Hcell_a.
      destruct (String.eqb_spec (label_at (columns d0) j) "iso3");
        [congruence|reflexivity].
  - subst c. rewrite label_at_setitem in * by exact Hja.
    rewrite at_pos_nth_setitem by assumption.
    rewrite Hca in *.
    destruct (String.eqb_spec (label_at (columns d0) j) "_country_norm"); [contradiction|].
    rewrite Hcell_a.
    destruct (String.eqb_spec (label_at (columns d0) j) "iso3"); [reflexivity|].
    destruct (String.eqb_spec (label_at (columns d0) j) "country_name") as [E|_];
      [|reflexivity].
    exfalso. assert (Hs := clean_countries_csv_steps df Hne). cbv zeta in Hs.
    fold d0 in Hs. rewrite Ej in Hs.
    destruct (positions "iso3" (columns d0)) as [|? [|? ?]]; rewrite Hc in Hs;
      discriminate Hs.
Qed.

(** X8. [clean_countries_csv] keeps the rows in their order and rewrites
    two columns only: a cell of the code column becomes its text in upper
    case, trimmed; a cell of the name column becomes its text, trimmed;
    every other cell of the input is left as it is.  ([_country_norm] is
    the column the function computes.) *)
Theorem clean_countries_csv_cells (df c : DataFrame) (n j : nat) :
  rectangular df ->
  empty df = false ->
  clean_countries_csv df = Ok c ->
  n < nrows df ->
  j < ncols df ->
  label_at (columns c) j <> "_country_norm" ->
  at_pos j (nth n (rows c) [])
  = let x := at_pos j (nth n (rows df) []) in
    if label_at (columns c) j =? "iso3" then upper_strip x
    else if label_at (columns c) j =? "country_name" then strip_text x
    else x.
Proof.
  apply clean_countries_csv_cell_at.
Qed.

Lemma clean_countries_csv_cells_witness :
  at_pos 1 (nth 0 (rows cleaned_names_only) []) = PStr "Americas".
Proof.
  apply (clean_countries_csv_cells names_only_reference cleaned_names_only 0 1);
    try reflexivity; try (cbn; lia); try discriminate.
  repeat constructor.
Defined.

(** ** The pagination, page by page *)

Lemma pages_from_S (p : Z) (k : nat) :
  pages_from p (S k) = p :: pages_from (p + 1) k.
Proof.
  unfold pages_from. cbn [seq map]. f_equal; [lia|].
  rewrite <- seq_shift, map_map. apply map_ext. intros n. lia.
Qed.

Lemma py_get_or_empty (x : pyval) (key : string) :
  py_get (or_empty x) key
  = if nested_ok x then Ok (field x key) else Raise AttributeError.
Proof.
  destruct x as [| |b|z|t|items|d]; unfold or_empty, nested_ok, field; cbn [truthy negb].
  - reflexivity.
  - reflexivity.
  - destruct b; reflexivity.
  - destruct (z =? 0)%Z; reflexivity.
  - destruct (t =? ""); reflexivity.
  - destruct items; reflexivity.
  - destruct d; reflexivity.
Qed.

Lemma flatten_record_outcome (r : pyval) :
  flatten_record r
  = if record_ok r
    then Ok (flat_fields r)
    else Raise AttributeError.
Proof.
  destruct r as [| |b|z|t|items|d]; try reflexivity.
  unfold flatten_record, record_ok. cbn [py_get obind].
  rewrite !py_get_or_empty. cbn [field].
  destruct (nested_ok _); cbn [obind andb]; [|reflexivity].
  destruct (nested_ok _); reflexivity.
Qed.

Lemma flatten_all_outcome (rs : list pyval) :
  flatten_all rs
  = if forallb record_ok rs then Ok (map flat_fields rs) else Raise AttributeError.
Proof.
  induction rs as [|r rs IH]; cbn [flatten_all forallb map]; [reflexivity|].
  rewrite flatten_record_outcome, IH.
  destruct (record_ok r); cbn [obind andb]; [|reflexivity].
  destruct (forallb record_ok rs); reflexivity.
Qed.

Section Pagination.

Variable parse_number : string -> option Z.
Variable indicator : string.
Variables start_year end_year per_page : Z.
Variable srv : server.

Local Abbreviation rq := (mkRequest indicator start_year end_year per_page).
Local Abbreviation pages := (fetch_pages indicator start_year end_year per_page srv).
Local Abbreviation extract :=
  (extract_worldbank_indicator parse_number indicator start_year end_year per_page srv).

Lemma extract_log (fuel : nat) : snd (extract fuel) = snd (pages fuel 1%Z [] []).
Proof.
  unfold extract_worldbank_indicator.
  destruct (pages fuel 1%Z [] []) as [[[full flat]|e|] log]; cbn [snd]; try reflexivity.
  destruct (flat_table parse_number flat); reflexivity.
Qed.

Lemma fetch_pages_log (fuel : nat) :
  forall page full flat,
    exists k, k <= fuel /\ snd (pages fuel page full flat) = map rq (pages_from page k).
Proof.
  induction fuel as [|fuel IH]; intros page full flat; cbn [fetch_pages].
  - exists 0. split; [lia|reflexivity].
  - assert (Hone : forall e : ending (list pyval * list row),
               exists k, k <= S fuel /\ snd (e, [rq page]) = map rq (pages_from page k)).
    { intros e. exists 1. split; [lia|]. cbn. f_equal. f_equal. lia. }
    destruct (srv (rq page)) as [| |data]; try apply Hone.
    destruct data as [| |b|z|t|items|d]; try apply Hone.
    destruct items as [|meta [|records rest]]; try apply Hone.
    destruct (iterate records) as [its|]; cbn [obind]; [|apply Hone].
    destruct (flatten_all its) as [rs|]; cbn [obind]; [|apply Hone].
    destruct (is_last_page page meta) as [[|]|]; cbn [obind]; try apply Hone.
    destruct (IH (page + 1)%Z (full ++ its) (flat ++ rs)) as (k & Hk & E).
    destruct (pages fuel (page + 1)%Z (full ++ its) (flat ++ rs)) as [e log].
    cbn [snd] in *. exists (S k). split; [lia|].
    rewrite pages_from_S. cbn [map]. now rewrite E.
Qed.

(** X9. Whatever the server answers, the requests of a fetch are for the
    pages 1, 2, 3 and so on, in that order and each once, all with the
    indicator, the years and the page size given. *)
Theorem extract_requests_in_order (fuel : nat) :
  exists k, k <= fuel /\ snd (extract fuel) = map rq (pages_from 1 k).
Proof.
  rewrite extract_log. apply fetch_pages_log.
Qed.



Lemma fetch_pages_all (k : nat) :
  forall (meta : Z -> pyval) (recs : Z -> list pyval) (page last : Z)
         (full : list pyval) (flat : list row) (fuel : nat),
    (forall p, (page <= p <= last)%Z ->
       exists rest,
         srv (rq p) = Body (PList (meta p :: PList (recs p) :: rest))
         /\ forallb record_ok (recs p) = true
         /\ is_last_page p (meta p) = Ok (last <=? p)%Z) ->
    (page + Z.of_nat k = last)%Z ->
    S k <= fuel ->
    pages fuel page full flat
    = (Returned (full ++ List.concat (map recs (pages_from page (S k))),
                 flat ++ map flat_fields (List.concat (map recs (pages_from page (S k))))),
       map rq (pages_from page (S k))).
Proof.
  induction k as [|k IH]; intros meta recs page last full flat fuel Hsrv Hlast Hfuel;
    (destruct fuel as [|fuel]; [lia|]);
    destruct (Hsrv page ltac:(lia)) as (rest & Hbody & Hok & Hpage);
    cbn [fetch_pages]; rewrite Hbody; cbn [iterate obind];
    rewrite flatten_all_outcome, Hok; cbn [obind]; rewrite Hpage; cbn [obind].
  - replace (last <=? page)%Z with true by (symmetry; apply Z.leb_le; lia).
    cbn [pages_from seq map List.concat]. rewrite app_nil_r, Z.add_0_r. reflexivity.
  - replace (last <=? page)%Z with false by (symmetry; apply Z.leb_gt; lia).
    rewrite (IH meta recs (page + 1)%Z last); [|intros p Hp; apply Hsrv; lia|lia|lia].
    rewrite (pages_from_S page (S k)). cbn [map List.concat].
    rewrite map_app, <- !app_assoc. reflexivity.
Qed.

(** X11. When the server has [S n] pages, each a well-formed page that
    announces their number, the fetch asks for each of them and returns: the
    raw records are those of the pages in order, and the table holds one
    row per record that has a code and a name, its year and value made
    numbers. *)
Theorem extract_all_pages (n : nat) (meta : Z -> pyval) (recs : Z -> list pyval)
    (fuel : nat) :
  (forall p, (1 <= p <= Z.of_nat (S n))%Z ->
     exists rest,
       srv (rq p) = Body (PList (meta p :: PList (recs p) :: rest))
       /\ forallb record_ok (recs p) = true
       /\ is_last_page p (meta p) = Ok (Z.of_nat (S n) <=? p)%Z) ->
  S n <= fuel ->
  let full := List.concat (map recs (pages_from 1 (S n))) in
  exists df,
    extract fuel = (Returned (full, df), map rq (pages_from 1 (S n)))
    /\ rows df = map (coerce_row parse_number) (filter present (map flat_fields full)).
Proof.
  intros Hsrv Hfuel full. unfold extract_worldbank_indicator.
  rewrite (fetch_pages_all n meta recs 1%Z (Z.of_nat (S n)) [] [] fuel Hsrv); [|lia|lia].
  cbn [app]. fold full.
  destruct (flat_table_rows parse_number (map flat_fields full)) as (df & Hdf & Hrows & _).
  { apply Forall_forall. intros x Hx. apply in_map_iff in Hx.
    destruct Hx as (r & <- & _). reflexivity. }
  exists df. now rewrite Hdf.
Qed.

(** X12. A page with a record that is not an object, or whose [country]
    or [indicator] is neither an object nor a value that counts as false
    (it is a text or a list that is not empty, a number other than 0),
    ends the fetch with [AttributeError]: what the earlier pages gave is
    not returned, and no further page is asked. *)
Theorem fetch_pages_bad_record (fuel : nat) (page : Z) (full : list pyval)
    (flat : list row) (meta : pyval) (records rest : list pyval) :
  srv (rq page) = Body (PList (meta :: PList records :: rest)) ->
  forallb record_ok records = false ->
  pages (S fuel) page full flat = (Raised AttributeError, [rq page]).
Proof.
  intros Hbody Hbad. cbn [fetch_pages]. rewrite Hbody. cbn [iterate obind].
  now rewrite flatten_all_outcome, Hbad.
Qed.

(** X13. A page whose metadata gives no number of pages is taken for
    the last one: its records are added and the loop leaves, without a
    further request. *)
Theorem fetch_pages_without_page_count (fuel : nat) (page : Z) (full : list pyval)
    (flat : list row) (meta : list (string * pyval)) (records rest : list pyval) :
  srv (rq page) = Body (PList (PDict meta :: PList records :: rest)) ->
  dict_get meta "pages" = None ->
  forallb record_ok records = true ->
  (1 <= page)%Z ->
  pages (S fuel) page full flat
  = (Returned (full ++ records, flat ++ map flat_fields records), [rq page]).
Proof.
  intros Hbody Hmeta Hok Hpage. cbn [fetch_pages]. rewrite Hbody. cbn [iterate obind].
  rewrite flatten_all_outcome, Hok. cbn [obind is_last_page]. rewrite Hmeta.
  replace (1 <=? page)%Z with true by (symmetry; now apply Z.leb_le).
  reflexivity.
Qed.

End Pagination.

Lemma fetch_pages_without_page_count_witness :
  fetch_pages "SP.POP.TOTL" 2015 2024 20000
    (fun _ => Body (PList [PDict []; PList [record_of "Laos" "LAO" "2020" (PNum 7)]])) 1 1
    [] []
  = (Returned ([record_of "Laos" "LAO" "2020" (PNum 7)],
               [[PStr "Laos"; PStr "LAO"; PStr "2020"; PStr "SP.POP.TOTL"; PNum 7]]),
     [population_request 1]).
Proof.
  apply (fetch_pages_without_page_count "SP.POP.TOTL" 2015 2024 20000
           (fun _ => Body (PList [PDict []; PList [record_of "Laos" "LAO" "2020" (PNum 7)]]))
           0 1 [] [] [] [record_of "Laos" "LAO" "2020" (PNum 7)] []);
    try reflexivity; lia.
Defined.


Lemma extract_all_pages_witness :
  exists df,
    extract_worldbank_indicator parse_digits "SP.POP.TOTL" 2015 2024 20000
      (paged_server two_pages) 5
    = (Returned (List.concat two_pages, df), [population_request 1; population_request 2])
    /\ rows df
       = [ [PStr "Laos"; PStr "LAO"; PNum 2020; PStr "SP.POP.TOTL"; PNum 7];
           [PStr "Chad"; PStr "TCD"; PNum 2020; PStr "SP.POP.TOTL"; PNaN];
           [PStr "Peru"; PStr "PER"; PNum 2019; PStr "SP.POP.TOTL"; PNum 33] ].
Proof.
  apply (extract_all_pages parse_digits "SP.POP.TOTL" 2015 2024 20000
           (paged_server two_pages) 1
           (fun _ => PDict [("pages", PNum 2)])
           (fun p => nth (Z.to_nat (p - 1)) two_pages []) 5); [|lia].
  intros p Hp. exists [].
  assert (E : p = 1%Z \/ p = 2%Z) by lia.
  destruct E as [-> | ->]; repeat split; reflexivity.
Defined.

Lemma fetch_pages_bad_record_witness :
  fetch_pages "SP.POP.TOTL" 2015 2024 20000
    (fun _ => page_of 1 [PDict [("country", PStr "Laos")]]) 1 1 [] []
  = (Raised AttributeError, [population_request 1]).
Proof.
  apply (fetch_pages_bad_record "SP.POP.TOTL" 2015 2024 20000
           (fun _ => page_of 1 [PDict [("country", PStr "Laos")]]) 0 1 [] []
           (PDict [("pages", PNum 1)]) [PDict [("country", PStr "Laos")]] []);
    reflexivity.
Defined.

(** ** The analysis *)

Lemma sorted_app_inv {A} (R : A -> A -> Prop) (a b : list A) :
  StronglySorted R (a ++ b) ->
  StronglySorted R a /\ forall x y, In x a -> In y b -> R x y.
Proof.
  induction a as [|h a IH]; cbn [app]; intros H.
  - split; [constructor|intros x y []].
  - inversion H as [|? ? Hs Hf]; subst. destruct (IH Hs) as [Ha Hab].
    rewrite Forall_forall in Hf. split.
    + constructor; [exact Ha|]. apply Forall_forall. intros x Hx.
      apply Hf, in_or_app. now left.
    + intros x y [<-|Hx] Hy; [apply Hf, in_or_app; now right|now apply Hab].
Qed.

Lemma sorted_impl {A} (R R' : A -> A -> Prop) :
  (forall a b, R a b -> R' a b) ->
  forall l, StronglySorted R l -> StronglySorted R' l.
Proof.
  intros H l Hs. induction Hs as [|a l Hs IH Hf]; constructor; trivial.
  rewrite Forall_forall in *. auto.
Qed.

Lemma select_rectangular (labels : list string) (df sel : DataFrame) :
  select labels df = Ok sel -> rectangular sel.
Proof.
  intros H. destruct (select_inv _ _ _ H) as [Hc Hr]. cbv zeta in Hc, Hr.
  unfold rectangular, ncols. rewrite Hc, Hr. apply Forall_forall.
  intros r Hin. apply in_map_iff in Hin. destruct Hin as (r0 & <- & _).
  now rewrite !length_map.
Qed.

Lemma select_labels (labels : list string) (df sel : DataFrame) (l : string) :
  select labels df = Ok sel -> In l (columns sel) -> In l labels /\ In l (columns df).
Proof.
  intros H Hin. destruct (select_inv _ _ _ H) as [Hc _]. cbv zeta in Hc.
  rewrite Hc in Hin. apply in_map_iff in Hin. destruct Hin as (j & Hj & Hin).
  apply in_flat_map in Hin. destruct Hin as (l' & Hl' & Hjl).
  apply positions_spec in Hjl. destruct Hjl as [Hlt Hlab].
  rewrite Hj in Hlab. subst l'. split; [exact Hl'|].
  rewrite <- Hj. unfold label_at. now apply nth_In.
Qed.

Lemma select_present (labels : list string) (df : DataFrame) :
  exists sel, select (filter (fun c => has_column c df) labels) df = Ok sel.
Proof.
  unfold select. rewrite find_none_forall; [eexists; reflexivity|].
  intros x Hx. apply filter_In in Hx. destruct Hx as [_ Hx]. now rewrite Hx.
Qed.

(** X14. Without the value column, [simple_analysis] raises [KeyError]
    on it, whatever else the table holds. *)
Theorem simple_analysis_without_value_column
    (quicksort : (row -> row -> bool) -> list row -> list row)
    (df : DataFrame) (value_col : string) (top_n : Z) :
  has_column value_col df = false ->
  simple_analysis quicksort df value_col top_n = Raise (KeyError value_col).
Proof.
  intros H. unfold simple_analysis.
  destruct (select_present ["country_name"; "iso3"; value_col] df) as [sel Hsel].
  rewrite Hsel. cbn [obind]. unfold dropna. cbn [find].
  assert (Hv : has_column value_col sel = false).
  { destruct (has_column value_col sel) eqn:E; [|reflexivity].
    apply mem_In in E. apply (select_labels _ _ _ _ Hsel) in E.
    destruct E as [_ E]. apply mem_In in E. unfold has_column in H. congruence. }
  now rewrite Hv.
Qed.

Lemma simple_analysis_without_value_column_witness :
  simple_analysis stable_sort merged_example "gdp" 10 = Raise (KeyError "gdp").
Proof.
  apply simple_analysis_without_value_column. reflexivity.
Defined.

Lemma head_rows (n : Z) (d : DataFrame) :
  exists m, rows (head n d) = firstn m (rows d) /\ ((0 <= n)%Z -> m = Z.to_nat n).
Proof.
  unfold head. cbn [rows]. destruct (Z.leb_spec 0 n).
  - now exists (Z.to_nat n).
  - eexists. split; [reflexivity|lia].
Qed.

Section AnalysisFacts.

Variable quicksort : (row -> row -> bool) -> list row -> list row.

(** What numpy promises of its sort: the items given, in order. *)
Hypothesis quicksort_perm : forall le l, Permutation (quicksort le l) l.
Hypothesis quicksort_sorted :
  forall cmp : row -> row -> comparison,
    total_preorder cmp ->
    forall l, StronglySorted (fun a b => le_of cmp a b = true) (quicksort (le_of cmp) l).

(** X15. The table [simple_analysis] returns holds the columns it selects,
    and of the rows that have a value the [top_n] with the largest values,
    largest first: its rows are in descending order of the value, none has
    a missing value, and every row with a value that is left out has a
    value no larger than those kept.  With [top_n] not negative there are
    [top_n] rows, or all rows with a value when these are fewer. *)
Theorem simple_analysis_top (df top : DataFrame) (value_col : string) (top_n : Z) :
  simple_analysis quicksort df value_col top_n = Ok top ->
  exists sel i rest,
    select (filter (fun c => has_column c df) ["country_name"; "iso3"; value_col]) df
    = Ok sel
    /\ columns top = columns sel
    /\ positions value_col (columns sel) = [i]
    /\ Permutation (rows top ++ rest) (filter (fun r => notna (at_pos i r)) (rows sel))
    /\ StronglySorted (fun a b => cmp_desc (at_pos i a) (at_pos i b) <> Gt) (rows top)
    /\ (forall a b, In a (rows top) -> In b rest ->
          cmp_desc (at_pos i a) (at_pos i b) <> Gt)
    /\ ((0 <= top_n)%Z ->
        nrows top
        = Nat.min (Z.to_nat top_n)
            (List.length (filter (fun r => notna (at_pos i r)) (rows sel)))).
Proof.
  unfold simple_analysis.
  destruct (select _ df) as [sel|] eqn:Hsel; cbn [obind]; [|discriminate].
  destruct (dropna [value_col] sel) as [kept|] eqn:Hdrop; cbn [obind]; [|discriminate].
  unfold sort_values_desc.
  destruct (key_position value_col kept) as [i|] eqn:Hi; cbn [obind]; [|discriminate].
  destruct (sortable (column_at i kept)); [|discriminate].
  intros H. inversion H; subst top; clear H.
  destruct (dropna_inv _ _ _ Hdrop) as (_ & Hck & Hrk).
  apply key_position_positions in Hi. rewrite Hck in Hi.
  assert (Hkept : rows kept = filter (fun r => notna (at_pos i r)) (rows sel)).
  { rewrite Hrk. apply filter_ext_in. intros r Hr. unfold notna. f_equal.
    apply row_has_na_single; [exact Hi|].
    assert (Hrect := select_rectangular _ _ _ Hsel).
    unfold rectangular in Hrect. rewrite Forall_forall in Hrect. now apply Hrect. }
  set (le := le_of (fun a b => cmp_desc (at_pos i a) (at_pos i b))).
  set (sorted := quicksort le (rows kept)).
  assert (Hperm : Permutation sorted (rows kept)) by apply quicksort_perm.
  assert (Hsorted : StronglySorted (fun a b => le a b = true) sorted).
  { apply quicksort_sorted. exact (tp_on (at_pos i) cmp_desc tp_cmp_desc). }
  assert (Hle : forall a b, le a b = true -> cmp_desc (at_pos i a) (at_pos i b) <> Gt).
  { intros a b. unfold le, le_of. destruct (cmp_desc _ _); congruence. }
  destruct (head_rows top_n (mkDF (columns kept) sorted)) as (m & Hrows & Hm).
  cbn [rows] in Hrows. unfold nrows. rewrite Hrows.
  exists sel, i, (skipn m sorted).
  rewrite <- (firstn_skipn m sorted) in Hsorted.
  destruct (sorted_app_inv _ _ _ Hsorted) as [Hs1 Hs2].
  repeat split; trivial.
  - rewrite firstn_skipn, <- Hkept. exact Hperm.
  - exact (sorted_impl _ _ Hle _ Hs1).
  - intros a b Ha Hb. auto.
  - intros Hn. rewrite length_firstn, <- Hkept, <- (Permutation_length Hperm).
    now rewrite (Hm Hn).
Qed.

End AnalysisFacts.

Lemma simple_analysis_top_witness :
  exists sel i rest,
    select (filter (fun c => has_column c merged_example) ["country_name"; "iso3"; "value"])
           merged_example
    = Ok sel
    /\ columns (mkDF ["country_name"; "iso3"; "value"] [[PStr "Peru"; PStr "PER"; PNum 33]])
       = columns sel
    /\ positions "value" (columns sel) = [i]
    /\ Permutation ([[PStr "Peru"; PStr "PER"; PNum 33]] ++ rest)
                   (filter (fun r => notna (at_pos i r)) (rows sel)).
Proof.
  destruct (simple_analysis_top stable_sort stable_sort_perm
              (fun cmp H => stable_sort_sorted cmp H) merged_example
              (mkDF ["country_name"; "iso3"; "value"] [[PStr "Peru"; PStr "PER"; PNum 33]])
              "value" 1 eq_refl)
    as (sel & i & rest & Hsel & Hc & Hi & Hp & _).
  exists sel, i, rest. auto.
Defined.

(** ** The merge, row by row *)

Lemma merge_datasets_path (countries wb : DataFrame) :
  merge_datasets countries wb
  = let key := if has_column "iso3" countries && has_column "iso3" wb
               then "iso3" else "_country_norm" in
    (r <- select [key; "indicator"; "value"] wb ;; merge_left key countries r)%outcome.
Proof.
  unfold merge_datasets.
  now destruct (has_column "iso3" countries && has_column "iso3" wb).
Qed.

(** X16. A merge that succeeds keeps every row of the reference table
    and adds none of its own: each reference row is in the merged table,
    extended to the right, and each merged row is a reference row so
    extended. *)
Theorem merge_datasets_keeps_reference (countries wb merged : DataFrame) :
  merge_datasets countries wb = Ok merged ->
  nrows countries <= nrows merged
  /\ (forall l, In l (rows countries) -> exists ext, In (l ++ ext) (rows merged))
  /\ (forall m, In m (rows merged) ->
        exists l ext, In l (rows countries) /\ m = l ++ ext).
Proof.
  intros H. split; [exact (merge_datasets_never_drops _ _ _ H)|].
  rewrite merge_datasets_path in H. cbv zeta in H.
  destruct (select _ wb) as [sel|]; cbn [obind] in H; [|discriminate].
  destruct (merge_left_rows _ _ _ _ H) as (i & j & _ & _ & _ & E). rewrite E.
  split.
  - intros l Hl. unfold joined_rows.
    destruct (filter (fun r => key_eqb (at_pos i l) (at_pos j r)) (rows sel))
      as [|w ms] eqn:Ef.
    + eexists. apply in_flat_map. exists l. split; [exact Hl|].
      unfold joined_rows. rewrite Ef. now left.
    + eexists. apply in_flat_map. exists l. split; [exact Hl|].
      unfold joined_rows. rewrite Ef. now left.
  - intros m Hm. apply in_flat_map in Hm. destruct Hm as (l & Hl & Hm).
    exists l. unfold joined_rows in Hm.
    destruct (filter (fun r => key_eqb (at_pos i l) (at_pos j r)) (rows sel)) as [|w ms].
    + destruct Hm as [<-|[]]. eauto.
    + apply in_map_iff in Hm. destruct Hm as (r & <- & _). eauto.
Qed.

Lemma merge_datasets_keeps_reference_witness :
  nrows cleaned_names_only <= 3
  /\ (forall l, In l (rows cleaned_names_only) ->
        exists ext,
          In (l ++ ext)
             [ [PStr "USA"; PStr "Americas"; PStr "united states of america";
                PStr "SP.POP.TOTL"; PNum 331];
               [PStr "USA"; PStr "Americas"; PStr "united states of america";
                PStr "SP.POP.TOTL"; PNum 1];
               [PStr "Laos"; PStr "Asia"; PStr "lao pdr"; PNaN; PNaN] ]).
Proof.
  destruct (merge_datasets_keeps_reference cleaned_names_only cleaned_two_codes _ eq_refl)
    as (H1 & H2 & _).
  split; [exact H1|exact H2].
Defined.

Lemma filter_map_comm {A B} (f : A -> B) (p : B -> bool) (l : list A) :
  filter p (map f l) = map f (filter (fun x => p (f x)) l).
Proof.
  induction l as [|x l IH]; cbn [map filter]; [reflexivity|].
  destruct (p (f x)); cbn [map]; now rewrite IH.
Qed.

Lemma merge_datasets_flat_rows (countries wb : DataFrame) (i j ji jv : nat) :
  let key := if has_column "iso3" countries && has_column "iso3" wb
             then "iso3" else "_country_norm" in
  positions key (columns countries) = [i] ->
  positions key (columns wb) = [j] ->
  positions "indicator" (columns wb) = [ji] ->
  positions "value" (columns wb) = [jv] ->
  forallb hashable (column_at i countries ++ column_at j wb) = true ->
  merge_datasets countries wb
  = Ok (mkDF (merged_columns key (columns countries) ["indicator"; "value"])
             (flat_map
                (fun l =>
                   match filter (fun w => key_eqb (at_pos i l) (at_pos j w)) (rows wb) with
                   | [] => [l ++ [PNaN; PNaN]]
                   | ws => map (fun w => l ++ [at_pos ji w; at_pos jv w]) ws
                   end)
                (rows countries))).
Proof.
  intros key Hi Hj Hji Hjv Hh. rewrite merge_datasets_path. fold key. cbv zeta.
  rewrite (select_three key "indicator" "value" wb j ji jv Hj Hji Hjv). cbn [obind].
  unfold merge_left.
  assert (Hk : key_position key countries = Ok i) by now apply key_position_positions.
  rewrite Hk. cbn [obind].
  assert (Hks : positions key [key; "indicator"; "value"] = [0]).
  { unfold key. now destruct (has_column "iso3" countries && has_column "iso3" wb). }
  unfold key_position at 1. cbn [columns]. rewrite Hks. cbn [obind].
  assert (Hcol : column_at 0 (mkDF [key; "indicator"; "value"]
                   (map (fun r => [at_pos j r; at_pos ji r; at_pos jv r]) (rows wb)))
                 = column_at j wb).
  { unfold column_at. cbn [rows]. rewrite map_map. reflexivity. }
  rewrite Hcol, Hh. cbn [ncols columns rows List.length].
  assert (Ho : other_positions 0 3 = [1; 2]) by reflexivity.
  rewrite Ho. f_equal. f_equal; try reflexivity.
  symmetry. apply flat_map_ext. intros l. unfold joined_rows.
  rewrite filter_map_comm.
  change (fun x : row => key_eqb (at_pos i l) (at_pos 0 [at_pos j x; at_pos ji x; at_pos jv x]))
    with (fun x : row => key_eqb (at_pos i l) (at_pos j x)).
  destruct (filter (fun x => key_eqb (at_pos i l) (at_pos j x)) (rows wb))
    as [|w ws]; [reflexivity|].
  cbn [map]. f_equal. rewrite map_map. reflexivity.
Qed.



Lemma find_filter {A} (p : A -> bool) (l : list A) :
  find p l = match filter p l with [] => None | x :: _ => Some x end.
Proof.
  induction l as [|x l IH]; cbn [find filter]; [reflexivity|].
  now destruct (p x).
Qed.

Lemma merge_datasets_unique_rows (countries wb : DataFrame) (i j ji jv : nat) :
  let key := if has_column "iso3" countries && has_column "iso3" wb
             then "iso3" else "_country_norm" in
  positions key (columns countries) = [i] ->
  positions key (columns wb) = [j] ->
  positions "indicator" (columns wb) = [ji] ->
  positions "value" (columns wb) = [jv] ->
  forallb hashable (column_at i countries ++ column_at j wb) = true ->
  unique_keys (column_at j wb) ->
  merge_datasets countries wb
  = Ok (mkDF (merged_columns key (columns countries) ["indicator"; "value"])
             (map (fun l =>
                     l ++ match find (fun w => key_eqb (at_pos i l) (at_pos j w)) (rows wb) with
                          | Some w => [at_pos ji w; at_pos jv w]
                          | None => [PNaN; PNaN]
                          end)
                  (rows countries))).
Proof.
  intros key Hi Hj Hji Hjv Hh Hu.
  rewrite (merge_datasets_flat_rows countries wb i j ji jv Hi Hj Hji Hjv Hh).
  fold key. f_equal. f_equal. rewrite <- flat_map_singleton.
  apply flat_map_ext. intros l. rewrite find_filter.
  specialize (Hu (at_pos i l)). unfold column_at in Hu.
  rewrite filter_map_comm, length_map in Hu.
  destruct (filter (fun w => key_eqb (at_pos i l) (at_pos j w)) (rows wb)) as [|w [|w' ws]];
    try reflexivity.
  cbn in Hu. lia.
Qed.



(** ** The cleaned indicator table *)

Lemma sorted_map {A B} (f : A -> B) (R : B -> B -> Prop) (l : list A) :
  StronglySorted (fun a b => R (f a) (f b)) l -> StronglySorted R (map f l).
Proof.
  induction 1 as [|a l Hs IH Hf]; cbn [map]; constructor; trivial.
  rewrite Forall_forall in *. intros y Hy. apply in_map_iff in Hy.
  destruct Hy as (x & <- & Hx). auto.
Qed.

Lemma sorted_unique_strict (ks : list pyval) :
  StronglySorted (fun a b => le_of cmp_asc a b = true) ks ->
  unique_keys ks ->
  StronglySorted (fun a b => cmp_asc a b = Lt) ks.
Proof.
  induction 1 as [|a l Hs IH Hf]; intros Hu; constructor.
  - apply IH. intros x. specialize (Hu x). cbn [filter] in Hu.
    destruct (key_eqb x a); cbn [List.length] in Hu; lia.
  - rewrite Forall_forall in *. intros b Hb. specialize (Hf b Hb).
    unfold le_of in Hf. destruct (cmp_asc a b) eqn:E; try discriminate; trivial.
    exfalso. specialize (Hu a). cbn [filter] in Hu. rewrite key_eqb_refl in Hu.
    cbn [List.length] in Hu.
    assert (Hin : In b (filter (key_eqb a) l)).
    { apply filter_In. split; [exact Hb|]. now apply key_eqb_eq. }
    destruct (filter (key_eqb a) l); [destruct Hin|cbn in Hu; lia].
Qed.

Lemma clean_worldbank_df_sorted_keys (df out : DataFrame) :
  empty df = false ->
  clean_worldbank_df df = Ok out ->
  positions "iso3" (columns out) = [0]
  /\ StronglySorted (fun a b => cmp_asc (at_pos 0 a) (at_pos 0 b) = Lt) (rows out).
Proof.
  intros Hne H.
  destruct (clean_worldbank_df_inv df out Hne H) as (d1 & d2 & d3 & d4 & d5 & Hs).
  destruct Hs as (_ & _ & _ & _ & _ & Hg).
  destruct (groupby_first_keys _ _ _ Hg) as [Hk Hu]. split; [exact Hk|].
  destruct (groupby_first_inv _ _ _ Hg) as (i & Hi & Hc & Hr).
  unfold column_at in Hu. rewrite Hr in Hu |- *. rewrite map_map in Hu. cbn [at_pos nth] in Hu.
  rewrite map_id in Hu.
  apply sorted_map. cbn [at_pos nth].
  apply sorted_unique_strict; [|exact Hu].
  apply stable_sort_sorted, tp_cmp_asc.
Qed.

(** X19. The table [clean_worldbank_df] makes of a table that is not
    empty has the code as its first column, the only one labelled [iso3],
    and its rows in strictly ascending order of the code: no code comes
    twice. *)
Theorem clean_worldbank_df_ascending (df out : DataFrame) :
  empty df = false ->
  clean_worldbank_df df = Ok out ->
  positions "iso3" (columns out) = [0]
  /\ StronglySorted (fun a b => cmp_asc (at_pos 0 a) (at_pos 0 b) = Lt) (rows out).
Proof.
  apply clean_worldbank_df_sorted_keys.
Qed.

Lemma clean_worldbank_df_ascending_witness :
  positions "iso3" (columns cleaned_two_codes) = [0]
  /\ StronglySorted (fun a b => cmp_asc (at_pos 0 a) (at_pos 0 b) = Lt)
                    (rows cleaned_two_codes).
Proof.
  apply (clean_worldbank_df_ascending two_codes_table); reflexivity.
Defined.

(** ** From the fetched table to the merged one *)

Lemma clean_worldbank_df_from_cells (df : DataFrame) :
  empty df = false ->
  clean_worldbank_df df
  = (c <- cleaned_cells df ;;
     d4 <- sort_values "iso3" "year" c ;;
     d5 <- dropna ["value"] d4 ;;
     groupby_first "iso3" d5)%outcome.
Proof.
  intros H. unfold clean_worldbank_df, cleaned_cells. rewrite H.
  destruct (assign_from "iso3" "iso3" upper_strip df) as [d1|]; cbn [obind]; [|reflexivity].
  destruct (assign_from "country_name" "country_name" strip_text d1) as [d2|];
    cbn [obind]; [|reflexivity].
  destruct (assign_from "country_name" "_country_norm" normalize_country_name d2);
    reflexivity.
Qed.

Lemma cleaned_cells_flat (rs : list row) :
  Forall (fun r => List.length r = 5) rs ->
  cleaned_cells (mkDF flat_columns rs)
  = Ok (mkDF (flat_columns ++ ["_country_norm"]) (map clean_flat_row rs)).
Proof.
  intros H. unfold cleaned_cells.
  rewrite (assign_from_at "iso3" "iso3" upper_strip (mkDF flat_columns rs) 1 eq_refl).
  cbn [obind].
  set (d1 := setitem "iso3" _ _).
  assert (H1 : columns d1 = flat_columns) by reflexivity.
  rewrite (assign_from_at "country_name" "country_name" strip_text d1 0); [|now rewrite H1].
  cbn [obind].
  set (d2 := setitem "country_name" _ d1).
  assert (H2 : columns d2 = flat_columns) by reflexivity.
  rewrite (assign_from_at "country_name" "_country_norm" normalize_country_name d2 0);
    [|now rewrite H2].
  f_equal. unfold setitem at 1.
  replace (has_column "_country_norm" d2) with false by reflexivity.
  rewrite H2. f_equal.
  unfold d2. rewrite setitem_rows, H1. unfold d1. rewrite setitem_rows. cbn [columns rows].
  rewrite !map_map. apply map_ext_in. intros r Hr.
  rewrite Forall_forall in H. specialize (H r Hr).
  destruct r as [|a [|b [|c [|d [|e [|? ?]]]]]]; try discriminate H.
  reflexivity.
Qed.

Lemma forallb_map_in {A B} (p : B -> bool) (f : A -> B) (l : list A) :
  (forall x, In x l -> p (f x) = true) -> forallb p (map f l) = true.
Proof.
  intros H. apply forallb_forall. intros y Hy. apply in_map_iff in Hy.
  destruct Hy as (x & <- & Hx). auto.
Qed.

Lemma sortable_text (col : list pyval) :
  (forall v, In v col -> klass v = 1) -> sortable col = true.
Proof.
  intros H. unfold sortable. apply orb_true_iff. right. apply forallb_forall.
  intros v Hv. now rewrite (H v Hv).
Qed.

Lemma sortable_numeric (col : list pyval) :
  (forall v, In v col -> numeric_or_missing v = true) -> sortable col = true.
Proof.
  intros H. unfold sortable. apply orb_true_iff. left. apply forallb_forall.
  intros v Hv. specialize (H v Hv). now destruct v.
Qed.

Lemma text_hashable (v : pyval) : klass v = 1 -> hashable v = true.
Proof. now destruct v. Qed.

Lemma numeric_hashable (v : pyval) : numeric_or_missing v = true -> hashable v = true.
Proof. now destruct v. Qed.

Lemma clean_flat_row_cells (r : row) :
  List.length r = 5 ->
  klass (at_pos 1 (clean_flat_row r)) = 1
  /\ at_pos 2 (clean_flat_row r) = at_pos 2 r.
Proof.
  intros H. destruct r as [|a [|b [|c [|d [|e [|? ?]]]]]]; try discriminate H.
  split; reflexivity.
Qed.

(** The cleaner on a fetched table that has rows. *)
Lemma clean_flat_rows (rs : list row) :
  Forall (fun r => List.length r = 5 /\ numeric_or_missing (at_pos 2 r) = true) rs ->
  rs <> [] ->
  exists out,
    clean_worldbank_df (mkDF flat_columns rs) = Ok out
    /\ columns out = cleaned_columns
    /\ forallb hashable (column_at 0 out) = true
    /\ unique_keys (column_at 0 out).
Proof.
  intros Hrs Hne. rewrite Forall_forall in Hrs.
  assert (He : empty (mkDF flat_columns rs) = false) by (destruct rs; [congruence|reflexivity]).
  rewrite (clean_worldbank_df_from_cells _ He), cleaned_cells_flat;
    [|apply Forall_forall; intros r Hr; apply (Hrs r Hr)].
  cbn [obind].
  set (c := mkDF (flat_columns ++ ["_country_norm"]) (map clean_flat_row rs)).
  assert (Hc : forall x, In x (rows c) ->
                 klass (at_pos 1 x) = 1 /\ numeric_or_missing (at_pos 2 x) = true).
  { intros x Hx. cbn [c rows] in Hx. apply in_map_iff in Hx. destruct Hx as (r & <- & Hr).
    destruct (Hrs r Hr) as [Hl Hn]. destruct (clean_flat_row_cells r Hl) as [H1 H2].
    split; [exact H1|now rewrite H2]. }
  unfold sort_values.
  rewrite (proj2 (key_position_positions "iso3" c 1) eq_refl). cbn [obind].
  rewrite (proj2 (key_position_positions "year" c 2) eq_refl). cbn [obind].
  assert (Hcond : forallb hashable (column_at 1 c ++ column_at 2 c)
                  && sortable (column_at 1 c) && sortable (column_at 2 c) = true).
  { unfold column_at. rewrite forallb_app, !andb_true_iff. repeat split.
    - apply forallb_map_in. intros x Hx. apply text_hashable, (Hc x Hx).
    - apply forallb_map_in. intros x Hx. apply numeric_hashable, (Hc x Hx).
    - apply sortable_text. intros v Hv. apply in_map_iff in Hv.
      destruct Hv as (x & <- & Hx). apply (Hc x Hx).
    - apply sortable_numeric. intros v Hv. apply in_map_iff in Hv.
      destruct Hv as (x & <- & Hx). apply (Hc x Hx). }
  rewrite Hcond. cbn [obind].
  set (d4 := mkDF (columns c) (stable_sort (le_of (row_cmp 1 2)) (rows c))).
  assert (Hd4 : forall x, In x (rows d4) -> In x (rows c)).
  { intros x Hx. cbn [d4 rows] in Hx.
    exact (Permutation_in _ (stable_sort_perm _ _) Hx). }
  unfold dropna. cbn [find]. replace (has_column "value" d4) with true by reflexivity.
  cbn [negb obind].
  set (d5 := mkDF (columns d4) _).
  assert (Hd5 : forall x, In x (rows d5) -> In x (rows c)).
  { intros x Hx. cbn [d5 rows] in Hx. apply filter_In in Hx. apply Hd4, Hx. }
  destruct (groupby_first "iso3" d5) as [out|e] eqn:Hg.
  - exists out. split; [reflexivity|].
    destruct (groupby_first_keys _ _ _ Hg) as [_ Hu].
    destruct (groupby_first_inv _ _ _ Hg) as (i & Hi & Hcols & Hrows).
    assert (i = 1) by (cbn in Hi; now inversion Hi). subst i.
    repeat split; [exact Hcols| |exact Hu].
    unfold column_at. rewrite Hrows, map_map. cbn [at_pos nth]. rewrite map_id.
    apply forallb_forall. intros k Hk.
    apply (Permutation_in _ (stable_sort_perm _ _)) in Hk.
    apply in_distinct_keys in Hk. apply filter_In in Hk. destruct Hk as [Hk _].
    unfold column_at in Hk. apply in_map_iff in Hk. destruct Hk as (x & <- & Hx).
    apply text_hashable, (Hc x (Hd5 x Hx)).
  - exfalso. unfold groupby_first in Hg.
    rewrite (proj2 (key_position_positions "iso3" d5 1) eq_refl) in Hg. cbn [obind] in Hg.
    assert (Hk : forallb hashable (column_at 1 d5) && sortable (column_at 1 d5) = true).
    { unfold column_at. apply andb_true_iff. split.
      - apply forallb_map_in. intros x Hx. apply text_hashable, (Hc x (Hd5 x Hx)).
      - apply sortable_text. intros v Hv. apply in_map_iff in Hv.
        destruct Hv as (x & <- & Hx). apply (Hc x (Hd5 x Hx)). }
    rewrite Hk in Hg. discriminate Hg.
Qed.

Lemma to_numeric_numeric (parse_number : string -> option Z) (v : pyval) :
  numeric_or_missing (to_numeric parse_number v) = true.
Proof.
  destruct v; try reflexivity. cbn [to_numeric]. now destruct (parse_number s).
Qed.

Lemma coerce_row_facts (parse_number : string -> option Z) (r : row) :
  List.length r = 5 ->
  List.length (coerce_row parse_number r) = 5
  /\ numeric_or_missing (at_pos 2 (coerce_row parse_number r)) = true.
Proof.
  intros H. destruct r as [|a [|b [|c [|d [|e [|? ?]]]]]]; try discriminate H.
  split; [reflexivity|apply to_numeric_numeric].
Qed.

Lemma ensure_dir_raw_json_path : ensure_dir Script.raw_json_path = [MakeDirs "data/raw"].
Proof. reflexivity. Qed.

Lemma ensure_dir_out_csv : ensure_dir Script.out_csv = [MakeDirs "data/processed"].
Proof. reflexivity. Qed.

(** The reference table with one code column, cleaned. *)
Lemma clean_countries_csv_with_code (df : DataFrame) (i : nat) :
  rectangular df ->
  empty df = false ->
  let cols := columns (rename_columns (standardize_colnames (columns df)) df) in
  positions "iso3" cols = [i] ->
  List.length (positions "country_name" cols) <= 1 ->
  exists cc,
    clean_countries_csv df = Ok cc
    /\ nrows cc = nrows df
    /\ columns cc = (if mem "_country_norm" cols then cols else cols ++ ["_country_norm"])
    /\ positions "iso3" (columns cc) = [i]
    /\ forallb hashable (column_at i cc) = true.
Proof.
  intros Hrect Hne cols Hi Hn.
  assert (H := clean_countries_csv_result df Hne). cbv zeta in H. fold cols in H.
  rewrite Hi in H. cbn [List.length Nat.leb andb] in H.
  replace (List.length (positions "country_name" cols) <=? 1)%nat with true in H
    by (symmetry; now apply Nat.leb_le).
  destruct H as (cc & Hcc & Hrows & Hcols). exists cc.
  assert (Hpos : positions "iso3" (columns cc) = [i]).
  { rewrite Hcols. destruct (mem "_country_norm" cols); [exact Hi|].
    unfold positions. rewrite positions_from_app. fold (positions "iso3" cols).
    rewrite Hi. reflexivity. }
  repeat split; trivial.
  assert (Hlt : i < ncols df /\ label_at (columns cc) i = "iso3").
  { assert (Hin : In i (positions "iso3" cols)) by (rewrite Hi; now left).
    apply positions_spec in Hin. destruct Hin as [Hlt _]. split.
    - unfold cols, rename_columns in Hlt. cbn [columns] in Hlt.
      now rewrite length_map in Hlt.
    - assert (Hin : In i (positions "iso3" (columns cc))) by (rewrite Hpos; now left).
      now apply positions_spec in Hin. }
  destruct Hlt as [Hlt Hlab].
  unfold column_at. apply forallb_map_in. intros r Hr.
  destruct (In_nth _ _ [] Hr) as (n & Hnlt & <-).
  fold (nrows cc) in Hnlt. rewrite Hrows in Hnlt.
  rewrite (clean_countries_csv_cell_at df cc n i Hrect Hne Hcc Hnlt Hlt)
    by (rewrite Hlab; discriminate).
  cbv zeta. rewrite Hlab. reflexivity.
Qed.

Section Pipeline.

Variable parse_number : string -> option Z.
Variable indicator : string.
Variables start_year end_year per_page : Z.
Variable srv : server.

Local Abbreviation extract :=
  (extract_worldbank_indicator parse_number indicator start_year end_year per_page srv).

Lemma extract_table (fuel : nat) (full : list pyval) (df : DataFrame) (log : list request) :
  extract fuel = (Returned (full, df), log) ->
  exists flat,
    flatten_all full = Ok flat
    /\ Forall (fun r => List.length r = 5) flat
    /\ df = mkDF (match flat with [] => [] | _ => flat_columns end)
                 (map (coerce_row parse_number) (filter present flat)).
Proof.
  unfold extract_worldbank_indicator.
  destruct (fetch_pages _ _ _ _ _ fuel 1%Z [] []) as [[[full' flat]|e|] log'] eqn:Hp;
    try discriminate.
  assert (Hflat : flatten_all full' = Ok flat).
  { exact (fetch_pages_flat _ _ _ _ _ fuel 1%Z [] [] full' flat log' eq_refl Hp). }
  assert (Hshape := flatten_all_shape _ _ Hflat).
  destruct (flat_table_rows parse_number flat Hshape) as (df' & Hdf & Hrows & Hcols).
  rewrite Hdf. intros H. inversion H; subst. exists flat.
  repeat split; trivial. destruct df as [c r]. cbn [rows columns] in *. now subst.
Qed.

Lemma fetched_rows (flat : list row) :
  Forall (fun r => List.length r = 5) flat ->
  Forall (fun r => List.length r = 5 /\ numeric_or_missing (at_pos 2 r) = true)
         (map (coerce_row parse_number) (filter present flat)).
Proof.
  intros H. apply Forall_forall. intros r Hr. apply in_map_iff in Hr.
  destruct Hr as (r0 & <- & Hr0). apply filter_In in Hr0. destruct Hr0 as [Hr0 _].
  rewrite Forall_forall in H. now apply coerce_row_facts, H.
Qed.

(** X20. What a fetch returns can be cleaned: [clean_worldbank_df] raises
    nothing on the table of [extract_worldbank_indicator].  A table
    without rows comes back as it is; otherwise the cleaned table has the
    six columns [iso3], [country_name], [year], [indicator], [value] and
    [_country_norm], and no code twice. *)
Theorem fetched_table_can_be_cleaned (fuel : nat) (full : list pyval) (df : DataFrame)
    (log : list request) :
  extract fuel = (Returned (full, df), log) ->
  exists out,
    clean_worldbank_df df = Ok out
    /\ (rows df = [] -> out = df)
    /\ (rows df <> [] ->
        columns out = cleaned_columns /\ unique_keys (column_at 0 out)).
Proof.
  intros H. destruct (extract_table _ _ _ _ H) as (flat & _ & Hshape & ->).
  assert (Hrs := fetched_rows flat Hshape).
  destruct (map (coerce_row parse_number) (filter present flat)) as [|r rs] eqn:E.
  - exists (mkDF (match flat with [] => [] | _ => flat_columns end) []).
    split; [|split; [reflexivity|intros Hne; now elim Hne]].
    unfold clean_worldbank_df. now destruct flat.
  - destruct flat as [|x flat']; [discriminate E|].
    destruct (clean_flat_rows (r :: rs) Hrs) as (out & Hout & Hc & _ & Hu); [discriminate|].
    exists out. split; [exact Hout|]. split; [discriminate|]. auto.
Qed.

(** The cleaned table of a fetch that had a record, as the merge reads
    it. *)
Lemma fetched_table_cleaned (fuel : nat) (full : list pyval) (df : DataFrame)
    (log : list request) :
  extract fuel = (Returned (full, df), log) ->
  full <> [] ->
  exists out j,
    clean_worldbank_df df = Ok out
    /\ positions "iso3" (columns out) = [j]
    /\ positions "indicator" (columns out) = [3]
    /\ positions "value" (columns out) = [4]
    /\ forallb hashable (column_at j out) = true
    /\ unique_keys (column_at j out).
Proof.
  intros H Hfull. destruct (extract_table _ _ _ _ H) as (flat & Hflat & Hshape & ->).
  assert (Hne : flat <> []).
  { intros ->. destruct full; [congruence|]. cbn [flatten_all] in Hflat.
    destruct (flatten_record p); cbn [obind] in Hflat; [|discriminate].
    destruct (flatten_all full); discriminate. }
  assert (Hrs := fetched_rows flat Hshape).
  destruct flat as [|x flat']; [congruence|].
  destruct (map (coerce_row parse_number) (filter present (x :: flat'))) as [|r rs] eqn:E.
  - exists (mkDF flat_columns []), 1. repeat split; try reflexivity.
    intros k. cbn. lia.
  - destruct (clean_flat_rows (r :: rs) Hrs) as (out & Hout & Hc & Hh & Hu); [discriminate|].
    exists out, 0. rewrite Hc. repeat split; trivial.
Qed.

End Pipeline.

(** ** The script, end to end *)

Lemma merged_columns_length (key : string) (l r : list string) :
  List.length (merged_columns key l r) = List.length l + List.length r.
Proof.
  unfold merged_columns. now rewrite length_app, !length_map.
Qed.

Section ScriptFacts.

Variable parse_number : string -> option Z.
Variable srv : server.

Local Abbreviation extract :=
  (extract_worldbank_indicator parse_number Script.indicator Script.start_year
     Script.end_year Script.per_page srv).

(** X21. A run of the script comes to its end when the fetch returns a
    record at least and the reference table, which is not empty, has after
    the renaming one column [iso3] and at most one column [country_name]:
    it stores the raw records, then the merged table, and prints the
    summary.  The merged table has the rows of the reference table, one
    for one, and two columns more than the cleaned reference table. *)
Theorem script_writes_merged_table (fuel : nat) (countries_df : DataFrame)
    (full : list pyval) (wb_df : DataFrame) (log : list request) (i : nat) :
  extract fuel = (Returned (full, wb_df), log) ->
  full <> [] ->
  rectangular countries_df ->
  empty countries_df = false ->
  let cols := columns (rename_columns (standardize_colnames (columns countries_df))
                                      countries_df) in
  positions "iso3" cols = [i] ->
  List.length (positions "country_name" cols) <= 1 ->
  exists merged,
    Script.main parse_number srv fuel countries_df
    = (Returned tt,
       map Get log
       ++ [ MakeDirs "data/raw"; WriteJson Script.raw_json_path full;
            MakeDirs "data/processed"; WriteCsv Script.out_csv merged;
            Print (Script.summary merged) ])
    /\ nrows merged = nrows countries_df
    /\ ncols merged
       = (if mem "_country_norm" cols then ncols countries_df
          else S (ncols countries_df)) + 2.
Proof.
  intros Hfetch Hfull Hrect Hne cols Hi Hn.
  destruct (clean_countries_csv_with_code countries_df i Hrect Hne Hi Hn)
    as (cc & Hcc & Hrows & Hcols & Hpos & Hh). fold cols in Hcols.
  destruct (fetched_table_cleaned _ _ _ _ _ _ _ _ _ _ Hfetch Hfull)
    as (wc & j & Hwc & Hj & Hji & Hjv & Hhw & Hu).
  assert (Hkey : has_column "iso3" cc && has_column "iso3" wc = true).
  { now rewrite (positions_has_column _ _ _ _ Hpos), (positions_has_column _ _ _ _ Hj). }
  assert (Hm := merge_datasets_unique_rows cc wc i j 3 4). cbv zeta in Hm.
  rewrite Hkey in Hm. specialize (Hm Hpos Hj Hji Hjv).
  rewrite forallb_app, Hh, Hhw in Hm. specialize (Hm eq_refl Hu).
  eexists. split; [|split].
  - unfold Script.main. rewrite Hfetch. unfold Script.transform.
    rewrite Hcc, Hwc. cbn [obind]. rewrite Hm.
    unfold store_json, store_csv.
    rewrite ensure_dir_raw_json_path, ensure_dir_out_csv.
    rewrite <- !app_assoc. reflexivity.
  - unfold nrows. cbn [rows]. rewrite length_map. exact Hrows.
  - unfold ncols. cbn [columns]. rewrite merged_columns_length, Hcols.
    cbn [List.length]. unfold cols, rename_columns. cbn [columns].
    destruct (mem "_country_norm" _); rewrite ?length_app, !length_map; cbn [List.length]; lia.
Qed.

(** X22. When the first answer of the API is not a list of two elements
    at least (an error message, say), the script stores an empty list of
    raw records and then stops on [KeyError] for [_country_norm]: the
    table of the fetch has no column for the merge to read.  No merged
    table is written. *)
Theorem script_without_data (fuel : nat) (countries_df cc : DataFrame) (data : pyval) :
  srv (mkRequest Script.indicator Script.start_year Script.end_year Script.per_page 1)
  = Body data ->
  two_elements data = false ->
  clean_countries_csv countries_df = Ok cc ->
  Script.main parse_number srv (S fuel) countries_df
  = (Raised (KeyError "_country_norm"),
     [ Get (mkRequest Script.indicator Script.start_year Script.end_year
                      Script.per_page 1);
       MakeDirs "data/raw"; WriteJson Script.raw_json_path [] ]).
Proof.
  intros Hsrv Hshort Hcc. unfold Script.main, extract_worldbank_indicator.
  rewrite (fetch_pages_short _ _ _ _ _ fuel 1%Z [] [] data Hsrv Hshort).
  cbn [flat_table DataFrame_of empty nrows ncols rows columns List.length Nat.eqb orb negb].
  unfold Script.transform. rewrite Hcc. cbn [obind].
  replace (clean_worldbank_df (mkDF [] [])) with (Ok (mkDF [] [])) by reflexivity.
  cbn [obind]. unfold merge_datasets.
  replace (has_column "iso3" (mkDF [] [])) with false by reflexivity.
  rewrite andb_false_r.
  rewrite (select_missing_first "_country_norm" ["indicator"; "value"] (mkDF [] []) eq_refl).
  cbn [obind].
  unfold store_json. rewrite ensure_dir_raw_json_path. reflexivity.
Qed.

End ScriptFacts.

Lemma script_writes_merged_table_witness :
  exists merged,
    Script.main parse_digits (paged_server two_pages) 5 laos_reference
    = (Returned tt,
       map Get [population_request 1; population_request 2]
       ++ [ MakeDirs "data/raw"; WriteJson Script.raw_json_path (List.concat two_pages);
            MakeDirs "data/processed"; WriteCsv Script.out_csv merged;
            Print (Script.summary merged) ])
    /\ nrows merged = 1
    /\ ncols merged = 5.
Proof.
  apply (script_writes_merged_table parse_digits (paged_server two_pages) 5 laos_reference
           (List.concat two_pages)
           (mkDF flat_columns
              [ [PStr "Laos"; PStr "LAO"; PNum 2020; PStr "SP.POP.TOTL"; PNum 7];
                [PStr "Chad"; PStr "TCD"; PNum 2020; PStr "SP.POP.TOTL"; PNaN];
                [PStr "Peru"; PStr "PER"; PNum 2019; PStr "SP.POP.TOTL"; PNum 33] ])
           [population_request 1; population_request 2] 1);
    try reflexivity; try discriminate; try (repeat constructor); cbn; lia.
Defined.

Lemma script_without_data_witness :
  Script.main parse_digits (fun _ => Body (PList [PDict [("message", PStr "no data")]]))
    1 names_only_reference
  = (Raised (KeyError "_country_norm"),
     [Get (population_request 1); MakeDirs "data/raw"; WriteJson Script.raw_json_path []]).
Proof.
  apply (script_without_data parse_digits _ 0 names_only_reference cleaned_names_only
           (PList [PDict [("message", PStr "no data")]])); reflexivity.
Defined.

Lemma fetched_table_can_be_cleaned_witness :
  exists out,
    clean_worldbank_df
      (mkDF flat_columns
         [ [PStr "Laos"; PStr "LAO"; PNum 2020; PStr "SP.POP.TOTL"; PNum 7];
           [PStr "Chad"; PStr "TCD"; PNum 2020; PStr "SP.POP.TOTL"; PNaN];
           [PStr "Peru"; PStr "PER"; PNum 2019; PStr "SP.POP.TOTL"; PNum 33] ])
    = Ok out.
Proof.
  destruct (fetched_table_can_be_cleaned parse_digits "SP.POP.TOTL" 2015 2024 20000
              (paged_server two_pages) 5 (List.concat two_pages)
              (mkDF flat_columns
                 [ [PStr "Laos"; PStr "LAO"; PNum 2020; PStr "SP.POP.TOTL"; PNum 7];
                   [PStr "Chad"; PStr "TCD"; PNum 2020; PStr "SP.POP.TOTL"; PNaN];
                   [PStr "Peru"; PStr "PER"; PNum 2019; PStr "SP.POP.TOTL"; PNum 33] ])
              [population_request 1; population_request 2] eq_refl)
    as (out & H & _).
  now exists out.
Defined.

(** ** The directory of a path *)

Lemma upto_last_slash_plain (f : string) :
  PyStr.contains "/"%char f = false -> Path.upto_last_slash f = EmptyString.
Proof.
  induction f as [|c f IH]; cbn [PyStr.contains Path.upto_last_slash]; [reflexivity|].
  intros H. apply orb_false_iff in H. destruct H as [Hc Hf].
  now rewrite (IH Hf), Hc.
Qed.

Lemma upto_last_slash_app (d f : string) :
  PyStr.contains "/"%char f = false ->
  Path.upto_last_slash (d ++ String "/"%char f) = (d ++ "/")%string.
Proof.
  intros Hf. induction d as [|c d IH]; cbn [String.append Path.upto_last_slash].
  - now rewrite (upto_last_slash_plain f Hf).
  - rewrite IH. destruct d; reflexivity.
Qed.

Lemma all_slashes_rstrip (d : string) :
  Path.all_slashes d = true -> Path.rstrip_slashes d = EmptyString.
Proof.
  induction d as [|c d IH]; cbn [Path.all_slashes Path.rstrip_slashes]; [reflexivity|].
  intros H. apply andb_prop in H. destruct H as [Hc Hd]. now rewrite (IH Hd), Hc.
Qed.

Lemma all_slashes_app (d : string) :
  Path.all_slashes (d ++ "/") = Path.all_slashes d.
Proof.
  induction d as [|c d IH]; cbn [String.append Path.all_slashes]; [reflexivity|].
  now rewrite IH.
Qed.

Lemma rstrip_slashes_app (d : string) :
  Path.rstrip_slashes (d ++ "/") = Path.rstrip_slashes d.
Proof.
  induction d as [|c d IH]; cbn [String.append Path.rstrip_slashes]; [reflexivity|].
  now rewrite IH.
Qed.

(** X23. [ensure_dir] makes no directory for a bare file name, and for a
    file [f] in a directory [d] it makes [d], whatever the depth of [d]:
    the directory part of a path is the path without its last slash and
    what follows it. *)
Theorem ensure_dir_of_file (d f : string) :
  PyStr.contains "/"%char f = false ->
  ensure_dir f = []
  /\ (d <> "" -> Path.rstrip_slashes d = d ->
      ensure_dir (d ++ "/" ++ f) = [MakeDirs d]).
Proof.
  intros Hf. unfold ensure_dir, Path.dirname. split.
  - now rewrite (upto_last_slash_plain f Hf).
  - intros Hd Hr. change ("/" ++ f)%string with (String "/"%char f).
    rewrite (upto_last_slash_app d f Hf).
    assert (Hns : Path.all_slashes d = false).
    { destruct (Path.all_slashes d) eqn:E; [|reflexivity].
      apply all_slashes_rstrip in E. congruence. }
    rewrite all_slashes_app, Hns, rstrip_slashes_app, Hr.
    assert (Hne : ((d ++ "/") =? "")%string = false) by (destruct d; [congruence|reflexivity]).
    rewrite Hne. cbn [negb andb].
    destruct (String.eqb_spec d ""); [congruence|reflexivity].
Qed.

Lemma ensure_dir_of_file_witness :
  ensure_dir "merged.csv" = []
  /\ ensure_dir "data/processed/merged.csv" = [MakeDirs "data/processed"].
Proof.
  destruct (ensure_dir_of_file "data/processed" "merged.csv" eq_refl) as [H1 H2].
  split; [exact H1|]. apply H2; [discriminate|reflexivity].
Defined.

(** ** The table a cleaner returns *)

Lemma deref_update_same (s : Store.store) (p : Store.ref) (d : DataFrame) :
  p < List.length s -> Store.deref p (Store.update p d s) = d.
Proof.
  revert p. induction s as [|x s IH]; intros p H; cbn in H; [lia|].
  destruct p as [|p]; [reflexivity|]. cbn [Store.update]. unfold Store.deref in *.
  cbn [nth]. apply IH. lia.
Qed.

Lemma deref_update_other (s : Store.store) (p q : Store.ref) (d : DataFrame) :
  p <> q -> Store.deref p (Store.update q d s) = Store.deref p s.
Proof.
  revert p q. induction s as [|x s IH]; intros p q H; [now destruct q|].
  destruct q as [|q], p as [|p]; cbn [Store.update]; unfold Store.deref in *; cbn [nth];
    try reflexivity; try congruence.
  apply IH. congruence.
Qed.

Lemma deref_grows (s ext : Store.store) (p : Store.ref) :
  p < List.length s -> Store.deref p (s ++ ext) = Store.deref p s.
Proof.
  intros H. unfold Store.deref. now apply app_nth1.
Qed.

Lemma assign_scalar_run (q : Store.ref) (l : string) (v : pyval) (s : Store.store) :
  Store.assign_scalar q l v s
  = (Ok tt, Store.update q (setitem l (fun _ => v) (Store.deref q s)) s).
Proof. reflexivity. Qed.

(** X24. The table [clean_worldbank_df] or [clean_countries_csv] returns
    is the argument itself when the argument is empty, and a new table
    otherwise: a caller that adds a column to the cleaned table changes
    the table it gave exactly when that table was empty. *)
Theorem write_through_cleaned_table (s : Store.store) (p : Store.ref) (l : string)
    (v : pyval) :
  p < List.length s ->
  (forall q, fst (Store.clean_worldbank_df p s) = Ok q ->
     Store.deref p
       (snd (Store.bind (Store.clean_worldbank_df p)
                        (fun q => Store.assign_scalar q l v) s))
     = if empty (Store.deref p s) then setitem l (fun _ => v) (Store.deref p s)
       else Store.deref p s)
  /\ (forall q, fst (Store.clean_countries_csv p s) = Ok q ->
        Store.deref p
          (snd (Store.bind (Store.clean_countries_csv p)
                           (fun q => Store.assign_scalar q l v) s))
        = if empty (Store.deref p s) then setitem l (fun _ => v) (Store.deref p s)
          else Store.deref p s).
Proof.
  intros Hp. split; intros q Hq; rewrite bind_run.
  - assert (Hres := store_clean_worldbank_df_result s p).
    destruct (store_clean_worldbank_df_grows s p) as [ext Hext].
    assert (Hrun := store_clean_worldbank_df_run s p). cbv zeta in Hrun.
    destruct (Store.clean_worldbank_df p s) as [[q'|e] s'] eqn:E;
      cbn [fst snd] in *; [|discriminate].
    rewrite assign_scalar_run. cbn [snd].
    destruct (empty (Store.deref p s)) eqn:He.
    + inversion Hrun; subst. now apply deref_update_same.
    + destruct (clean_worldbank_df (Store.deref p s)) as [d'|e']; [|discriminate].
      destruct Hres as (q0 & Hq0 & _ & Hfresh). inversion Hq0; subst q0.
      rewrite deref_update_other by lia. subst s'. now apply deref_grows.
  - assert (Hres := store_clean_countries_csv_result s p).
    destruct (store_clean_countries_csv_grows s p) as [ext Hext].
    assert (Hrun := store_clean_countries_csv_run s p). cbv zeta in Hrun.
    destruct (Store.clean_countries_csv p s) as [[q'|e] s'] eqn:E;
      cbn [fst snd] in *; [|discriminate].
    rewrite assign_scalar_run. cbn [snd].
    destruct (empty (Store.deref p s)) eqn:He.
    + inversion Hrun; subst. now apply deref_update_same.
    + destruct (clean_countries_csv (Store.deref p s)) as [d'|e']; [|discriminate].
      destruct Hres as (q0 & Hq0 & _ & Hfresh). inversion Hq0; subst q0.
      rewrite deref_update_other by lia. subst s'. now apply deref_grows.
Qed.

Lemma write_through_cleaned_table_witness :
  Store.deref 0
    (snd (Store.bind (Store.clean_worldbank_df 0)
            (fun q => Store.assign_scalar q "seen" (PBool true))
            [mkDF flat_columns []]))
  = mkDF (flat_columns ++ ["seen"]) [].
Proof.
  apply (proj1 (write_through_cleaned_table [mkDF flat_columns []] 0 "seen" (PBool true)
                  (Nat.lt_0_succ 0)) 0).
  reflexivity.
Defined.

(** ** Cleaning a cleaned indicator table *)

Lemma is_space_upper_char (c : ascii) :
  Text.is_space (Text.upper_char c) = Text.is_space c.
Proof.
  destruct c as [[] [] [] [] [] [] [] []]; reflexivity.
Qed.

Lemma upper_char_idem (c : ascii) :
  Text.upper_char (Text.upper_char c) = Text.upper_char c.
Proof.
  destruct c as [[] [] [] [] [] [] [] []]; reflexivity.
Qed.

Lemma upper_idem (s : string) : Text.upper (Text.upper s) = Text.upper s.
Proof.
  unfold Text.upper.
  induction s as [|c s IH]; cbn [Text.smap]; [reflexivity|].
  now rewrite upper_char_idem, IH.
Qed.

Lemma upper_lstrip (s : string) :
  Text.upper (Text.lstrip s) = Text.lstrip (Text.upper s).
Proof.
  unfold Text.upper.
  induction s as [|c s IH]; cbn [Text.smap Text.lstrip]; [reflexivity|].
  rewrite is_space_upper_char. destruct (Text.is_space c); [exact IH|reflexivity].
Qed.

Lemma upper_rstrip (s : string) :
  Text.upper (Text.rstrip s) = Text.rstrip (Text.upper s).
Proof.
  unfold Text.upper.
  induction s as [|c s IH]; cbn [Text.smap Text.rstrip]; [reflexivity|].
  rewrite <- IH, is_space_upper_char.
  destruct (Text.rstrip s); cbn [Text.smap];
    [destruct (Text.is_space c)|]; reflexivity.
Qed.

Lemma upper_strip_comm (s : string) :
  Text.upper (Text.strip s) = Text.strip (Text.upper s).
Proof.
  unfold Text.strip. now rewrite upper_rstrip, upper_lstrip.
Qed.

Lemma upper_strip_idem (v : pyval) : upper_strip (upper_strip v) = upper_strip v.
Proof.
  unfold upper_strip. cbn [PyStr.str]. f_equal.
  now rewrite upper_strip_comm, upper_idem, strip_idem.
Qed.

Lemma strip_text_idem (v : pyval) : strip_text (strip_text v) = strip_text v.
Proof.
  unfold strip_text. cbn [PyStr.str]. f_equal. apply strip_idem.
Qed.

Lemma upper_strip_fixed_text (v : pyval) : upper_strip v = v -> klass v = 1.
Proof.
  intros H. rewrite <- H. reflexivity.
Qed.

Lemma strip_text_fixed_text (v : pyval) : strip_text v = v -> klass v = 1.
Proof.
  intros H. rewrite <- H. reflexivity.
Qed.

Lemma text_notna (v : pyval) : klass v = 1 -> isna v = false.
Proof. now destruct v. Qed.

(** Lists *)

Lemma filter_all {A} (p : A -> bool) (l : list A) :
  (forall x, In x l -> p x = true) -> filter p l = l.
Proof.
  induction l as [|x l IH]; cbn [filter]; intros H; [reflexivity|].
  rewrite (H x) by now left. f_equal. apply IH. intros y Hy. apply H. now right.
Qed.

Lemma map_nth_seq {A} (l : list A) (d : A) :
  map (fun j => nth j l d) (seq 0 (List.length l)) = l.
Proof.
  induction l as [|x l IH]; cbn [List.length seq map nth]; [reflexivity|].
  f_equal. rewrite <- seq_shift, map_map. exact IH.
Qed.

Lemma row_rebuild {A} (r : list A) (d : A) (m : nat) :
  List.length r = S m -> nth 0 r d :: map (fun j => nth j r d) (seq 1 m) = r.
Proof.
  destruct r as [|x r]; [discriminate|]. cbn [List.length nth]. intros H.
  injection H as <-. f_equal. rewrite <- seq_shift, map_map. apply map_nth_seq.
Qed.

Lemma other_positions_0 (m : nat) : other_positions 0 (S m) = seq 1 m.
Proof.
  unfold other_positions. cbn [seq filter Nat.eqb negb].
  apply filter_all. intros j Hj. apply in_seq in Hj. destruct j; [lia|reflexivity].
Qed.

Lemma insert_sorted_head {A} (le : A -> A -> bool) (x : A) (l : list A) :
  (forall y, In y l -> le x y = true) -> insert_sorted le x l = x :: l.
Proof.
  destruct l as [|y l]; [reflexivity|]. intros H. cbn [insert_sorted].
  now rewrite (H y) by now left.
Qed.

Lemma stable_sort_id {A} (le : A -> A -> bool) (l : list A) :
  StronglySorted (fun a b => le a b = true) l -> stable_sort le l = l.
Proof.
  induction 1 as [|a l Hs IH Hf]; [reflexivity|].
  unfold stable_sort in *. cbn [fold_right]. rewrite IH.
  apply insert_sorted_head. now rewrite Forall_forall in Hf.
Qed.

Lemma distinct_keys_sorted (ks : list pyval) :
  StronglySorted (fun a b => cmp_asc a b = Lt) ks -> distinct_keys ks = ks.
Proof.
  induction 1 as [|k l Hs IH Hf]; [reflexivity|].
  cbn [distinct_keys]. rewrite IH. f_equal. apply filter_all.
  rewrite Forall_forall in Hf. intros k' Hk'. unfold key_eqb. now rewrite (Hf k' Hk').
Qed.

Lemma group_of_sorted (i : nat) (rs : list row) (r : row) :
  StronglySorted (fun a b => cmp_asc (at_pos i a) (at_pos i b) = Lt) rs ->
  In r rs ->
  group_of i (at_pos i r) rs = [r].
Proof.
  unfold group_of. induction 1 as [|a l Hs IH Hf]; intros Hin; [destruct Hin|].
  rewrite Forall_forall in Hf. cbn [filter]. destruct Hin as [->|Hin].
  - rewrite key_eqb_refl. f_equal.
    assert (E : filter (fun r0 => key_eqb (at_pos i r0) (at_pos i r)) l = []).
    { clear IH. induction l as [|b l IHl]; [reflexivity|]. cbn [filter].
      assert (Hb : key_eqb (at_pos i b) (at_pos i r) = false).
      { rewrite key_eqb_sym. unfold key_eqb. now rewrite (Hf b) by now left. }
      rewrite Hb. apply IHl.
      - now inversion Hs.
      - intros x Hx. apply Hf. now right. }
    exact E.
  - assert (Ha : key_eqb (at_pos i a) (at_pos i r) = false).
    { unfold key_eqb. now rewrite (Hf r Hin). }
    rewrite Ha. now apply IH.
Qed.

Lemma first_valid_single (x : pyval) : first_valid [x] = x.
Proof.
  unfold first_valid. cbn [find hd]. now destruct (notna x).
Qed.

Lemma replace_label_id (cols : list string) (l : string) (v : pyval) (r : row) :
  List.length r = List.length cols ->
  (forall j, In j (positions l cols) -> at_pos j r = v) ->
  replace_label cols l v r = r.
Proof.
  intros Hlen H. apply (nth_ext _ _ PNaN PNaN).
  - apply replace_label_length.
  - intros j Hj. rewrite replace_label_length in Hj.
    fold (at_pos j (replace_label cols l v r)). fold (at_pos j r).
    rewrite at_pos_replace_label by lia.
    destruct (String.eqb_spec (label_at cols j) l) as [E|_]; [|reflexivity].
    symmetry. apply H. apply positions_spec. split; [lia|exact E].
Qed.

Lemma setitem_id (l : string) (f : row -> pyval) (t : DataFrame) (j : nat) :
  positions l (columns t) = [j] ->
  rectangular t ->
  (forall r, In r (rows t) -> f r = at_pos j r) ->
  setitem l f t = t.
Proof.
  intros Hj Hrect Hf. unfold setitem. rewrite (positions_has_column _ _ _ _ Hj).
  destruct t as [cols rs]. cbn [columns rows] in *. f_equal.
  rewrite <- (map_id rs) at 2. apply map_ext_in. intros r Hr.
  apply replace_label_id.
  - unfold rectangular in Hrect. rewrite Forall_forall in Hrect. exact (Hrect r Hr).
  - intros j' Hj'. rewrite Hj in Hj'. destruct Hj' as [<-|[]]. symmetry. now apply Hf.
Qed.

(** A table that the cleaner leaves as it is. *)
Lemma clean_worldbank_df_fixed (t : DataFrame) (L : list string) (jn jm jy jv : nat) :
  columns t = "iso3" :: L ->
  ~ In "iso3" L ->
  positions "country_name" (columns t) = [jn] ->
  positions "_country_norm" (columns t) = [jm] ->
  positions "year" (columns t) = [jy] ->
  positions "value" (columns t) = [jv] ->
  rectangular t ->
  (forall r, In r (rows t) ->
     upper_strip (at_pos 0 r) = at_pos 0 r
     /\ strip_text (at_pos jn r) = at_pos jn r
     /\ normalize_country_name (at_pos jn r) = at_pos jm r
     /\ isna (at_pos jv r) = false) ->
  forallb hashable (column_at jy t) = true ->
  sortable (column_at jy t) = true ->
  StronglySorted (fun a b => cmp_asc (at_pos 0 a) (at_pos 0 b) = Lt) (rows t) ->
  clean_worldbank_df t = Ok t.
Proof.
  intros Hcols Hno Hjn Hjm Hjy Hjv Hrect Hrows Hhy Hsy Hsorted.
  destruct (empty t) eqn:He; [unfold clean_worldbank_df; now rewrite He|].
  assert (H0 : positions "iso3" (columns t) = [0]).
  { rewrite Hcols. unfold positions. cbn [positions_from String.eqb Ascii.eqb Bool.eqb].
    now rewrite (positions_from_absent "iso3" L 1 Hno). }
  rewrite (clean_worldbank_df_from_cells t He). unfold cleaned_cells.
  rewrite (assign_from_at _ _ _ t 0 H0). cbn [obind].
  rewrite (setitem_id "iso3" _ t 0 H0 Hrect) by (intros r Hr; apply (Hrows r Hr)).
  rewrite (assign_from_at _ _ _ t jn Hjn). cbn [obind].
  rewrite (setitem_id "country_name" _ t jn Hjn Hrect) by (intros r Hr; apply (Hrows r Hr)).
  rewrite (assign_from_at _ _ _ t jn Hjn). cbn [obind].
  rewrite (setitem_id "_country_norm" _ t jm Hjm Hrect) by (intros r Hr; apply (Hrows r Hr)).
  assert (Hk : forall r, In r (rows t) -> klass (at_pos 0 r) = 1).
  { intros r Hr. apply upper_strip_fixed_text, (Hrows r Hr). }
  assert (Hlen : forall r, In r (rows t) -> List.length r = S (List.length L)).
  { intros r Hr. unfold rectangular in Hrect. rewrite Forall_forall in Hrect.
    rewrite (Hrect r Hr). unfold ncols. now rewrite Hcols. }
  (* sort_values *)
  unfold sort_values.
  rewrite (proj2 (key_position_positions "iso3" t 0) H0). cbn [obind].
  rewrite (proj2 (key_position_positions "year" t jy) Hjy). cbn [obind].
  assert (Hk0 : forallb hashable (column_at 0 t) = true /\ sortable (column_at 0 t) = true).
  { unfold column_at. split.
    - apply forallb_map_in. intros r Hr. apply text_hashable, (Hk r Hr).
    - apply sortable_text. intros v Hv. apply in_map_iff in Hv.
      destruct Hv as (r & <- & Hr). apply (Hk r Hr). }
  destruct Hk0 as [Hh0 Hs0].
  rewrite forallb_app, Hh0, Hhy, Hs0, Hsy. cbn [andb].
  rewrite stable_sort_id.
  2:{ refine (sorted_impl _ _ _ _ Hsorted). intros a b H.
      unfold le_of, row_cmp. now rewrite H. }
  replace (mkDF (columns t) (rows t)) with t by now destruct t.
  cbn [obind].
  (* dropna *)
  unfold dropna. cbn [find]. rewrite (positions_has_column _ _ _ _ Hjv). cbn [negb].
  rewrite filter_all.
  2:{ intros r Hr. rewrite (row_has_na_single _ _ r jv Hjv).
      - now rewrite (proj2 (proj2 (proj2 (Hrows r Hr)))).
      - unfold rectangular in Hrect. rewrite Forall_forall in Hrect. exact (Hrect r Hr). }
  replace (mkDF (columns t) (rows t)) with t by now destruct t.
  cbn [obind].
  (* groupby *)
  unfold groupby_first.
  rewrite (proj2 (key_position_positions "iso3" t 0) H0). cbn [obind].
  rewrite Hh0, Hs0. cbn [andb]. f_equal.
  assert (Hkeys : stable_sort (le_of cmp_asc) (distinct_keys (filter notna (column_at 0 t)))
                  = column_at 0 t).
  { assert (Hks : StronglySorted (fun a b => cmp_asc a b = Lt) (column_at 0 t)).
    { unfold column_at. now apply sorted_map. }
    rewrite filter_all.
    2:{ intros v Hv. unfold column_at in Hv. apply in_map_iff in Hv.
        destruct Hv as (r & <- & Hr). unfold notna.
        now rewrite (text_notna _ (Hk r Hr)). }
    rewrite (distinct_keys_sorted _ Hks). apply stable_sort_id.
    refine (sorted_impl _ _ _ _ Hks). intros a b H. unfold le_of. now rewrite H. }
  rewrite Hkeys. unfold ncols. rewrite Hcols. cbn [List.length].
  rewrite other_positions_0.
  destruct t as [cols rs]. cbn [columns rows] in *. subst cols. f_equal.
  - f_equal. rewrite <- seq_shift, map_map. unfold label_at. cbn [nth].
    apply map_nth_seq.
  - unfold column_at. cbn [rows]. rewrite map_map.
    transitivity (map (fun r : row => r) rs); [|apply map_id].
    apply map_ext_in. intros r Hr.
    rewrite (group_of_sorted 0 rs r Hsorted Hr).
    rewrite (map_ext _ (fun j => at_pos j r)) by (intros j; apply first_valid_single).
    apply row_rebuild. now apply Hlen.
Qed.

Lemma setitem_has_column (l : string) (f : row -> pyval) (df : DataFrame) :
  has_column l (setitem l f df) = true.
Proof.
  unfold has_column at 1. rewrite setitem_columns.
  destruct (has_column l df) eqn:E; [exact E|].
  apply mem_In, in_or_app. right. now left.
Qed.

Lemma has_column_setitem_mono (l l' : string) (f : row -> pyval) (df : DataFrame) :
  has_column l' df = true -> has_column l' (setitem l f df) = true.
Proof.
  intros H. destruct (String.eqb_spec l' l) as [->|Hne].
  - apply setitem_has_column.
  - now rewrite has_column_setitem.
Qed.

(** After lines 134 to 136 the three columns the cleaner writes hold
    what the cleaner would write in them again. *)
Lemma cleaned_cells_fixed (df c : DataFrame) :
  rectangular df ->
  NoDup (columns df) ->
  cleaned_cells df = Ok c ->
  exists i jn jm,
    positions "iso3" (columns c) = [i]
    /\ positions "country_name" (columns c) = [jn]
    /\ positions "_country_norm" (columns c) = [jm]
    /\ forall r, In r (rows c) ->
         upper_strip (at_pos i r) = at_pos i r
         /\ strip_text (at_pos jn r) = at_pos jn r
         /\ normalize_country_name (at_pos jn r) = at_pos jm r.
Proof.
  intros Hrect Hnd Hc.
  destruct (cleaned_cells_facts df c Hrect Hnd Hc) as (Hrc & Hndc & _).
  unfold cleaned_cells in Hc.
  destruct (assign_from "iso3" "iso3" upper_strip df) as [d1|] eqn:H1;
    cbn [obind] in Hc; [|discriminate].
  destruct (assign_from "country_name" "country_name" strip_text d1) as [d2|] eqn:H2;
    cbn [obind] in Hc; [|discriminate].
  rename Hc into H3.
  pose proof (assign_from_rectangular _ _ _ _ _ Hrect H1) as Hr1.
  pose proof (assign_from_rectangular _ _ _ _ _ Hr1 H2) as Hr2.
  apply assign_from_inv in H1, H2, H3.
  destruct H1 as [i1 [Hi1 ->]]. destruct H2 as [i2 [Hi2 ->]]. destruct H3 as [i3 [Hi3 ->]].
  set (d1 := setitem "iso3" (fun r => upper_strip (at_pos i1 r)) df) in *.
  set (d2 := setitem "country_name" (fun r => strip_text (at_pos i2 r)) d1) in *.
  set (c := setitem "_country_norm" (fun r => normalize_country_name (at_pos i3 r)) d2) in *.
  assert (Hin : forall l, has_column l c = true -> exists j, positions l (columns c) = [j]).
  { intros l Hl. apply positions_NoDup; [exact Hndc|now apply mem_In]. }
  destruct (Hin "iso3") as [i Hi].
  { unfold c. apply has_column_setitem_mono. unfold d2. apply has_column_setitem_mono.
    apply setitem_has_column. }
  destruct (Hin "country_name") as [jn Hjn].
  { unfold c. apply has_column_setitem_mono. apply setitem_has_column. }
  destruct (Hin "_country_norm") as [jm Hjm]; [apply setitem_has_column|].
  exists i, jn, jm. repeat split; trivial;
    rewrite <- ?(cell_unique _ r _ _ Hi), <- ?(cell_unique _ r _ _ Hjn),
      <- ?(cell_unique _ r _ _ Hjm);
    unfold c in H |- *; rewrite setitem_rows in H; apply in_map_iff in H;
    destruct H as [r2 [<- Hr]];
    unfold rectangular in Hr2; rewrite Forall_forall in Hr2; pose proof (Hr2 r2 Hr) as Hl2.
  - rewrite cell_setitem_other by (try discriminate; assumption).
    unfold d2 in Hr |- *. rewrite setitem_rows in Hr. apply in_map_iff in Hr.
    destruct Hr as [r1 [<- Hr]].
    unfold rectangular in Hr1. rewrite Forall_forall in Hr1. pose proof (Hr1 r1 Hr) as Hl1.
    rewrite cell_setitem_other by (try discriminate; assumption).
    unfold d1 in Hr |- *. rewrite setitem_rows in Hr. apply in_map_iff in Hr.
    destruct Hr as [r0 [<- Hr]].
    unfold rectangular in Hrect. rewrite Forall_forall in Hrect.
    rewrite cell_setitem_same by auto. apply upper_strip_idem.
  - rewrite cell_setitem_other by (try discriminate; assumption).
    unfold d2 in Hr |- *. rewrite setitem_rows in Hr. apply in_map_iff in Hr.
    destruct Hr as [r1 [<- Hr]].
    unfold rectangular in Hr1. rewrite Forall_forall in Hr1. pose proof (Hr1 r1 Hr) as Hl1.
    rewrite cell_setitem_same by auto. apply strip_text_idem.
  - rewrite cell_setitem_same by auto.
    rewrite cell_setitem_other by (try discriminate; assumption).
    now rewrite (cell_unique _ r2 _ _ Hi3).
Qed.

Lemma klass_text (v : pyval) : klass v = 1 -> exists s, v = PStr s.
Proof.
  destruct v; try discriminate. intros _. now eexists.
Qed.

Lemma sort_values_checks (k1 k2 : string) (df out : DataFrame) (j : nat) :
  sort_values k1 k2 df = Ok out ->
  positions k2 (columns df) = [j] ->
  forallb hashable (column_at j df) = true /\ sortable (column_at j df) = true.
Proof.
  unfold sort_values. intros H Hj.
  destruct (key_position k1 df) as [i|]; cbn [obind] in H; [|discriminate].
  rewrite (proj2 (key_position_positions k2 df j) Hj) in H. cbn [obind] in H.
  destruct (forallb hashable (column_at i df ++ column_at j df)
            && sortable (column_at i df) && sortable (column_at j df)) eqn:E;
    [|discriminate].
  apply andb_prop in E. destruct E as [E E3]. apply andb_prop in E. destruct E as [E1 _].
  rewrite forallb_app in E1. apply andb_prop in E1. tauto.
Qed.

Lemma forallb_incl {A} (p : A -> bool) (l l' : list A) :
  forallb p l = true -> incl l' l -> forallb p l' = true.
Proof.
  intros H Hi. apply forallb_forall. intros x Hx.
  rewrite forallb_forall in H. apply H, Hi, Hx.
Qed.

Lemma sortable_incl (l l' : list pyval) :
  sortable l = true -> incl l' l -> sortable l' = true.
Proof.
  unfold sortable. intros H Hi. apply orb_true_iff in H. apply orb_true_iff.
  destruct H as [H|H]; [left|right]; exact (forallb_incl _ _ _ H Hi).
Qed.

Lemma NoDup_map_on {A B} (f : A -> B) (l : list A) :
  (forall x y, In x l -> In y l -> f x = f y -> x = y) ->
  NoDup l -> NoDup (map f l).
Proof.
  intros Hinj Hnd. induction Hnd as [|a l Ha Hnd IH]; cbn [map]; constructor.
  - intros Hin. apply in_map_iff in Hin. destruct Hin as (x & Hx & Hin).
    apply Ha. rewrite <- (Hinj x a); [exact Hin|now right|now left|exact Hx].
  - apply IH. intros x y Hx Hy. apply Hinj; now right.
Qed.

Lemma other_labels_NoDup (cols : list string) (i : nat) :
  NoDup cols ->
  NoDup (map (label_at cols) (other_positions i (List.length cols))).
Proof.
  intros Hnd. apply NoDup_map_on.
  - intros x y Hx Hy E. apply in_other_positions in Hx, Hy.
    apply (proj1 (NoDup_nth cols "") Hnd); tauto.
  - unfold other_positions. apply NoDup_filter, seq_NoDup.
Qed.

(** A row of [GroupBy.first], from the rows of its group. *)
Lemma groupby_first_rows (key : string) (d out : DataFrame) (i : nat) (o : row) :
  groupby_first key d = Ok out ->
  positions key (columns d) = [i] ->
  (forall r, In r (rows d) -> klass (at_pos i r) = 1) ->
  In o (rows out) ->
  exists k h t,
    group_of i k (rows d) = h :: t
    /\ at_pos i h = k
    /\ o = k :: map (fun j => first_valid (map (at_pos j) (h :: t)))
                    (other_positions i (ncols d)).
Proof.
  intros Hg Hi Htext Ho.
  destruct (groupby_first_inv _ _ _ Hg) as (i' & Hi' & _ & Hr).
  rewrite Hi in Hi'. injection Hi' as <-.
  rewrite Hr in Ho. apply in_map_iff in Ho. destruct Ho as (k & <- & Hk).
  apply (Permutation_in _ (stable_sort_perm _ _)) in Hk.
  apply in_distinct_keys, filter_In in Hk. destruct Hk as [Hk _].
  unfold column_at in Hk. apply in_map_iff in Hk. destruct Hk as (r0 & Hk0 & Hr0).
  assert (Hr0g : In r0 (group_of i k (rows d))).
  { apply filter_In. split; [exact Hr0|]. rewrite Hk0. apply key_eqb_refl. }
  destruct (group_of i k (rows d)) as [|h t] eqn:Hgrp; [destruct Hr0g|].
  exists k, h, t. split; [exact Hgrp|]. split; [|reflexivity].
  assert (Hh : In h (rows d) /\ key_eqb (at_pos i h) k = true).
  { apply (proj1 (filter_In (fun r => key_eqb (at_pos i r) k) h (rows d))).
    fold (group_of i k (rows d)). rewrite Hgrp. now left. }
  destruct Hh as [Hh Hhk].
  destruct (klass_text _ (Htext h Hh)) as [s Es].
  destruct (klass_text _ (Htext r0 Hr0)) as [s0 Es0]. rewrite Hk0 in Es0.
  exact (text_key_eq _ _ s s0 Es Es0 Hhk).
Qed.

(** X25. [clean_worldbank_df] is idempotent: on a table with distinct
    labels and one cell per column in each row, the table it returns is
    one it returns unchanged. *)
Theorem clean_worldbank_df_idempotent (df out : DataFrame) :
  rectangular df ->
  NoDup (columns df) ->
  clean_worldbank_df df = Ok out ->
  clean_worldbank_df out = Ok out.
Proof.
  intros Hrect Hnd Hclean.
  destruct (empty df) eqn:He.
  { unfold clean_worldbank_df in Hclean. rewrite He in Hclean.
    inversion Hclean; subst out. unfold clean_worldbank_df. now rewrite He. }
  destruct (clean_worldbank_df_cells df out He Hclean) as (c & d4 & d5 & Hc & Hs & Hd & Hg).
  destruct (cleaned_cells_facts df c Hrect Hnd Hc) as (Hrc & Hndc & _).
  destruct (cleaned_cells_fixed df c Hrect Hnd Hc) as (i & jn & jm & Hi & Hjn & Hjm & Hfix).
  destruct (sort_values_inv _ _ _ _ Hs) as (i' & y & Hi' & Hy & Hc4 & Hr4).
  rewrite Hi in Hi'. injection Hi' as <-.
  destruct (sort_values_checks _ _ _ _ y Hs Hy) as [Hhy Hsy].
  destruct (dropna_inv _ _ _ Hd) as (Hv & Hc5 & Hr5).
  rewrite Hc4 in Hc5. rewrite Hc4, Hr4 in Hr5.
  assert (Hvin : In "value" (columns c)).
  { apply mem_In. unfold has_column in Hv. now rewrite Hc4 in Hv. }
  destruct (positions_NoDup "value" (columns c) Hndc Hvin) as [v Hvpos].
  assert (Hi5 : positions "iso3" (columns d5) = [i]) by now rewrite Hc5.
  destruct (groupby_first_inv _ _ _ Hg) as (i' & Hi' & Hco & _).
  rewrite Hi5 in Hi'. injection Hi' as <-.
  assert (Hn5 : ncols d5 = List.length (columns c)) by (unfold ncols; now rewrite Hc5).
  rewrite Hn5, Hc5 in Hco.
  set (cols := columns c) in *.
  set (others := other_positions i (List.length cols)) in *.
  set (L := map (label_at cols) others) in *.
  assert (F2 : forall r, In r (rows c) -> List.length r = List.length cols).
  { unfold rectangular in Hrc. rewrite Forall_forall in Hrc. exact Hrc. }
  assert (F4 : forall r, In r (rows d5) -> In r (rows c) /\ isna (at_pos v r) = false).
  { intros r Hr. rewrite Hr5 in Hr. apply filter_In in Hr. destruct Hr as [Hin H].
    apply (Permutation_in _ (stable_sort_perm _ _)) in Hin. split; [exact Hin|].
    rewrite (row_has_na_single cols "value" r v Hvpos (F2 r Hin)) in H.
    now apply negb_true_iff. }
  assert (Htext5 : forall r, In r (rows d5) -> klass (at_pos i r) = 1).
  { intros r Hr. apply upper_strip_fixed_text, (Hfix r), (F4 r Hr). }
  assert (Hno : ~ In "iso3" L) by exact (other_labels_exclude_key "iso3" cols i Hi).
  assert (Hndo : NoDup (columns out)).
  { rewrite Hco. constructor; [exact Hno|]. now apply other_labels_NoDup. }
  assert (Hout : forall l j, l <> "iso3" -> positions l cols = [j] ->
             exists j', positions l (columns out) = [j']
                        /\ forall k F, at_pos j' (k :: map F others) = F j).
  { intros l j Hl Hj.
    assert (G : In j (positions l cols)) by (rewrite Hj; now left).
    apply positions_spec in G. destruct G as [G1 G2].
    assert (Hjo : In j others).
    { apply in_other_positions. split; [exact G1|]. intros ->.
      assert (G : In i (positions "iso3" cols)) by (rewrite Hi; now left).
      apply positions_spec in G. destruct G as [_ G]. congruence. }
    assert (Hun : forall j', In j' others -> label_at cols j' = l -> j' = j).
    { intros j' Hj' Hl'. apply in_other_positions in Hj'. destruct Hj' as [Hlt _].
      assert (G : In j' (positions l cols)) by (apply positions_spec; auto).
      rewrite Hj in G. destruct G as [G|[]]. congruence. }
    assert (Hlo : In l (columns out)).
    { rewrite Hco. right. apply in_map_iff. now exists j. }
    destruct (positions_NoDup l (columns out) Hndo Hlo) as [j' Hj'].
    exists j'. split; [exact Hj'|]. intros k F.
    rewrite <- (cell_unique (columns out) _ l j' Hj'). rewrite Hco, cell_cons.
    destruct (String.eqb_spec "iso3" l) as [E|_]; [congruence|].
    now apply cell_mapped. }
  destruct (Hout "country_name" jn ltac:(discriminate) Hjn) as (jn' & Hjn' & Ejn).
  destruct (Hout "_country_norm" jm ltac:(discriminate) Hjm) as (jm' & Hjm' & Ejm).
  destruct (Hout "year" y ltac:(discriminate) Hy) as (y' & Hy' & Ey).
  destruct (Hout "value" v ltac:(discriminate) Hvpos) as (v' & Hv' & Ev).
  assert (Hrowso : forall o, In o (rows out) ->
            exists k h t,
              In h (rows d5)
              /\ (forall x, In x (h :: t) -> In x (rows d5))
              /\ at_pos i h = k
              /\ o = k :: map (fun j => first_valid (map (at_pos j) (h :: t))) others).
  { intros o Ho.
    destruct (groupby_first_rows "iso3" d5 out i o Hg Hi5 Htext5 Ho)
      as (k & h & t & Hgrp & Hk & Eo).
    rewrite Hn5 in Eo. exists k, h, t.
    assert (Hsub : forall x, In x (h :: t) -> In x (rows d5)).
    { intros x Hx. rewrite <- Hgrp in Hx. unfold group_of in Hx.
      apply filter_In in Hx. tauto. }
    repeat split; trivial. apply Hsub. now left. }
  apply (clean_worldbank_df_fixed out L jn' jm' y' v' Hco Hno Hjn' Hjm' Hy' Hv').
  - unfold rectangular. apply Forall_forall. intros o Ho.
    destruct (Hrowso o Ho) as (k & h & t & _ & _ & _ & ->).
    unfold ncols. rewrite Hco. cbn [List.length]. unfold L. now rewrite !length_map.
  - intros o Ho. destruct (Hrowso o Ho) as (k & h & t & Hh5 & _ & Hk & ->).
    destruct (F4 h Hh5) as [Hhc Hhv]. destruct (Hfix h Hhc) as (Hf1 & Hf2 & Hf3).
    rewrite Ejn, Ejm, Ev. cbn [map at_pos nth].
    fold (at_pos jn h). fold (at_pos jm h). fold (at_pos v h).
    assert (Hn1 : isna (at_pos jn h) = false)
      by (apply text_notna, strip_text_fixed_text, Hf2).
    assert (Hn2 : isna (at_pos jm h) = false).
    { rewrite <- Hf3. destruct (klass_text _ (strip_text_fixed_text _ Hf2)) as [s ->].
      reflexivity. }
    rewrite !first_valid_head by assumption.
    rewrite <- Hk. auto.
  - unfold column_at in *. apply (forallb_incl _ _ _ Hhy).
    intros x Hx. apply in_map_iff in Hx. destruct Hx as (o & <- & Ho).
    destruct (Hrowso o Ho) as (k & h & t & _ & Hsub & _ & ->). rewrite Ey.
    pose proof (first_valid_in (at_pos y h) (map (at_pos y) t)) as Hfv.
    change (at_pos y h :: map (at_pos y) t) with (map (at_pos y) (h :: t)) in Hfv.
    apply in_map_iff in Hfv. destruct Hfv as (r & <- & Hr).
    apply in_map. apply (F4 r), Hsub, Hr.
  - unfold column_at in *. apply (sortable_incl _ _ Hsy).
    intros x Hx. apply in_map_iff in Hx. destruct Hx as (o & <- & Ho).
    destruct (Hrowso o Ho) as (k & h & t & _ & Hsub & _ & ->). rewrite Ey.
    pose proof (first_valid_in (at_pos y h) (map (at_pos y) t)) as Hfv.
    change (at_pos y h :: map (at_pos y) t) with (map (at_pos y) (h :: t)) in Hfv.
    apply in_map_iff in Hfv. destruct Hfv as (r & <- & Hr).
    apply in_map. apply (F4 r), Hsub, Hr.
  - exact (proj2 (clean_worldbank_df_sorted_keys df out He Hclean)).
Qed.

Lemma clean_worldbank_df_idempotent_witness :
  clean_worldbank_df cleaned_two_codes = Ok cleaned_two_codes.
Proof.
  apply (clean_worldbank_df_idempotent two_codes_table); try reflexivity;
    repeat constructor; cbn; intuition discriminate.
Defined.

(** ** Cleaning a cleaned reference table *)

Lemma first_split {A} (p : A -> bool) (l : list A) (x : A) :
  In x l -> p x = true ->
  exists pre c post,
    l = pre ++ c :: post /\ p c = true /\ forall k, In k pre -> p k = false.
Proof.
  induction l as [|a l IH]; intros Hin Hp; [destruct Hin|].
  destruct (p a) eqn:Ea.
  - exists [], a, l. repeat split; trivial. intros k [].
  - destruct Hin as [->|Hin]; [congruence|].
    destruct (IH Hin Hp) as (pre & c & post & -> & Hc & Hpre).
    exists (a :: pre), c, post. repeat split; trivial.
    intros k [<-|Hk]; auto.
Qed.

Lemma canonical_of_canonical (v : string) :
  In v canonical_names -> canonical_of v = Some v.
Proof.
  unfold canonical_names. cbn [In].
  intros [<-|[<-|[<-|[<-|[]]]]]; reflexivity.
Qed.

(** Headers that were renamed once are renamed to themselves: in the
    mapping of the renamed headers, followed by headers that stand for no
    canonical name, every entry maps a header to itself. *)
Lemma standardize_colnames_renamed (cols extra : list string) (c v : string) :
  (forall x, In x extra -> canonical_of x = None) ->
  let ren := fun x => match assoc (standardize_colnames cols) x with
                      | Some w => w
                      | None => x
                      end in
  In (c, v) (standardize_colnames (map ren cols ++ extra)) ->
  c = v.
Proof.
  intros Hextra ren Hin.
  destruct (standardize_colnames_mapping cols) as [Hk1 Hv1 Hs1 Hc1].
  destruct (standardize_colnames_mapping (map ren cols ++ extra)) as [_ _ Hs2 _].
  destruct (Hs2 c v Hin) as [Hc Hcan].
  assert (Hv : In v canonical_names) by (apply canonical_of_iff in Hcan; tauto).
  (* some header of [cols] is renamed to [v] *)
  assert (Hg : exists g, In (g, v) (standardize_colnames cols)).
  { apply in_app_or in Hc. destruct Hc as [Hc|Hc];
      [|rewrite (Hextra c Hc) in Hcan; discriminate].
    apply in_map_iff in Hc. destruct Hc as (c0 & Hren & Hc0). unfold ren in Hren.
    destruct (assoc (standardize_colnames cols) c0) as [v0|] eqn:Ea.
    - subst v0. apply assoc_in in Ea. destruct (Hs1 c0 c Ea) as [_ Hcc].
      assert (Hcn : In c canonical_names) by (apply canonical_of_iff in Hcc; tauto).
      rewrite (canonical_of_canonical c Hcn) in Hcan. inversion Hcan; subst v.
      now exists c0.
    - subst c0. assert (Hval := Hc1 c v Hc0 Hcan). unfold values in Hval.
      apply in_map_iff in Hval. destruct Hval as ([g w] & Hw & Hgin). cbn in Hw. subst w.
      now exists g. }
  destruct Hg as [g Hg]. destruct (Hs1 g v Hg) as [Hgin Hgcan].
  pose (p := fun x => match canonical_of x with Some w => w =? v | None => false end).
  assert (Hp : forall x, p x = true <-> canonical_of x = Some v).
  { intros x. unfold p. destruct (canonical_of x) as [w|]; [|split; discriminate].
    rewrite String.eqb_eq. split; [now intros ->|now intros H; inversion H]. }
  destruct (first_split p cols g Hgin (proj2 (Hp g) Hgcan))
    as (pre & f & post & Ecols & Hf & Hpre).
  assert (Hfacts1 := standardize_colnames_first_facts pre post f v Hv).
  cbv zeta in Hfacts1. rewrite <- Ecols in Hfacts1.
  destruct Hfacts1 as (Hassoc & Huniq & _).
  { apply canonical_of_iff. now apply Hp. }
  { intros k Hk. specialize (Hpre k Hk).
    destruct (mem (Text.lower (Text.strip k)) (synonyms_of v)) eqn:E; [|reflexivity].
    assert (canonical_of k = Some v) by (apply canonical_of_iff; auto).
    apply Hp in H. congruence. }
  assert (Eren : map ren cols ++ extra = map ren pre ++ v :: (map ren post ++ extra)).
  { rewrite Ecols, map_app. cbn [map]. unfold ren at 2. rewrite Hassoc.
    now rewrite <- app_assoc. }
  assert (Hfacts2 := standardize_colnames_first_facts (map ren pre) (map ren post ++ extra)
                       v v Hv).
  cbv zeta in Hfacts2. rewrite <- Eren in Hfacts2.
  destruct Hfacts2 as (_ & Huniq2 & _).
  { apply canonical_of_iff. now apply canonical_of_canonical. }
  { intros k Hk. apply in_map_iff in Hk. destruct Hk as (k0 & Hren & Hk0).
    destruct (mem (Text.lower (Text.strip k)) (synonyms_of v)) eqn:E; [|reflexivity].
    exfalso.
    assert (Hkv : canonical_of k = Some v) by (apply canonical_of_iff; auto).
    unfold ren in Hren.
    destruct (assoc (standardize_colnames cols) k0) as [v0|] eqn:Ea.
    - subst v0. apply assoc_in in Ea. destruct (Hs1 k0 k Ea) as [_ Hkc].
      assert (Hkn : In k canonical_names) by (apply canonical_of_iff in Hkc; tauto).
      rewrite (canonical_of_canonical k Hkn) in Hkv. inversion Hkv; subst k.
      rewrite (Huniq k0 Ea) in Hk0.
      specialize (Hpre f Hk0). congruence.
    - subst k0. specialize (Hpre k Hk0). apply Hp in Hkv. congruence. }
  now apply Huniq2.
Qed.

Lemma setitem_id_all (l : string) (f : row -> pyval) (t : DataFrame) :
  has_column l t = true ->
  rectangular t ->
  (forall r j, In r (rows t) -> In j (positions l (columns t)) -> at_pos j r = f r) ->
  setitem l f t = t.
Proof.
  intros Hh Hrect Hf. unfold setitem. rewrite Hh.
  destruct t as [cols rs]. cbn [columns rows] in *. f_equal.
  transitivity (map (fun r : row => r) rs); [|apply map_id].
  apply map_ext_in. intros r Hr. apply replace_label_id.
  - unfold rectangular in Hrect. rewrite Forall_forall in Hrect. exact (Hrect r Hr).
  - intros j Hj. now apply Hf.
Qed.

(** A row of a table after [df[label] = ...]: the cells written and the
    cells kept. *)
Lemma setitem_written (l : string) (f : row -> pyval) (t : DataFrame) (r' : row) :
  rectangular t ->
  In r' (rows (setitem l f t)) ->
  exists r,
    In r (rows t)
    /\ (forall j, In j (positions l (columns (setitem l f t))) -> at_pos j r' = f r)
    /\ (forall j, j < ncols t -> label_at (columns t) j <> l -> at_pos j r' = at_pos j r).
Proof.
  intros Hrect Hin. rewrite setitem_rows in Hin. apply in_map_iff in Hin.
  destruct Hin as (r & <- & Hr). exists r. split; [exact Hr|].
  assert (Hlen : List.length r = List.length (columns t)).
  { unfold rectangular in Hrect. rewrite Forall_forall in Hrect. exact (Hrect r Hr). }
  split.
  - intros j Hj. rewrite setitem_positions in Hj.
    destruct (has_column l t) eqn:Hh.
    + apply positions_spec in Hj. destruct Hj as [Hlt Hlab].
      rewrite (at_pos_setitem_row _ _ _ _ _ Hlen Hlt), Hlab. now rewrite String.eqb_refl.
    + rewrite (has_column_false_positions l t Hh), String.eqb_refl in Hj.
      destruct Hj as [<-|[]]. now apply at_pos_setitem_row_new.
  - intros j Hlt Hlab. rewrite (at_pos_setitem_row _ _ _ _ _ Hlen Hlt).
    destruct (String.eqb_spec (label_at (columns t) j) l); [contradiction|reflexivity].
Qed.

(** A reference table that the cleaner leaves as it is. *)
Lemma clean_countries_csv_fixed (t : DataFrame) :
  rectangular t ->
  empty t = false ->
  (forall c v, In (c, v) (standardize_colnames (columns t)) -> c = v) ->
  has_column "_country_norm" t = true ->
  (forall r i, In r (rows t) -> In i (positions "iso3" (columns t)) ->
     upper_strip (at_pos i r) = at_pos i r) ->
  (forall r j, In r (rows t) -> In j (positions "country_name" (columns t)) ->
     strip_text (at_pos j r) = at_pos j r) ->
  (forall r jm, In r (rows t) -> In jm (positions "_country_norm" (columns t)) ->
     at_pos jm r = match positions "country_name" (columns t) with
                   | j :: _ => normalize_country_name (at_pos j r)
                   | [] => PNone
                   end) ->
  List.length (positions "iso3" (columns t)) <= 1 ->
  List.length (positions "country_name" (columns t)) <= 1 ->
  clean_countries_csv t = Ok t.
Proof.
  intros Hrect Hne Hmap Hnorm Hiso Hname Hkey Hli Hln.
  assert (Hren : rename_columns (standardize_colnames (columns t)) t = t).
  { unfold rename_columns. destruct t as [cols rs]. cbn [columns rows] in *. f_equal.
    transitivity (map (fun c : string => c) cols); [|apply map_id].
    apply map_ext_in. intros c Hc.
    destruct (assoc (standardize_colnames cols) c) as [v|] eqn:E; [|reflexivity].
    symmetry. exact (Hmap c v (assoc_in _ _ _ E)). }
  assert (H := clean_countries_csv_steps t Hne). cbv zeta in H. rewrite Hren in H.
  destruct (positions "iso3" (columns t)) as [|i [|i' ti]] eqn:Ei;
    [| |cbn in Hli; lia];
    destruct (positions "country_name" (columns t)) as [|j [|j' tj]] eqn:Ej;
    try (cbn in Hln; lia); rewrite H; f_equal.
  - apply setitem_id_all; trivial.
  - rewrite (setitem_id "country_name" _ t j Ej Hrect)
      by (intros r Hr; apply Hname; [exact Hr|now left]).
    apply setitem_id_all; trivial.
  - rewrite (setitem_id "iso3" _ t i Ei Hrect)
      by (intros r Hr; apply Hiso; [exact Hr|now left]).
    apply setitem_id_all; trivial.
  - rewrite (setitem_id "iso3" _ t i Ei Hrect)
      by (intros r Hr; apply Hiso; [exact Hr|now left]).
    rewrite (setitem_id "country_name" _ t j Ej Hrect)
      by (intros r Hr; apply Hname; [exact Hr|now left]).
    apply setitem_id_all; trivial.
Qed.

Lemma setitem_positions_other (l l' : string) (f : row -> pyval) (t : DataFrame) :
  l' <> l -> positions l' (columns (setitem l f t)) = positions l' (columns t).
Proof.
  intros Hne. rewrite setitem_positions. destruct (has_column l t); [reflexivity|].
  destruct (String.eqb_spec l l'); [congruence|apply app_nil_r].
Qed.

(** X26. [clean_countries_csv] is idempotent: when it succeeds on a table
    with one cell per column in each row, the table it returns is one it
    returns unchanged. *)
Theorem clean_countries_csv_idempotent (df cc : DataFrame) :
  rectangular df ->
  clean_countries_csv df = Ok cc ->
  clean_countries_csv cc = Ok cc.
Proof.
  intros Hrect Hclean.
  destruct (empty df) eqn:He.
  { unfold clean_countries_csv in Hclean. rewrite He in Hclean.
    inversion Hclean; subst cc. unfold clean_countries_csv. now rewrite He. }
  assert (Hs := clean_countries_csv_steps df He). cbv zeta in Hs.
  set (d0 := rename_columns (standardize_colnames (columns df)) df) in *.
  assert (Hr0 : rectangular d0) by now apply rename_columns_rectangular.
  set (cols := columns d0) in *.
  assert (Hli : List.length (positions "iso3" cols) <= 1).
  { destruct (positions "iso3" cols) as [|? [|? ?]]; cbn; try lia.
    rewrite Hclean in Hs. discriminate Hs. }
  assert (Hln : List.length (positions "country_name" cols) <= 1).
  { destruct (positions "country_name" cols) as [|? [|? ?]]; cbn; try lia.
    destruct (positions "iso3" cols) as [|? [|? ?]]; rewrite Hclean in Hs; discriminate Hs. }
  set (a := match positions "iso3" cols with
            | [i] => setitem "iso3" (fun r => upper_strip (at_pos i r)) d0
            | _ => d0
            end).
  set (b := match positions "country_name" cols with
            | [j] => setitem "country_name" (fun r => strip_text (at_pos j r)) a
            | _ => a
            end).
  set (f3 := match positions "country_name" cols with
             | [j] => fun r : row => normalize_country_name (at_pos j r)
             | _ => fun _ : row => PNone
             end).
  assert (Hcc : cc = setitem "_country_norm" f3 b).
  { subst a b f3.
    destruct (positions "iso3" cols) as [|i [|i' ti]];
      destruct (positions "country_name" cols) as [|j [|j' tj]];
      rewrite Hclean in Hs; first [now inversion Hs | discriminate Hs]. }
  (* the table after the code column is written *)
  assert (Ha : rectangular a /\ columns a = cols
               /\ forall r i, In r (rows a) -> In i (positions "iso3" cols) ->
                    upper_strip (at_pos i r) = at_pos i r).
  { subst a. destruct (positions "iso3" cols) as [|i [|i' ti]] eqn:Ei.
    - repeat split; trivial. intros r i _ [].
    - split; [now apply setitem_rectangular|].
      split; [apply setitem_same_columns; exact (positions_has_column _ _ _ _ Ei)|].
      intros r i0 Hr [<-|[]].
      destruct (setitem_written _ _ _ _ Hr0 Hr) as (r0 & _ & Hw & _).
      rewrite (Hw i).
      + apply upper_strip_idem.
      + rewrite setitem_positions, (positions_has_column _ _ _ _ Ei).
        fold cols. rewrite Ei. now left.
    - cbn in Hli. lia. }
  destruct Ha as (Hra & Hca & Hfa).
  (* the table after the name column is written *)
  assert (Hb : rectangular b /\ columns b = cols
               /\ (forall r i, In r (rows b) -> In i (positions "iso3" cols) ->
                     upper_strip (at_pos i r) = at_pos i r)
               /\ forall r j, In r (rows b) -> In j (positions "country_name" cols) ->
                    strip_text (at_pos j r) = at_pos j r).
  { subst b. destruct (positions "country_name" cols) as [|j [|j' tj]] eqn:Ej.
    - repeat split; trivial. intros r j _ [].
    - assert (Hhj : has_column "country_name" a = true).
      { unfold has_column. rewrite Hca. exact (positions_has_column _ _ _ _ Ej). }
      split; [now apply setitem_rectangular|].
      split; [rewrite setitem_same_columns; trivial|].
      split.
      + intros r i Hr Hi.
        destruct (setitem_written _ _ _ _ Hra Hr) as (ra & Hra' & _ & Hk).
        assert (Hi' := Hi). apply positions_spec in Hi'. destruct Hi' as [Hlt Hlab].
        rewrite (Hk i).
        * now apply Hfa.
        * unfold ncols. now rewrite Hca.
        * rewrite Hca. fold cols in Hlab. rewrite Hlab. discriminate.
      + intros r j0 Hr [<-|[]].
        destruct (setitem_written _ _ _ _ Hra Hr) as (ra & _ & Hw & _).
        rewrite (Hw j).
        * apply strip_text_idem.
        * rewrite setitem_positions, Hhj, Hca. rewrite Ej. now left.
    - cbn in Hln. lia. }
  destruct Hb as (Hrb & Hcb & Hfb1 & Hfb2).
  assert (Hpos : forall l, l <> "_country_norm" ->
                   positions l (columns cc) = positions l cols).
  { intros l Hl. rewrite Hcc, setitem_positions_other by exact Hl. now rewrite Hcb. }
  assert (Hrowcc : forall r, In r (rows cc) ->
            exists rb, In rb (rows b)
              /\ (forall jm, In jm (positions "_country_norm" (columns cc)) ->
                    at_pos jm r = f3 rb)
              /\ (forall j l, l <> "_country_norm" -> In j (positions l cols) ->
                    at_pos j r = at_pos j rb)).
  { intros r Hr. rewrite Hcc in Hr.
    destruct (setitem_written _ _ _ _ Hrb Hr) as (rb & Hrb' & Hw & Hk).
    exists rb. split; [exact Hrb'|]. split.
    - intros jm Hjm. apply Hw. now rewrite <- Hcc.
    - intros j l Hl Hj. apply positions_spec in Hj. destruct Hj as [Hlt Hlab].
      apply Hk.
      + unfold ncols. now rewrite Hcb.
      + rewrite Hcb. fold cols in Hlab. now rewrite Hlab. }
  apply clean_countries_csv_fixed.
  - rewrite Hcc. now apply setitem_rectangular.
  - unfold empty in *. apply orb_false_iff in He. destruct He as [Hn Hc].
    apply orb_false_iff. split.
    + rewrite Hcc, setitem_nrows.
      assert (Hnb : nrows b = nrows df).
      { subst b a. destruct (positions "country_name" cols) as [|? [|? ?]];
          destruct (positions "iso3" cols) as [|? [|? ?]];
          rewrite ?setitem_nrows; reflexivity. }
      now rewrite Hnb.
    + apply Nat.eqb_neq. apply Nat.eqb_neq in Hc.
      assert (Hle : ncols b <= ncols cc) by (rewrite Hcc; apply ncols_setitem).
      assert (Hnc : ncols b = ncols df).
      { unfold ncols. rewrite Hcb. unfold cols, d0, rename_columns. cbn [columns].
        apply length_map. }
      lia.
  - intros c v Hin.
    assert (Ecols : columns cc
                    = map (fun x => match assoc (standardize_colnames (columns df)) x with
                                    | Some w => w
                                    | None => x
                                    end) (columns df)
                      ++ (if has_column "_country_norm" b then [] else ["_country_norm"])).
    { rewrite Hcc, setitem_columns, Hcb.
      destruct (has_column "_country_norm" b); [now rewrite app_nil_r|reflexivity]. }
    rewrite Ecols in Hin.
    refine (standardize_colnames_renamed (columns df) _ c v _ Hin).
    intros x Hx. destruct (has_column "_country_norm" b); [destruct Hx|].
    destruct Hx as [<-|[]]. reflexivity.
  - rewrite Hcc. apply setitem_has_column.
  - intros r i Hr Hi. rewrite Hpos in Hi by discriminate.
    destruct (Hrowcc r Hr) as (rb & Hrb' & _ & Hk).
    rewrite (Hk i "iso3") by (try discriminate; exact Hi). now apply Hfb1.
  - intros r j Hr Hj. rewrite Hpos in Hj by discriminate.
    destruct (Hrowcc r Hr) as (rb & Hrb' & _ & Hk).
    rewrite (Hk j "country_name") by (try discriminate; exact Hj). now apply Hfb2.
  - intros r jm Hr Hjm. rewrite Hpos by discriminate.
    destruct (Hrowcc r Hr) as (rb & Hrb' & Hw & Hk).
    rewrite (Hw jm Hjm). unfold f3.
    destruct (positions "country_name" cols) as [|j [|j' tj]] eqn:Ej; trivial.
    + rewrite (Hk j "country_name"); [reflexivity|discriminate|rewrite Ej; now left].
    + cbn in Hln. lia.
  - now rewrite Hpos by discriminate.
  - now rewrite Hpos by discriminate.
Qed.

Lemma clean_countries_csv_idempotent_witness :
  clean_countries_csv cleaned_names_only = Ok cleaned_names_only.
Proof.
  apply (clean_countries_csv_idempotent names_only_reference); [|reflexivity].
  repeat constructor.
Defined.
